(** * MerViz: the live-preview pipeline, the export encoder and the fit engine

  A shallow embedding of the [App] component and of the renderer adapter
  [lib/mermaidClient] (both in [src/unnamed/part_000]) and of the export
  encoder [src/lib/export.ts].

  Conventions of the embedding.
  - A JavaScript string is a [string]: a sequence of code units, each in
    the range 0..255 (ASCII and Latin-1).  Character classes ([\s], [\b],
    [toLowerCase]) are written out for that range.  Locating a label
    depends on code units beyond that range, whose lower case can be
    longer than they are: module [Utf16] embeds [focusEditorAtText] on
    sequences of 16-bit code units, with [toLowerCase] as a parameter.
  - A JavaScript number is an exact rational [Q].  [NaN] and the
    infinities are not values of the model: the places of the source that
    test for them ([Number.isFinite] in [parseSvgSize]) work on [option Q].
    The size of the canvas and the zoom steps depend on how IEEE doubles
    round: module [Binary64] embeds [downloadPng], [zoomIn] and [zoomOut]
    with binary64 arithmetic, [NaN] and the infinities.
  - The diagram engine (the [mermaid] package), the built-ins [Number]
    and [parseFloat], and [Math.random] are not code of the repository;
    the model takes them as parameters ([Engine], [Builtins], [Env]).
  - The state updates of one handler are applied together, a [useEffect]
    runs right after the update that changed one of its dependencies, and
    a call of [renderMermaid] runs against the adapter in one piece: two
    calls that interleave at its [await]s are outside the model. *)

From Stdlib Require Import String Ascii ZArith QArith Qabs Qround Qminmax Lia Lqa List.
From stdpp Require Import gmap strings.
From stdpp Require Import pretty.
From Stdlib Require Qpower.
Import ListNotations.

Open Scope string_scope.

(* ===================================================================== *)
(** ** JavaScript strings *)
(* ===================================================================== *)

Module JsString.

Definition in_range (lo hi : N) (c : ascii) : bool :=
  ((lo <=? N_of_ascii c) && (N_of_ascii c <=? hi))%N.

Definition is_upper (c : ascii) : bool := in_range 65 90 c.
Definition is_lower (c : ascii) : bool := in_range 97 122 c.
Definition is_digit (c : ascii) : bool := in_range 48 57 c.

(** [\w] of a regular expression without the [u] flag: [[A-Za-z0-9_]]. *)
Definition is_word (c : ascii) : bool :=
  is_upper c || is_lower c || is_digit c || Ascii.eqb c "_".

(** [\s], and the characters [trim] strips: TAB, LF, VT, FF, CR, SPACE and
    NBSP (the white space and line terminators below U+0100). *)
Definition is_space (c : ascii) : bool :=
  in_range 9 13 c || Ascii.eqb c " " || (N_of_ascii c =? 160)%N.

(** Case folding of the [i] flag, for a pattern character that is an
    ASCII letter: only the two ASCII cases of the letter match it. *)
Definition fold_case (c : ascii) : ascii :=
  if is_upper c then ascii_of_N (N_of_ascii c + 32) else c.

(** [c] matches the lower-case pattern letter [p] under the [i] flag. *)
Definition ci_eq (c p : ascii) : bool := Ascii.eqb (fold_case c) p.

(** [\b] right after a word character: the next character is not a word
    character, or the input ends. *)
Definition boundary (s : string) : bool :=
  match s with
  | EmptyString => true
  | String c _ => negb (is_word c)
  end.

(** [\b] right before a word character, [prev] being the character
    before the position ([None] at the start of the input). *)
Definition boundary_before (prev : option ascii) : bool :=
  match prev with
  | None => true
  | Some c => negb (is_word c)
  end.

(** [String.prototype.toLowerCase] on the code units 0..255: A-Z, and
    the Latin-1 capitals U+00C0..U+00DE without the sign U+00D7. *)
Definition lower_char (c : ascii) : ascii :=
  if is_upper c || (in_range 192 222 c && negb (N_of_ascii c =? 215)%N)
  then ascii_of_N (N_of_ascii c + 32) else c.

Fixpoint toLowerCase (s : string) : string :=
  match s with
  | EmptyString => EmptyString
  | String c s' => String (lower_char c) (toLowerCase s')
  end.

(** Length of the longest prefix of [s] made of characters in [p]. *)
Fixpoint span (p : ascii -> bool) (s : string) : nat :=
  match s with
  | EmptyString => 0
  | String c s' => if p c then S (span p s') else 0
  end.

Fixpoint sdrop (n : nat) (s : string) : string :=
  match n, s with
  | O, _ => s
  | S _, EmptyString => EmptyString
  | S n', String _ s' => sdrop n' s'
  end.

Definition stake (n : nat) (s : string) : string := substring 0 n s.

Definition skip_spaces (s : string) : string := sdrop (span is_space s) s.

(** [s.replace(re, rep)] for a regular expression [re] with the [g] flag.
    [m s] is the length of the match of [re] that starts at the head of
    [s], if there is one; [skip] counts the characters of the current
    match that are still to be passed over (the engine's [lastIndex]).
    Both patterns of the source match non-empty strings only. *)
Fixpoint replace_all (m : string -> option nat) (rep : string)
         (skip : nat) (s : string) : string :=
  match s with
  | EmptyString => EmptyString
  | String c s' =>
      match skip with
      | S k => replace_all m rep k s'
      | O =>
          match m s with
          | Some (S k) => rep ++ replace_all m rep k s'
          | _ => String c (replace_all m rep 0 s')
          end
      end
  end.

(** Length of the prefix [[^>]*>] of [s]: up to the first [>], included. *)
Fixpoint upto_gt (s : string) : option nat :=
  match s with
  | EmptyString => None
  | String c s' => if Ascii.eqb c ">" then Some 1 else option_map S (upto_gt s')
  end.

(** [/<br\b[^>]*>/i] at the head of [s]: the length of the match. *)
Definition match_br (s : string) : option nat :=
  match s with
  | String c0 (String c1 (String c2 rest)) =>
      if Ascii.eqb c0 "<" && ci_eq c1 "b" && ci_eq c2 "r" && boundary rest
      then option_map (fun n => 3 + n) (upto_gt rest)
      else None
  | _ => None
  end.

(** [/\s+/] at the head of [s]. *)
Definition match_spaces (s : string) : option nat :=
  match span is_space s with
  | O => None
  | n => Some n
  end.

(** [s.split(/\s+/)]: [acc] is the piece being read. *)
Fixpoint split_spaces (skip : nat) (acc : string) (s : string) : list string :=
  match s with
  | EmptyString => [acc]
  | String c s' =>
      match skip with
      | S k => split_spaces k acc s'
      | O =>
          match match_spaces s with
          | Some (S k) => acc :: split_spaces k EmptyString s'
          | _ => split_spaces 0 (acc ++ String c EmptyString) s'
          end
      end
  end.

(** The number of pieces of [s.split(/\r?\n/)]: one more than the number
    of line feeds. *)
Fixpoint count_lines (s : string) : nat :=
  match s with
  | EmptyString => 1
  | String c s' => if Ascii.eqb c (ascii_of_N 10) then S (count_lines s') else count_lines s'
  end.

(** A literal of lower-case letters matched under the [i] flag at the
    head of [s]: what follows the match. *)
Fixpoint match_ci (pat s : string) : option string :=
  match pat with
  | EmptyString => Some s
  | String p pat' =>
      match s with
      | EmptyString => None
      | String c s' => if ci_eq c p then match_ci pat' s' else None
      end
  end.

Definition dquote : ascii := ascii_of_N 34.

(** The pattern tail [\s*=\s*Q([^Q]+)Q] at the head of [s], with [Q] the
    double quote: the text captured by the group.  The run of characters
    other than [Q] is maximal, so what stops it is a [Q] or the end of the
    input. *)
Definition attr_value (s : string) : option string :=
  match skip_spaces s with
  | String c1 s1 =>
      if Ascii.eqb c1 "=" then
        match skip_spaces s1 with
        | String c2 s2 =>
            if Ascii.eqb c2 dquote then
              let n := span (fun c => negb (Ascii.eqb c dquote)) s2 in
              match n, sdrop n s2 with
              | S _, String _ _ => Some (stake n s2)
              | _, _ => None
              end
            else None
        | EmptyString => None
        end
      else None
  | EmptyString => None
  end.

(** [String.prototype.trim]. *)
Fixpoint trim_end (s : string) : string :=
  match s with
  | EmptyString => EmptyString
  | String c s' =>
      match trim_end s' with
      | EmptyString => if is_space c then EmptyString else String c EmptyString
      | t => String c t
      end
  end.

Definition trim (s : string) : string := trim_end (skip_spaces s).

(** [s.indexOf(q)]: [None] stands for -1. *)
Definition indexOf (s q : string) : option nat := String.index 0 q s.

End JsString.

(* ===================================================================== *)
(** ** JavaScript numbers *)
(* ===================================================================== *)

Module JsNumber.

Definition Qltb (x y : Q) : bool := negb (Qle_bool y x).

(** [Math.round]: the nearest integer, a tie going up. *)
Definition Math_round (x : Q) : Z := Qfloor (x + (1 # 2)).

Definition Math_max (x y : Q) : Q := Qmax x y.
Definition Math_min (x y : Q) : Q := Qmin x y.

(** [+x.toFixed(2)]: the nearest multiple of 1/100, a tie going away from
    zero; from 10^21 on [toFixed] prints the number itself. *)
Definition toFixed2 (x : Q) : Q :=
  if Qle_bool (10 ^ 21) (Qabs x) then x
  else if Qle_bool 0 x then Qfloor (x * 100 + (1 # 2)) # 100
  else - (Qfloor (- x * 100 + (1 # 2)) # 100).

(** A number used as a condition: zero is false. *)
Definition truthy (x : Q) : bool := negb (Qeq_bool x 0).

(** The built-ins that read a number from a string.  Each gives the number
    when it is finite and [None] when the built-in gives [NaN] or an
    infinity. *)
Record Builtins := {
  js_Number : string -> option Q;
  js_parseFloat : string -> option Q
}.

End JsNumber.

(* ===================================================================== *)
(** ** src/lib/export.ts *)
(* ===================================================================== *)

Module ExportLib.
Import JsString JsNumber.

Definition sanitizeSvg (xml : string) : string :=
  replace_all match_br "<br/>" 0 xml.

(** What [downloadSvg] puts into the blob it offers for download. *)
Definition downloadSvg_content (svg : string) : string := sanitizeSvg svg.

(** Every place of [s] where the pattern of [sanitizeSvg] matches carries
    the self-closing tag itself. *)
Fixpoint br_tags_closed (s : string) : bool :=
  match s with
  | EmptyString => true
  | String _ s' =>
      match match_br s with
      | Some _ => String.prefix "<br/>" s
      | None => true
      end && br_tags_closed s'
  end.

Record Size := { width : Q; height : Q }.

(** [/viewBox\s*=\s*Q([^Q]+)Q/i.exec(svg)]: the group of the leftmost
    match.  Under the [i] flag the letters of the pattern are given in
    lower case. *)
Fixpoint exec_viewBox (s : string) : option string :=
  match s with
  | EmptyString => None
  | String _ s' =>
      match match_ci "viewbox" s ≫= attr_value with
      | Some v => Some v
      | None => exec_viewBox s'
      end
  end.

(** [/\bNAME\s*=\s*Q([^Q]+)Q/i.exec(svg)] for [NAME] one of [width] and
    [height]; [prev] is the character before the head of [s]. *)
Fixpoint exec_attr (name : string) (prev : option ascii) (s : string) : option string :=
  match s with
  | EmptyString => None
  | String c s' =>
      match (if boundary_before prev then match_ci name s ≫= attr_value else None) with
      | Some v => Some v
      | None => exec_attr name (Some c) s'
      end
  end.

Definition toPx (B : Builtins) (v : option string) : option Q :=
  match v with
  | None => None
  | Some EmptyString => None
  | Some v => js_parseFloat B v
  end.

Definition parseSvgSize (B : Builtins) (svg : string) : option Size :=
  let fallback :=
    let wMatch := exec_attr "width" None svg in
    let hMatch := exec_attr "height" None svg in
    match toPx B wMatch, toPx B hMatch with
    | Some w, Some h =>
        if Qltb 0 w && Qltb 0 h then Some {| width := w; height := h |} else None
    | _, _ => None
    end in
  match exec_viewBox svg with
  | Some vb1 =>
      match map (js_Number B) (split_spaces 0 EmptyString (trim vb1)) with
      | [Some _; Some _; Some w; Some h] =>
          if Qltb 0 w && Qltb 0 h then Some {| width := w; height := h |}
          else fallback
      | _ => fallback
      end
  | None => fallback
  end.

(** What [downloadPng] does up to the allocation of the canvas: the markup
    handed to the rasteriser, the scale of the drawing context and the
    size of the canvas. *)
Record PngPlan := {
  png_markup : string;
  png_scale : Q;
  canvas_width : Z;
  canvas_height : Z
}.

Definition downloadPng (B : Builtins) (svg : string) (scale : option Q) : PngPlan :=
  let sanitized := sanitizeSvg svg in
  let sz := match parseSvgSize B sanitized with
            | Some sz => sz
            | None => {| width := 800; height := 600 |}
            end in
  let baseLongest := Math_max (width sz) (height sz) in
  let minScale := 3%Q in
  let targetLongest := 2000%Q in
  let computedScale := match scale with
                       | Some s => s
                       | None => Math_max minScale (targetLongest / baseLongest)
                       end in
  let computedScale := Math_max (1 # 2) (Math_min 8 computedScale) in
  {| png_markup := sanitized;
     png_scale := computedScale;
     canvas_width := Math_round (width sz * computedScale);
     canvas_height := Math_round (height sz * computedScale) |}.

End ExportLib.

(* ===================================================================== *)
(** ** src/lib/mermaidClient.ts *)
(* ===================================================================== *)

Module MermaidClient.
Import JsString.

(** A value of [themeVariables]. *)
Inductive var_value :=
| VStr (s : string)
| VNum (n : Z).

(** [MermaidConfig].  The type of the source asks for a builtin theme name;
    at run time [theme] is whatever string, or [undefined], the caller
    computed. *)
Record MermaidConfig := {
  theme : option string;
  themeVariables : option (gmap string var_value);
  securityLevel : option string;
  fontFamily : option string
}.

(** The object handed to [mermaid.initialize]. *)
Record EngineSettings := {
  startOnLoad : bool;
  e_theme : option string;
  e_themeVariables : option (gmap string var_value);
  e_securityLevel : string;
  e_fontFamily : option string;
  htmlLabels : bool;
  flowchart_htmlLabels : bool
}.

(** What a JavaScript [catch] can receive. *)
Inductive js_thrown :=
| ThrownUndefined
| ThrownNull
| ThrownString (s : string)
| ThrownError (message : string)
| ThrownObject (message : option string).

(** [e?.message], for a message that is a string. *)
Definition message_of (e : js_thrown) : option string :=
  match e with
  | ThrownError m => Some m
  | ThrownObject m => m
  | _ => None
  end.

(** [String(e)]. *)
Definition String_of (e : js_thrown) : string :=
  match e with
  | ThrownUndefined => "undefined"
  | ThrownNull => "null"
  | ThrownString s => s
  | ThrownError EmptyString => "Error"
  | ThrownError m => "Error: " ++ m
  | ThrownObject _ => "[object Object]"
  end.

(** The diagram engine.  [mermaid_parse] gives [None] when the promise of
    [mermaid.parse] resolves and the thrown value when it rejects;
    [mermaid_render id code] gives the markup or the thrown value.  Both
    depend on the settings last given to [mermaid.initialize]. *)
Record Engine := {
  mermaid_parse : option EngineSettings -> string -> option js_thrown;
  mermaid_render : option EngineSettings -> string -> string -> js_thrown + string
}.

Inductive EngineCall :=
| CallInitialize (s : EngineSettings)
| CallParse (code : string)
| CallRender (id code : string).

(** The module state of the adapter and of the engine behind it, with the
    calls made to the engine so far, oldest first. *)
Record Adapter := {
  initialized : bool;
  engine_settings : option EngineSettings;
  calls : list EngineCall
}.

Definition fresh_adapter : Adapter :=
  {| initialized := false; engine_settings := None; calls := [] |}.

Inductive outcome (A : Type) :=
| Resolved (a : A)
| Rejected (e : js_thrown).
Arguments Resolved {A} a.
Arguments Rejected {A} e.

(** Computations over the adapter that may throw. *)
Definition M (A : Type) : Type := Adapter -> outcome A * Adapter.

Definition ret {A} (a : A) : M A := fun st => (Resolved a, st).

Definition bind {A B} (m : M A) (k : A -> M B) : M B :=
  fun st =>
    match m st with
    | (Resolved a, st') => k a st'
    | (Rejected e, st') => (Rejected e, st')
    end.

Definition throw {A} (e : js_thrown) : M A := fun st => (Rejected e, st).

Definition try_catch {A} (m : M A) (h : js_thrown -> M A) : M A :=
  fun st =>
    match m st with
    | (Resolved a, st') => (Resolved a, st')
    | (Rejected e, st') => h e st'
    end.

Notation "'let*' x ':=' m 'in' k" := (bind m (fun x => k))
  (at level 10, x name, m at level 100, k at level 200).

Definition log (c : EngineCall) : M unit :=
  fun st => (Resolved tt,
             {| initialized := initialized st;
                engine_settings := engine_settings st;
                calls := calls st ++ [c] |}).

Definition get_initialized : M bool := fun st => (Resolved (initialized st), st).

Definition set_initialized (b : bool) : M unit :=
  fun st => (Resolved tt,
             {| initialized := b;
                engine_settings := engine_settings st;
                calls := calls st |}).

Definition mermaid_initialize (s : EngineSettings) : M unit :=
  let* _ := log (CallInitialize s) in
  fun st => (Resolved tt,
             {| initialized := initialized st;
                engine_settings := Some s;
                calls := calls st |}).

Definition await_parse (E : Engine) (code : string) : M unit :=
  let* _ := log (CallParse code) in
  fun st => match mermaid_parse E (engine_settings st) code with
            | None => (Resolved tt, st)
            | Some e => (Rejected e, st)
            end.

Definition await_render (E : Engine) (id code : string) : M string :=
  let* _ := log (CallRender id code) in
  fun st => match mermaid_render E (engine_settings st) id code with
            | inr svg => (Resolved svg, st)
            | inl e => (Rejected e, st)
            end.

Definition settings_of (config : MermaidConfig) : EngineSettings :=
  {| startOnLoad := false;
     e_theme := theme config;
     e_themeVariables := themeVariables config;
     e_securityLevel := default "strict" (securityLevel config);
     e_fontFamily := fontFamily config;
     htmlLabels := false;
     flowchart_htmlLabels := false |}.

Definition init (config : MermaidConfig) : M unit :=
  let* b := get_initialized in
  if b then ret tt
  else
    let* _ := mermaid_initialize (settings_of config) in
    set_initialized true.

(** [renderMermaid].  [rnd] is [Math.random().toString(36).slice(2)]. *)
Definition renderMermaid (E : Engine) (rnd : string)
           (code : string) (config : MermaidConfig) : M string :=
  let* b := get_initialized in
  let* _ := (if b then ret tt else init config) in
  let* _ := mermaid_initialize (settings_of config) in
  let* _ := try_catch (await_parse E code)
              (fun err =>
                 let msg := match message_of err with
                            | Some (String c m) => String c m
                            | _ => "Mermaid parse error"
                            end in
                 throw (ThrownError msg)) in
  let id := "merviz-" ++ rnd in
  let* svg := await_render E id code in
  let sanitized := replace_all match_br "<br/>" 0 svg in
  ret sanitized.

(** The calls [renderMermaid] makes before it validates the source. *)
Definition prelude (cfg : MermaidConfig) (ad : Adapter) : list EngineCall :=
  (if initialized ad then [] else [CallInitialize (settings_of cfg)])
  ++ [CallInitialize (settings_of cfg)].

End MermaidClient.

(* ===================================================================== *)
(** ** src/App.tsx: themes, the render configuration, the component state *)
(* ===================================================================== *)

Module App.
Import JsString JsNumber MermaidClient ExportLib.

Definition nl : string := String (ascii_of_N 10) EmptyString.

Definition DEFAULT_CODE : string :=
  "flowchart TD" ++ nl ++
  "  A[Start] --> B{Condition?}" ++ nl ++
  "  B -- Yes --> C[Do thing]" ++ nl ++
  "  B -- No --> D[Something else]" ++ nl ++
  "  C --> E[End]" ++ nl ++
  "  D --> E".

Definition BUILTIN_THEMES : list string :=
  ["default"; "neutral"; "dark"; "forest"; "base"].

Record ThemePreset := {
  label : string;
  base : string;
  variables : gmap string var_value
}.

Definition professionalLight : ThemePreset :=
  {| label := "Professional Light";
     base := "neutral";
     variables := list_to_map
       [ ("background", VStr "#ffffff");
         ("primaryColor", VStr "#2563eb");
         ("primaryTextColor", VStr "#0f172a");
         ("primaryBorderColor", VStr "#cbd5e1");
         ("lineColor", VStr "#64748b");
         ("textColor", VStr "#0f172a");
         ("mainBkg", VStr "#ffffff");
         ("nodeBorder", VStr "#e2e8f0");
         ("clusterBkg", VStr "#f8fafc");
         ("clusterBorder", VStr "#e2e8f0");
         ("edgeLabelBackground", VStr "#ffffff");
         ("labelBackground", VStr "#ffffff");
         ("noteBkgColor", VStr "#f8fafc");
         ("noteBorderColor", VStr "#e2e8f0");
         ("tertiaryColor", VStr "#f1f5f9");
         ("tertiaryTextColor", VStr "#0f172a");
         ("fontSize", VStr "16px");
         ("edgeFontSize", VStr "14px");
         ("nodeBorderRadius", VNum 8);
         ("padding", VNum 12) ] |}.

Definition midnightBlue : ThemePreset :=
  {| label := "Midnight Blue";
     base := "dark";
     variables := list_to_map
       [ ("background", VStr "#0b1220");
         ("primaryColor", VStr "#60a5fa");
         ("primaryTextColor", VStr "#e5e7eb");
         ("primaryBorderColor", VStr "#1f2a44");
         ("lineColor", VStr "#64748b");
         ("textColor", VStr "#e5e7eb");
         ("mainBkg", VStr "#111827");
         ("nodeBorder", VStr "#334155");
         ("clusterBkg", VStr "#0f172a");
         ("clusterBorder", VStr "#1f2937");
         ("edgeLabelBackground", VStr "#111827");
         ("labelBackground", VStr "#0b1220");
         ("noteBkgColor", VStr "#0f172a");
         ("noteBorderColor", VStr "#334155");
         ("tertiaryColor", VStr "#1f2937");
         ("tertiaryTextColor", VStr "#e5e7eb");
         ("fontSize", VStr "16px");
         ("edgeFontSize", VStr "14px");
         ("nodeBorderRadius", VNum 8);
         ("padding", VNum 12) ] |}.

Definition emerald : ThemePreset :=
  {| label := "Emerald";
     base := "neutral";
     variables := list_to_map
       [ ("background", VStr "#ffffff");
         ("primaryColor", VStr "#10b981");
         ("primaryTextColor", VStr "#064e3b");
         ("primaryBorderColor", VStr "#a7f3d0");
         ("lineColor", VStr "#34d399");
         ("textColor", VStr "#0f172a");
         ("mainBkg", VStr "#ecfdf5");
         ("nodeBorder", VStr "#a7f3d0");
         ("clusterBkg", VStr "#f0fdf4");
         ("clusterBorder", VStr "#a7f3d0");
         ("edgeLabelBackground", VStr "#ffffff");
         ("labelBackground", VStr "#ffffff");
         ("tertiaryColor", VStr "#d1fae5");
         ("tertiaryTextColor", VStr "#065f46");
         ("fontSize", VStr "16px");
         ("edgeFontSize", VStr "14px");
         ("nodeBorderRadius", VNum 10);
         ("padding", VNum 12) ] |}.

Definition nord : ThemePreset :=
  {| label := "Nord";
     base := "neutral";
     variables := list_to_map
       [ ("background", VStr "#ECEFF4");
         ("primaryColor", VStr "#5E81AC");
         ("primaryTextColor", VStr "#2E3440");
         ("primaryBorderColor", VStr "#81A1C1");
         ("lineColor", VStr "#88C0D0");
         ("textColor", VStr "#2E3440");
         ("mainBkg", VStr "#E5E9F0");
         ("nodeBorder", VStr "#D8DEE9");
         ("clusterBkg", VStr "#E5E9F0");
         ("clusterBorder", VStr "#D8DEE9");
         ("edgeLabelBackground", VStr "#E5E9F0");
         ("labelBackground", VStr "#ECEFF4");
         ("tertiaryColor", VStr "#D8DEE9");
         ("tertiaryTextColor", VStr "#2E3440");
         ("fontSize", VStr "16px");
         ("edgeFontSize", VStr "14px");
         ("nodeBorderRadius", VNum 6);
         ("padding", VNum 12) ] |}.

(** The own properties of the object literal [CUSTOM_THEMES]. *)
Definition CUSTOM_THEMES : gmap string ThemePreset :=
  list_to_map
    [ ("professionalLight", professionalLight);
      ("midnightBlue", midnightBlue);
      ("emerald", emerald);
      ("nord", nord) ].

(** [CUSTOM_THEMES] is a plain object: its prototype is [Object.prototype],
    whose property names are these. *)
Definition Object_prototype_keys : list string :=
  [ "constructor"; "__defineGetter__"; "__defineSetter__"; "hasOwnProperty";
    "__lookupGetter__"; "__lookupSetter__"; "isPrototypeOf";
    "propertyIsEnumerable"; "toString"; "valueOf"; "__proto__";
    "toLocaleString" ].

(** [key in CUSTOM_THEMES]: own properties, then the prototype. *)
Definition in_CUSTOM_THEMES (key : string) : bool :=
  bool_decide (is_Some (CUSTOM_THEMES !! key))
  || existsb (String.eqb key) Object_prototype_keys.

(** The [useMemo] that derives [config] from [theme] and [font].  For a
    key found on the prototype, [CUSTOM_THEMES[theme]] is a member of
    [Object.prototype], which has neither [base] nor [variables]: both
    reads give [undefined], and spreading [undefined] adds nothing. *)
Definition config (theme font : string) : MermaidConfig :=
  let isCustom := in_CUSTOM_THEMES theme in
  let base : option string :=
    if isCustom then base <$> CUSTOM_THEMES !! theme else Some theme in
  let baseVars : gmap string var_value :=
    if isCustom then default ∅ (variables <$> CUSTOM_THEMES !! theme) else ∅ in
  {| MermaidClient.theme := base;
     themeVariables := Some (<["fontFamily" := VStr font]> baseVars);
     securityLevel := Some "strict";
     fontFamily := Some font |}.

(** The [useState] cells of [App] that the render path, the zoom controls
    and the export handlers read or write. *)
Record AppState := {
  code : string;
  theme : string;
  svg : string;
  error : option string;
  autoUpdate : bool;
  font : string;
  zoom : Q;
  fitToViewport : bool
}.

Definition DEFAULT_FONT : string :=
  "Inter, system-ui, Avenir, Helvetica, Arial, sans-serif".

(** [a || b] for a string read from the store: [null] and the empty string
    give [b]. *)
Definition or_else (a : option string) (b : string) : string :=
  match a with
  | Some (String c s) => String c s
  | _ => b
  end.

(** The initial values of the cells, read from [localStorage]. *)
Definition initial_state (localStorage : gmap string string) : AppState :=
  {| code := default DEFAULT_CODE (localStorage !! "merViz.diagram.v1");
     theme := or_else (localStorage !! "merViz.theme.v1") "default";
     svg := EmptyString;
     error := None;
     autoUpdate := negb (bool_decide (localStorage !! "merViz.autoupdate.v1" = Some "false"));
     font := or_else (localStorage !! "merViz.font.v1") DEFAULT_FONT;
     zoom := 1;
     fitToViewport := true |}.

(** A string or an optional message used as a condition. *)
Definition populated (s : string) : bool :=
  match s with
  | EmptyString => false
  | String _ _ => true
  end.

Definition error_populated (e : option string) : bool :=
  match e with
  | Some s => populated s
  | None => false
  end.

(** *** Zoom *)

Definition set_zoom (z : Q) (st : AppState) : AppState :=
  {| code := code st; theme := theme st; svg := svg st; error := error st;
     autoUpdate := autoUpdate st; font := font st;
     zoom := z; fitToViewport := fitToViewport st |}.

Definition set_fitToViewport (b : bool) (st : AppState) : AppState :=
  {| code := code st; theme := theme st; svg := svg st; error := error st;
     autoUpdate := autoUpdate st; font := font st;
     zoom := zoom st; fitToViewport := b |}.

(** The updaters given to [setZoom]. *)
Definition zoomIn (z : Q) : Q := Math_min 3 (toFixed2 (z + (1 # 10))).
Definition zoomOut (z : Q) : Q := Math_max (2 # 10) (toFixed2 (z - (1 # 10))).
Definition resetZoom : Q := 1.

(** What [computeFitScale] measures: the bounding box of the preview
    container when it is mounted, and the bounding box of the [svg]
    element when the inner wrapper and the element exist. *)
Record Layout := {
  wrapRect : option (Q * Q);
  svgRect : option (Q * Q)
}.

(** The scale [computeFitScale] computes from the two boxes. *)
Definition fit_scale (wrapW wrapH svgW svgH : Q) : Q :=
  let padTop := 16%Q in
  let padBottom := 16%Q in
  let padLeft := 16%Q in
  let padRight := 16%Q in
  let availW := Math_max 0 (wrapW - padLeft - padRight) in
  let availH := Math_max 0 (wrapH - padTop - padBottom) in
  let scaleX := (if truthy svgW then availW / svgW else 1)%Q in
  let scaleY := (if truthy svgH then availH / svgH else 1)%Q in
  Math_max (1 # 10) (Math_min 3 (Math_min scaleX scaleY)).

(** [computeFitScale], [fit] being the [fitToViewport] its closure holds. *)
Definition computeFitScale (fit : bool) (l : Layout) (st : AppState) : AppState :=
  if negb fit then st
  else
    match wrapRect l, svgRect l with
    | Some (wrapW, wrapH), Some (svgW, svgH) =>
        set_zoom (fit_scale wrapW wrapH svgW svgH) st
    | _, _ => st
    end.

(** *** Double click in the preview *)

(** The text area behind [editorRef]. *)
Record Editor := {
  focused : bool;
  selection : option (nat * nat)
}.

(** [focusEditorAtText], [ed] being [editorRef.current]. *)
Definition focusEditorAtText (code : string) (ed : option Editor)
           (raw : option string) : option Editor :=
  match raw with
  | None | Some EmptyString => ed
  | Some raw =>
      let q := trim (replace_all match_spaces " " 0 raw) in
      match q with
      | EmptyString => ed
      | _ =>
          let idx := indexOf code q in
          let idx := match idx with
                     | Some i => Some i
                     | None =>
                         let lowerCode := toLowerCase code in
                         indexOf lowerCode (toLowerCase q)
                     end in
          match idx, ed with
          | Some idx, Some _ =>
              let e := idx + String.length q in
              Some {| focused := true; selection := Some (idx, e) |}
          | _, _ => ed
          end
      end
  end.

(** The loop of [onPreviewDoubleClick] over [chain], the [textContent] of
    the clicked element and of its ancestors, nearest first: the element
    picked, by its [textContent]. *)
Fixpoint pick (levels : nat) (chain : list string) : option string :=
  match levels, chain with
  | S n, content :: parents =>
      let txt := trim content in
      if populated txt
         && ((String.length txt <=? 120)%nat || (count_lines txt <=? 3)%nat)
      then Some content
      else pick n parents
  | _, _ => None
  end.

(** [onPreviewDoubleClick]; an empty [chain] is a click without target. *)
Definition onPreviewDoubleClick (code : string) (ed : option Editor)
           (chain : list string) : option Editor :=
  match chain with
  | [] => ed
  | _ =>
      let picked := pick 6 chain in
      let label := trim <$> picked in
      focusEditorAtText code ed label
  end.

(** *** Export handlers *)

Inductive Download :=
| SvgFile (filename content : string)
| PngFile (filename : string) (plan : PngPlan).

Definition onExportSvg (st : AppState) : option Download :=
  if negb (populated (svg st)) then None
  else Some (SvgFile "diagram.svg" (downloadSvg_content (svg st))).

(** [onExportPng]; [arg] is the argument of the call, if it has one. *)
Definition onExportPng (B : Builtins) (st : AppState) (arg : option Q) : option Download :=
  let scale := default 2%Q arg in
  if negb (populated (svg st)) then None
  else Some (PngFile "diagram.png" (downloadPng B (svg st) (Some scale))).

(** The two items of the export menu. *)
Definition menu_PNG (B : Builtins) (st : AppState) : option Download :=
  onExportPng B st None.
Definition menu_SVG (st : AppState) : option Download :=
  onExportSvg st.

End App.

(* ===================================================================== *)
(** ** src/App.tsx: the component as a transition system *)
(* ===================================================================== *)

Module Machine.
Import JsString JsNumber MermaidClient ExportLib App.

(** What lies outside the repository. *)
Record Env := {
  engine : Engine;
  builtins : Builtins;
  (** the random part of the identifier of the [n]-th call of [renderMermaid] *)
  random : nat -> string
}.

(** What a [doRender] closes over: the [code], the [config] and, through
    [computeFitScale], the [fitToViewport] of the render that created it. *)
Record Closure := {
  c_code : string;
  c_config : MermaidConfig;
  c_fit : bool
}.

(** A pending [setTimeout(() => doRender(), 250)]. *)
Record Timer := {
  timer_id : nat;
  due : nat;
  callback : Closure
}.

(** A call of [doRender]: when, and with what. *)
Record RenderCall := {
  at_time : nat;
  with_code : string;
  with_config : MermaidConfig
}.

Record World := {
  app : AppState;
  editor : option Editor;
  localStorage : gmap string string;
  (** milliseconds *)
  clock : nat;
  (** the pending timeouts of the page, oldest first *)
  timers : list Timer;
  next_timer_id : nat;
  (** the timer that the clean-up of the debounce effect will clear *)
  cleanup : option nat;
  adapter : Adapter;
  (** the calls of [doRender] so far, oldest first *)
  render_calls : list RenderCall;
  (** promises of [renderMermaid] not yet settled, each with the
      [fitToViewport] its callbacks close over *)
  in_flight : list (outcome string * bool);
  (** queued [computeFitScale] microtasks *)
  microtasks : list bool;
  downloads : list Download
}.

Definition with_app (f : AppState -> AppState) (w : World) : World :=
  {| app := f (app w); editor := editor w; localStorage := localStorage w;
     clock := clock w; timers := timers w; next_timer_id := next_timer_id w;
     cleanup := cleanup w; adapter := adapter w; render_calls := render_calls w;
     in_flight := in_flight w; microtasks := microtasks w; downloads := downloads w |}.

Definition with_editor (e : option Editor) (w : World) : World :=
  {| app := app w; editor := e; localStorage := localStorage w;
     clock := clock w; timers := timers w; next_timer_id := next_timer_id w;
     cleanup := cleanup w; adapter := adapter w; render_calls := render_calls w;
     in_flight := in_flight w; microtasks := microtasks w; downloads := downloads w |}.

Definition setItem (k v : string) (w : World) : World :=
  {| app := app w; editor := editor w; localStorage := <[k := v]> (localStorage w);
     clock := clock w; timers := timers w; next_timer_id := next_timer_id w;
     cleanup := cleanup w; adapter := adapter w; render_calls := render_calls w;
     in_flight := in_flight w; microtasks := microtasks w; downloads := downloads w |}.

Definition with_clock (t : nat) (w : World) : World :=
  {| app := app w; editor := editor w; localStorage := localStorage w;
     clock := t; timers := timers w; next_timer_id := next_timer_id w;
     cleanup := cleanup w; adapter := adapter w; render_calls := render_calls w;
     in_flight := in_flight w; microtasks := microtasks w; downloads := downloads w |}.

(** [clearTimeout(id)]. *)
Definition clearTimeout (id : nat) (w : World) : World :=
  {| app := app w; editor := editor w; localStorage := localStorage w;
     clock := clock w;
     timers := filter (fun tm => timer_id tm ≠ id) (timers w);
     next_timer_id := next_timer_id w;
     cleanup := cleanup w; adapter := adapter w; render_calls := render_calls w;
     in_flight := in_flight w; microtasks := microtasks w; downloads := downloads w |}.

(** [setTimeout(cb, delay)], the identifier being kept for the clean-up. *)
Definition setTimeout (cb : Closure) (delay : nat) (w : World) : World :=
  let id := next_timer_id w in
  {| app := app w; editor := editor w; localStorage := localStorage w;
     clock := clock w;
     timers := timers w ++ [{| timer_id := id; due := clock w + delay; callback := cb |}];
     next_timer_id := S id;
     cleanup := Some id; adapter := adapter w; render_calls := render_calls w;
     in_flight := in_flight w; microtasks := microtasks w; downloads := downloads w |}.

Definition no_cleanup (w : World) : World :=
  {| app := app w; editor := editor w; localStorage := localStorage w;
     clock := clock w; timers := timers w; next_timer_id := next_timer_id w;
     cleanup := None; adapter := adapter w; render_calls := render_calls w;
     in_flight := in_flight w; microtasks := microtasks w; downloads := downloads w |}.

(** The closure of the current render. *)
Definition current_closure (st : AppState) : Closure :=
  {| c_code := code st;
     c_config := config (theme st) (font st);
     c_fit := fitToViewport st |}.

(** [doRender] up to the point where the promise is pending: the call of
    [renderMermaid] runs against the adapter, at time [t]. *)
Definition doRender (env : Env) (t : nat) (cl : Closure) (w : World) : World :=
  let rnd := random env (length (render_calls w)) in
  let (res, ad) := renderMermaid (engine env) rnd (c_code cl) (c_config cl) (adapter w) in
  {| app := app w; editor := editor w; localStorage := localStorage w;
     clock := clock w; timers := timers w; next_timer_id := next_timer_id w;
     cleanup := cleanup w; adapter := ad;
     render_calls := render_calls w ++
       [{| at_time := t; with_code := c_code cl; with_config := c_config cl |}];
     in_flight := in_flight w ++ [(res, c_fit cl)];
     microtasks := microtasks w; downloads := downloads w |}.

(** The [then] callback of [doRender]. *)
Definition on_fulfilled (res_svg : string) (fit : bool) (w : World) : World :=
  let st := app w in
  {| app := {| code := code st; theme := theme st;
               svg := res_svg; error := None;
               autoUpdate := autoUpdate st; font := font st;
               zoom := zoom st; fitToViewport := fitToViewport st |};
     editor := editor w; localStorage := localStorage w;
     clock := clock w; timers := timers w; next_timer_id := next_timer_id w;
     cleanup := cleanup w; adapter := adapter w; render_calls := render_calls w;
     in_flight := in_flight w;
     microtasks := microtasks w ++ [fit];
     downloads := downloads w |}.

(** The [catch] callback of [doRender]: [e?.message ?? String(e)]. *)
Definition on_rejected (e : js_thrown) (w : World) : World :=
  with_app (fun st =>
     {| code := code st; theme := theme st;
        svg := EmptyString;
        error := Some (default (String_of e) (message_of e));
        autoUpdate := autoUpdate st; font := font st;
        zoom := zoom st; fitToViewport := fitToViewport st |}) w.

(** The debounce effect, run again because [code], [config] or
    [autoUpdate] changed: the clean-up of the previous run, then the body. *)
Definition debounce_effect (w : World) : World :=
  let w := match cleanup w with
           | Some id => clearTimeout id w
           | None => w
           end in
  if negb (autoUpdate (app w)) then no_cleanup w
  else setTimeout (current_closure (app w)) 250 w.

Definition set_code (v : string) (st : AppState) : AppState :=
  {| code := v; theme := theme st; svg := svg st; error := error st;
     autoUpdate := autoUpdate st; font := font st;
     zoom := zoom st; fitToViewport := fitToViewport st |}.

Definition set_theme (v : string) (st : AppState) : AppState :=
  {| code := code st; theme := v; svg := svg st; error := error st;
     autoUpdate := autoUpdate st; font := font st;
     zoom := zoom st; fitToViewport := fitToViewport st |}.

Definition set_font (v : string) (st : AppState) : AppState :=
  {| code := code st; theme := theme st; svg := svg st; error := error st;
     autoUpdate := autoUpdate st; font := v;
     zoom := zoom st; fitToViewport := fitToViewport st |}.

Definition set_autoUpdate (b : bool) (st : AppState) : AppState :=
  {| code := code st; theme := theme st; svg := svg st; error := error st;
     autoUpdate := b; font := font st;
     zoom := zoom st; fitToViewport := fitToViewport st |}.

Definition String_of_bool (b : bool) : string := if b then "true" else "false".

(** The timers of [ts] that are due at [t] fire, oldest first.  A callback
    neither sets nor clears a timer. *)
Fixpoint fire_due (env : Env) (t : nat) (ts : list Timer) (w : World) : World :=
  match ts with
  | [] => w
  | tm :: ts' =>
      if (due tm <=? t)%nat
      then fire_due env t ts' (doRender env (due tm) (callback tm) (clearTimeout (timer_id tm) w))
      else fire_due env t ts' w
  end.

Definition remove_nth {A} (i : nat) (l : list A) : list A :=
  take i l ++ drop (S i) l.

Inductive event :=
(** the text area, the two selects and the check boxes *)
| EditCode (v : string)
| SelectTheme (v : string)
| SelectFont (v : string)
| SetAutoUpdate (b : bool)
| SetFit (b : bool) (l : Layout)
(** the buttons *)
| ClickRender
| ClickZoomIn
| ClickZoomOut
| ClickReset
| ClickExportPng
| ClickExportSvg
| DoubleClick (chain : list string)
(** the environment: time passes up to [t]; the [i]-th pending promise
    settles; the oldest microtask runs; the container is resized *)
| Tick (t : nat)
| Settle (i : nat)
| RunMicrotask (l : Layout)
| Resized (l : Layout).

Definition step (env : Env) (ev : event) (w : World) : World :=
  match ev with
  | EditCode v =>
      if String.eqb v (code (app w)) then w
      else debounce_effect (setItem "merViz.diagram.v1" v (with_app (set_code v) w))
  | SelectTheme v =>
      if String.eqb v (theme (app w)) then w
      else debounce_effect (setItem "merViz.theme.v1" v (with_app (set_theme v) w))
  | SelectFont v =>
      if String.eqb v (font (app w)) then w
      else debounce_effect (setItem "merViz.font.v1" v (with_app (set_font v) w))
  | SetAutoUpdate b =>
      if Bool.eqb b (autoUpdate (app w)) then w
      else debounce_effect
             (setItem "merViz.autoupdate.v1" (String_of_bool b) (with_app (set_autoUpdate b) w))
  | SetFit b l =>
      if Bool.eqb b (fitToViewport (app w)) then w
      else with_app (fun st => if b then computeFitScale b l st else st)
             (with_app (set_fitToViewport b) w)
  | ClickRender => doRender env (clock w) (current_closure (app w)) w
  | ClickZoomIn =>
      if fitToViewport (app w) then w
      else with_app (fun st => set_zoom (zoomIn (zoom st)) (set_fitToViewport false st)) w
  | ClickZoomOut =>
      if fitToViewport (app w) then w
      else with_app (fun st => set_zoom (zoomOut (zoom st)) (set_fitToViewport false st)) w
  | ClickReset =>
      if fitToViewport (app w) then w
      else with_app (fun st => set_zoom resetZoom (set_fitToViewport false st)) w
  | ClickExportPng =>
      match menu_PNG (builtins env) (app w) with
      | Some d =>
          {| app := app w; editor := editor w; localStorage := localStorage w;
             clock := clock w; timers := timers w; next_timer_id := next_timer_id w;
             cleanup := cleanup w; adapter := adapter w; render_calls := render_calls w;
             in_flight := in_flight w; microtasks := microtasks w;
             downloads := downloads w ++ [d] |}
      | None => w
      end
  | ClickExportSvg =>
      match menu_SVG (app w) with
      | Some d =>
          {| app := app w; editor := editor w; localStorage := localStorage w;
             clock := clock w; timers := timers w; next_timer_id := next_timer_id w;
             cleanup := cleanup w; adapter := adapter w; render_calls := render_calls w;
             in_flight := in_flight w; microtasks := microtasks w;
             downloads := downloads w ++ [d] |}
      | None => w
      end
  | DoubleClick chain =>
      with_editor (onPreviewDoubleClick (code (app w)) (editor w) chain) w
  | Tick t =>
      with_clock (Nat.max (clock w) t) (fire_due env t (timers w) w)
  | Settle i =>
      match in_flight w !! i with
      | None => w
      | Some (res, fit) =>
          let w' :=
            {| app := app w; editor := editor w; localStorage := localStorage w;
               clock := clock w; timers := timers w; next_timer_id := next_timer_id w;
               cleanup := cleanup w; adapter := adapter w; render_calls := render_calls w;
               in_flight := remove_nth i (in_flight w);
               microtasks := microtasks w; downloads := downloads w |} in
          match res with
          | Resolved res_svg => on_fulfilled res_svg fit w'
          | Rejected e => on_rejected e w'
          end
      end
  | RunMicrotask l =>
      match microtasks w with
      | [] => w
      | fit :: rest =>
          {| app := computeFitScale fit l (app w);
             editor := editor w; localStorage := localStorage w;
             clock := clock w; timers := timers w; next_timer_id := next_timer_id w;
             cleanup := cleanup w; adapter := adapter w; render_calls := render_calls w;
             in_flight := in_flight w; microtasks := rest; downloads := downloads w |}
      end
  | Resized l =>
      with_app (computeFitScale (fitToViewport (app w)) l) w
  end.

(** The page right after the first render of [App], at time [t0]: the
    cells hold their initial values, every effect has run once.  The two
    effects of the fit engine find no [svg] element yet, the stored
    graphic being empty, and change nothing. *)
Definition mount (ls : gmap string string) (t0 : nat) : World :=
  let st := initial_state ls in
  let w :=
    {| app := st;
       editor := Some {| focused := false; selection := None |};
       localStorage := ls;
       clock := t0; timers := []; next_timer_id := 0;
       cleanup := None; adapter := fresh_adapter; render_calls := [];
       in_flight := []; microtasks := []; downloads := [] |} in
  let w := debounce_effect w in
  let w := setItem "merViz.diagram.v1" (code st) w in
  let w := setItem "merViz.theme.v1" (theme st) w in
  let w := setItem "merViz.autoupdate.v1" (String_of_bool (autoUpdate st)) w in
  setItem "merViz.font.v1" (font st) w.

Definition run (env : Env) (evs : list event) (w : World) : World :=
  fold_left (fun w ev => step env ev w) evs w.

(** The states the page can be in. *)
Inductive reachable (env : Env) : World -> Prop :=
| reach_mount ls t0 : reachable env (mount ls t0)
| reach_step w ev : reachable env w -> reachable env (step env ev w).

(** *** Invariants of the reachable states *)

(** The stored graphic and the stored error are never both present. *)
Definition result_inv (st : AppState) : Prop :=
  error st = None \/ svg st = EmptyString.

(** The page has at most one pending timeout, and the clean-up of the
    debounce effect holds its identifier. *)
Definition timers_inv (w : World) : Prop :=
  timers w = [] \/ exists tm, timers w = [tm] /\ cleanup w = Some (timer_id tm).

(** Every raster file the page has offered was made by [downloadPng] with
    the scale 2. *)
Definition downloads_inv (B : Builtins) (ds : list Download) : Prop :=
  forall name plan,
    In (PngFile name plan) ds ->
    exists svg0, populated svg0 = true /\
                 name = "diagram.png" /\
                 plan = downloadPng B svg0 (Some 2%Q).

(** [ev] changes the text or the configuration shown in state [st]. *)
Definition is_change (ev : event) (st : AppState) : Prop :=
  match ev with
  | EditCode v => v <> code st
  | SelectTheme v => v <> theme st
  | SelectFont v => v <> font st
  | _ => False
  end.

End Machine.

(* ===================================================================== *)
(** ** Instances of the environment, for running the model *)
(* ===================================================================== *)

Module Instances.
Import JsString JsNumber MermaidClient ExportLib App Machine.

(** An engine that accepts every source and draws [markup] for it. *)
Definition drawing_engine (markup : string) : Engine :=
  {| mermaid_parse := fun _ _ => None;
     mermaid_render := fun _ _ _ => inr markup |}.

(** An engine whose validation rejects every source with [e]; asked to
    render all the same, it would draw its error graphic. *)
Definition rejecting_engine (e : js_thrown) : Engine :=
  {| mermaid_parse := fun _ _ => Some e;
     mermaid_render := fun _ _ _ => inr "<svg>Syntax error in text</svg>" |}.

Definition digit_value (c : ascii) : Z := Z.of_N (N_of_ascii c) - 48.

Fixpoint read_digits (acc : Z) (s : string) : Z * string :=
  match s with
  | String c s' => if is_digit c then read_digits (10 * acc + digit_value c) s' else (acc, s)
  | EmptyString => (acc, s)
  end.

Fixpoint read_fraction (num : Z) (den : positive) (s : string) : Q * string :=
  match s with
  | String c s' =>
      if is_digit c then read_fraction (10 * num + digit_value c) (10 * den) s'
      else (num # den, s)
  | EmptyString => (num # den, s)
  end.

(** A decimal literal at the head of [s]: digits with an optional
    fraction, or a fraction alone; the value and what follows. *)
Definition read_unsigned (s : string) : option (Q * string) :=
  match s with
  | String c s' =>
      if is_digit c then
        let (n, r) := read_digits 0 s in
        match r with
        | String d r' => if Ascii.eqb d "." then Some (read_fraction n 1 r') else Some (n # 1, r)
        | EmptyString => Some (n # 1, r)
        end
      else if Ascii.eqb c "." then
        match s' with
        | String d _ => if is_digit d then Some (read_fraction 0 1 s') else None
        | EmptyString => None
        end
      else None
  | EmptyString => None
  end.

Definition read_decimal (s : string) : option (Q * string) :=
  match s with
  | String c s' =>
      if Ascii.eqb c "-" then
        match read_unsigned s' with
        | Some (q, r) => Some (Qopp q, r)
        | None => None
        end
      else if Ascii.eqb c "+" then read_unsigned s'
      else read_unsigned s
  | EmptyString => None
  end.

(** [Number] and [parseFloat] on plain decimal literals.  [Number] reads
    the whole trimmed string, the empty string being zero; [parseFloat]
    reads the longest literal after leading white space.  Exponents,
    other radices and [Infinity] are left out. *)
Definition decimal_builtins : Builtins :=
  {| js_Number := fun s =>
       match trim s with
       | EmptyString => Some 0%Q
       | t => match read_decimal t with
              | Some (q, EmptyString) => Some q
              | _ => None
              end
       end;
     js_parseFloat := fun s => fst <$> read_decimal (skip_spaces s) |}.

Definition q : string := String dquote EmptyString.

(** A page whose engine draws one fixed graphic. *)
Definition drawing_env : Env :=
  {| engine := drawing_engine "<svg><text>a<br>b</text></svg>";
     builtins := decimal_builtins;
     random := fun _ => "k3x9" |}.

(** A page whose engine rejects every source. *)
Definition rejecting_env : Env :=
  {| engine := rejecting_engine (ThrownError "Parse error on line 2");
     builtins := decimal_builtins;
     random := fun _ => "k3x9" |}.

(** An engine that accepts the sources starting with [flowchart] and
    rejects the others. *)
Definition sample_engine : Engine :=
  {| mermaid_parse := fun _ code =>
       if String.prefix "flowchart" code then None
       else Some (ThrownError "Parse error on line 1");
     mermaid_render := fun _ _ _ => inr "<svg><text>a<br>b</text></svg>" |}.

Definition sample_env : Env :=
  {| engine := sample_engine;
     builtins := decimal_builtins;
     random := fun _ => "k3x9" |}.

(** A preview container of 832 by 632 pixels holding a graphic of 400 by
    300. *)
Definition sample_layout : Layout :=
  {| wrapRect := Some (832, 632)%Q; svgRect := Some (400, 300)%Q |}.

(** The same container holding a graphic of 300 by 700. *)
Definition tall_layout : Layout :=
  {| wrapRect := Some (832, 632)%Q; svgRect := Some (300, 700)%Q |}.

End Instances.

(* ===================================================================== *)
(** ** The vocabulary of the specification *)
(* ===================================================================== *)

Module SpecWords.
Import JsString JsNumber.

(** [clamp lo hi x]: [x] brought into the interval from [lo] to [hi]. *)
Definition clamp (lo hi x : Q) : Q :=
  if Qltb x lo then lo else if Qltb hi x then hi else x.

(** The void elements of HTML. *)
Definition void_elements : list string :=
  [ "area"; "base"; "br"; "col"; "embed"; "hr"; "img"; "input"; "link";
    "meta"; "source"; "track"; "wbr" ].

(** Reading a tag up to its closing [>], [prev] being the character read
    last: is the character before the [>] a slash?  [None] when the tag is
    not closed at all. *)
Fixpoint closes_itself (prev : ascii) (s : string) : option bool :=
  match s with
  | EmptyString => None
  | String c s' => if Ascii.eqb c ">" then Some (Ascii.eqb prev "/") else closes_itself c s'
  end.

(** At the head of [s] stands a tag of the element [name] (lower-case)
    that is written the HTML way: closed by [>] without a slash.  The
    reading of the tag starts after the name, with a character that is
    not a slash behind it. *)
Definition html_flavoured_at (name : string) (s : string) : bool :=
  match s with
  | String c s1 =>
      Ascii.eqb c "<" &&
      match match_ci name s1 with
      | Some rest =>
          boundary rest &&
          match closes_itself "<" rest with
          | Some false => true
          | _ => false
          end
      | None => false
      end
  | EmptyString => false
  end.

(** Somewhere in [s] stands an HTML-flavoured tag of the element [name]. *)
Fixpoint has_html_flavoured (name : string) (s : string) : bool :=
  match s with
  | EmptyString => false
  | String _ s' => html_flavoured_at name s || has_html_flavoured name s'
  end.

(** Somewhere in [s] stands an HTML-flavoured tag of a void element. *)
Definition has_html_void_element (s : string) : bool :=
  existsb (fun name => has_html_flavoured name s) void_elements.

End SpecWords.

(* ===================================================================== *)
(** ** The App component: the split between editor and preview *)
(* ===================================================================== *)

Module Splitter.
Import JsString JsNumber App.

(** [String(Math.round(x))]: the decimal digits of the integer (what
    JavaScript prints below 10^21). *)
Definition String_of_round (x : Q) : string := pretty (Math_round x).

(** The initial value of the cell [leftPct]. *)
Definition initial_leftPct (B : Builtins) (localStorage : gmap string string) : Q :=
  match js_Number B (default "50" (localStorage !! "merViz.split.pct")) with
  | Some v => Math_min 80 (Math_max 20 v)
  | None => 50%Q
  end.

(** The pair of listeners [onMove] and [onUp] that one [onSplitterDown]
    puts on the window, with what they close over: the rectangle of the
    container, the variable [latest], and the [fitToViewport] of
    [computeFitScale]. *)
Record Drag := {
  rect_left : Q;
  rect_width : Q;
  latest : Q;
  drag_fit : bool
}.

Record Pane := {
  leftPct : Q;
  dragging : bool;
  listeners : list Drag;
  pane_app : AppState;
  pane_store : gmap string string
}.

(** [setLeftPct(pct)], with the effect that stores the rounded value when
    the cell changes. *)
Definition setLeftPct (pct : Q) (p : Pane) : Pane :=
  if Qeq_bool pct (leftPct p) then p
  else {| leftPct := pct; dragging := dragging p; listeners := listeners p;
          pane_app := pane_app p;
          pane_store := <["merViz.split.pct" := String_of_round pct]> (pane_store p) |}.

(** [onSplitterDown]; [rect] is the bounding rectangle (left, width) of
    the container behind [mainRef], when there is one. *)
Definition onSplitterDown (rect : option (Q * Q)) (p : Pane) : Pane :=
  match rect with
  | None =>
      {| leftPct := leftPct p; dragging := true; listeners := listeners p;
         pane_app := pane_app p; pane_store := pane_store p |}
  | Some (rleft, rwidth) =>
      {| leftPct := leftPct p; dragging := true;
         listeners := listeners p ++
           [{| rect_left := rleft; rect_width := rwidth; latest := leftPct p;
               drag_fit := fitToViewport (pane_app p) |}];
         pane_app := pane_app p; pane_store := pane_store p |}
  end.

(** The percentage [onMove] computes for a pointer at [clientX]. *)
Definition move_pct (d : Drag) (clientX : Q) : Q :=
  let x := (clientX - rect_left d)%Q in
  let pct := (x / rect_width d * 100)%Q in
  Math_max 20 (Math_min 80 pct).

(** One [onMove] listener runs. *)
Definition onMove (clientX : Q) (l : Layout) (d : Drag) (p : Pane) : Pane :=
  let pct := move_pct d clientX in
  let p := setLeftPct pct p in
  {| leftPct := leftPct p; dragging := dragging p; listeners := listeners p;
     pane_app := computeFitScale (drag_fit d) l (pane_app p);
     pane_store := pane_store p |}.

(** One [onUp] listener runs. *)
Definition onUp (d : Drag) (p : Pane) : Pane :=
  {| leftPct := leftPct p; dragging := false; listeners := listeners p;
     pane_app := pane_app p;
     pane_store := <["merViz.split.pct" := String_of_round (latest d)]> (pane_store p) |}.

Inductive pane_event :=
| PointerDown (rect : option (Q * Q))
| PointerMove (clientX : Q) (l : Layout)
| PointerUp.

(** A pointer event reaches every listener on the window, oldest first.
    A move also renews the [latest] of each; an up removes them all. *)
Definition pane_step (ev : pane_event) (p : Pane) : Pane :=
  match ev with
  | PointerDown rect => onSplitterDown rect p
  | PointerMove clientX l =>
      let p' := fold_left (fun p d => onMove clientX l d p) (listeners p) p in
      {| leftPct := leftPct p'; dragging := dragging p';
         listeners := map (fun d => {| rect_left := rect_left d; rect_width := rect_width d;
                                       latest := move_pct d clientX;
                                       drag_fit := drag_fit d |}) (listeners p);
         pane_app := pane_app p'; pane_store := pane_store p' |}
  | PointerUp =>
      let p' := fold_left (fun p d => onUp d p) (listeners p) p in
      {| leftPct := leftPct p'; dragging := dragging p'; listeners := [];
         pane_app := pane_app p'; pane_store := pane_store p' |}
  end.

(** The pane right after the first render: the cell holds its initial
    value and the effect has stored its rounding. *)
Definition pane_mount (B : Builtins) (ls : gmap string string) : Pane :=
  let pct := initial_leftPct B ls in
  {| leftPct := pct; dragging := false; listeners := [];
     pane_app := initial_state ls;
     pane_store := <["merViz.split.pct" := String_of_round pct]> ls |}.

(** A pointer goes down on a container that has a width. *)
Definition wide (ev : pane_event) : Prop :=
  match ev with
  | PointerDown (Some (_, width)) => (0 < width)%Q
  | _ => True
  end.

(** The states of the pane reached by dragging inside containers that
    have a width.  (With a width of zero the quotient of [onMove] is
    infinite or [NaN], which the numbers of the model do not have.) *)
Inductive pane_reachable (B : Builtins) : Pane -> Prop :=
| pane_reach_mount ls : pane_reachable B (pane_mount B ls)
| pane_reach_step p ev :
    pane_reachable B p -> wide ev -> pane_reachable B (pane_step ev p).

Definition split_key : string := "merViz.split.pct".

(** What every state of the pane keeps: the percentage is in range, the
    store holds its rounding, and the youngest listener, when there is
    one, has seen the current percentage and the pane is marked as
    dragging. *)
Definition pane_inv (p : Pane) : Prop :=
  (20 <= leftPct p <= 80)%Q /\
  pane_store p !! split_key = Some (String_of_round (leftPct p)) /\
  match last (listeners p) with
  | Some d => (latest d == leftPct p)%Q /\ dragging p = true
  | None => True
  end.

End Splitter.

(* ===================================================================== *)
(** ** More instances of the environment *)
(* ===================================================================== *)

Module MoreInstances.
Import JsString JsNumber MermaidClient ExportLib App Machine Instances.

(** An engine that accepts every source and then fails to draw it. *)
Definition failing_engine (e : js_thrown) : Engine :=
  {| mermaid_parse := fun _ _ => None;
     mermaid_render := fun _ _ _ => inl e |}.

End MoreInstances.

(* ===================================================================== *)
(** ** Predicates used to state further properties *)
(* ===================================================================== *)

Module Predicates.
Import JsString JsNumber MermaidClient ExportLib App Machine.

(** [s] holds a double quote. *)
Fixpoint has_dquote (s : string) : bool :=
  match s with
  | EmptyString => false
  | String c s' => Ascii.eqb c dquote || has_dquote s'
  end.

(** [localStorage] holds the text, the theme key, the auto-update flag and
    the font of the state [st]. *)
Definition stored (ls : gmap string string) (st : AppState) : Prop :=
  ls !! "merViz.diagram.v1" = Some (code st) /\
  ls !! "merViz.theme.v1" = Some (theme st) /\
  ls !! "merViz.autoupdate.v1" = Some (String_of_bool (autoUpdate st)) /\
  ls !! "merViz.font.v1" = Some (font st).

(** The state [st'] has the text, theme key, font and auto-update flag of
    [st]. *)
Definition same_settings (st st' : AppState) : Prop :=
  code st' = code st /\ theme st' = theme st /\
  font st' = font st /\ autoUpdate st' = autoUpdate st.

(** What holds of a pending timeout [tm] in the world [w]. *)
Definition pending_ok (w : World) (tm : Timer) : Prop :=
  autoUpdate (app w) = true /\
  due tm <= clock w + 250 /\
  timer_id tm < next_timer_id w /\
  c_code (callback tm) = code (app w) /\
  c_config (callback tm) = config (theme (app w)) (font (app w)).

Definition pending_inv (w : World) : Prop :=
  forall tm, In tm (timers w) -> pending_ok w tm.

(** The markup of every promise that resolved, pending or stored, is
    normalised. *)
Definition flight_closed (fl : list (outcome string * bool)) : Prop :=
  forall m fit, In (Resolved m, fit) fl -> br_tags_closed m = true.

(** Every vector file the page has offered holds normalised, non-empty
    markup under the fixed file name. *)
Definition svg_downloads_ok (ds : list Download) : Prop :=
  forall name content,
    In (SvgFile name content) ds ->
    name = "diagram.svg" /\ br_tags_closed content = true /\ populated content = true.

Definition normal_inv (w : World) : Prop :=
  br_tags_closed (svg (app w)) = true /\
  flight_closed (in_flight w) /\
  svg_downloads_ok (downloads w).

(** The zoom factor lies between 0.1 and 3. *)
Definition zoom_inv (st : AppState) : Prop :=
  (1 # 10 <= zoom st)%Q /\ (zoom st <= 3)%Q.

(** The white space of [s] is single spaces, none next to another, and
    none at the head when [prev_space] is set. *)
Fixpoint spaces_single (prev_space : bool) (s : string) : bool :=
  match s with
  | EmptyString => true
  | String c s' =>
      if is_space c
      then Ascii.eqb c " " && negb prev_space && spaces_single true s'
      else spaces_single false s'
  end.

(** The last character of [s] is white space. *)
Fixpoint ends_space (s : string) : bool :=
  match s with
  | EmptyString => false
  | String c EmptyString => is_space c
  | String _ s' => ends_space s'
  end.

End Predicates.

(* ===================================================================== *)
(** ** JavaScript numbers as IEEE 754 doubles *)
(* ===================================================================== *)

(** Where a claim depends on how the arithmetic rounds, the functions are
    embedded a second time with the arithmetic of the language: a number
    is a binary64 value, and sum, difference, product and quotient are the
    exact results rounded to the nearest binary64 value, a tie going to
    the even significand.  The two zeros are not told apart. *)
Module Binary64.
Import JsString JsNumber ExportLib.
Local Open Scope Q_scope.

Inductive number :=
| NaN
| NegInfinity
| Finite (x : Q)
| Infinity.

Definition pow2 (e : Z) : Q := 2 ^ e.

(** The integer part of the binary logarithm of a positive rational. *)
Definition ilog2 (x : Q) : Z :=
  let k := (Z.log2 (Qnum x) - Z.log2 (Zpos (Qden x)))%Z in
  if Qle_bool (pow2 k) x then k else (k - 1)%Z.

(** The nearest integer, a tie going to the even one. *)
Definition rne (x : Q) : Z :=
  let f := Qfloor x in
  match Qcompare (x - inject_Z f) (1 # 2) with
  | Lt => f
  | Gt => (f + 1)%Z
  | Eq => if Z.even f then f else (f + 1)%Z
  end.

(** The binary64 value nearest to [x], for [x] below the overflow
    threshold: a significand of 53 bits, and below 2^-1022 the fixed
    exponent of the subnormal numbers. *)
Definition b64_finite (x : Q) : Q :=
  let x := Qred x in
  if Qeq_bool x 0 then 0
  else
    let e := Z.max (-1074) (ilog2 (Qabs x) - 52) in
    Qred (inject_Z (rne (x / pow2 e)) * pow2 e).

(** From here on rounding gives an infinity: the largest binary64 value
    plus half a unit in its last place. *)
Definition overflow_threshold : Q := 2 ^ 1024 - 2 ^ 970.

Definition b64 (x : Q) : number :=
  if Qle_bool overflow_threshold (Qabs x)
  then (if Qle_bool 0 x then Infinity else NegInfinity)
  else Finite (b64_finite x).

(** A decimal literal of the source, such as [0.1]. *)
Definition literal (x : Q) : Q := b64_finite x.

(** [x / y] for finite [x] and [y]. *)
Definition fdiv (x y : Q) : number :=
  if Qeq_bool y 0
  then (if Qeq_bool x 0 then NaN else if Qle_bool 0 x then Infinity else NegInfinity)
  else b64 (x / y).

(** [x * n] for a finite [x]. *)
Definition fmul (x : Q) (n : number) : number :=
  match n with
  | NaN => NaN
  | Finite y => b64 (x * y)
  | Infinity =>
      if Qeq_bool x 0 then NaN else if Qle_bool 0 x then Infinity else NegInfinity
  | NegInfinity =>
      if Qeq_bool x 0 then NaN else if Qle_bool 0 x then NegInfinity else Infinity
  end.

(** [n + y] and [n - y] for a finite [y]. *)
Definition fadd (n : number) (y : Q) : number :=
  match n with
  | Finite x => b64 (x + y)
  | _ => n
  end.

Definition fsub (n : number) (y : Q) : number :=
  match n with
  | Finite x => b64 (x - y)
  | _ => n
  end.

(** [Math.max(x, n)] and [Math.min(x, n)] for a finite [x]. *)
Definition Math_max (x : Q) (n : number) : number :=
  match n with
  | NaN => NaN
  | NegInfinity => Finite x
  | Finite y => Finite (Qmax x y)
  | Infinity => Infinity
  end.

Definition Math_min (x : Q) (n : number) : number :=
  match n with
  | NaN => NaN
  | NegInfinity => NegInfinity
  | Finite y => Finite (Qmin x y)
  | Infinity => Finite x
  end.

(** [Math.round(n)]. *)
Definition Math_round (n : number) : number :=
  match n with
  | Finite x => Finite (inject_Z (JsNumber.Math_round x))
  | _ => n
  end.

(** [+n.toFixed(2)]: the decimal digits [toFixed] prints, read back as a
    number. *)
Definition toFixed2 (n : number) : number :=
  match n with
  | Finite x => b64 (JsNumber.toFixed2 x)
  | _ => n
  end.

(** *** src/lib/export.ts *)

Record PngPlan := {
  plan_markup : string;
  plan_scale : number;
  plan_width : number;
  plan_height : number
}.

(** [downloadPng] up to the allocation of the canvas; [scale] is [None]
    when the caller passes no scale (or [undefined] or [null]). *)
Definition downloadPng (B : Builtins) (svg : string) (scale : option number) : PngPlan :=
  let sanitized := sanitizeSvg svg in
  let sz := match parseSvgSize B sanitized with
            | Some sz => sz
            | None => {| width := 800; height := 600 |}
            end in
  let baseLongest := Qmax (width sz) (height sz) in
  let minScale := 3 in
  let targetLongest := 2000 in
  let computedScale := match scale with
                       | Some s => s
                       | None => Math_max minScale (fdiv targetLongest baseLongest)
                       end in
  let computedScale := Math_max (1 # 2) (Math_min 8 computedScale) in
  {| plan_markup := sanitized;
     plan_scale := computedScale;
     plan_width := Math_round (fmul (width sz) computedScale);
     plan_height := Math_round (fmul (height sz) computedScale) |}.

(** *** The App component: the zoom steps *)

(** The updaters [zoomIn] and [zoomOut] hand to [setZoom]. *)
Definition zoomIn (z : number) : number :=
  Math_min 3 (toFixed2 (fadd z (literal (1 # 10)))).

Definition zoomOut (z : number) : number :=
  Math_max (literal (2 # 10)) (toFixed2 (fsub z (literal (1 # 10)))).

(** [Number] and [parseFloat] on decimal numerals without exponent: the
    binary64 value nearest to the numeral. *)
Definition to_double (r : option Q) : option Q :=
  match r with
  | Some x => match b64 x with Finite d => Some d | _ => None end
  | None => None
  end.

Definition double_builtins : Builtins :=
  {| js_Number := fun s => to_double (js_Number Instances.decimal_builtins s);
     js_parseFloat := fun s => to_double (js_parseFloat Instances.decimal_builtins s) |}.

(** A number that is not negative: a finite one, or the positive
    infinity. *)
Definition not_negative (n : number) : Prop :=
  match n with
  | Finite x => 0 <= x
  | Infinity => True
  | _ => False
  end.

(** Strict equality of two rationals as fractions. *)
Definition same_fraction (x y : Q) : bool :=
  (Qnum x =? Qnum y)%Z && (Qden x =? Qden y)%positive.

Definition same_number (m n : number) : bool :=
  match m, n with
  | NaN, NaN | NegInfinity, NegInfinity | Infinity, Infinity => true
  | Finite x, Finite y => same_fraction x y
  | _, _ => false
  end.

(** From the binary64 value next to [k/100], a zoom-in step gives the one
    next to [min(300, k + 10)/100] and a zoom-out step the one next to
    [max(20, k - 10)/100]. *)
Definition steps_agree (k : Z) : bool :=
  same_number (zoomIn (Finite (literal (k # 100))))
              (Finite (literal (Z.min 300 (k + 10) # 100))) &&
  same_number (zoomOut (Finite (literal (k # 100))))
              (Finite (literal (Z.max 20 (k - 10) # 100))).

End Binary64.

(* ===================================================================== *)
(** ** The App component: locating a label, on strings of 16-bit code units *)
(* ===================================================================== *)

(** A string of the language in full: a sequence of UTF-16 code units.
    [String.prototype.toLowerCase] is a built-in that follows the Unicode
    case mappings, under which a lower-cased text can be longer than the
    text (U+0130 becomes U+0069 U+0307); [focusEditorAtText] takes it as
    a parameter. *)
Module Utf16.
Import App.

Definition str := list N.

(** The code units of a text of characters below U+0100. *)
Fixpoint units (s : string) : str :=
  match s with
  | EmptyString => []
  | String c s' => N_of_ascii c :: units s'
  end.

(** [\s], and what [trim] strips: the white space and the line
    terminators of the language. *)
Definition is_space (c : N) : bool :=
  ((9 <=? c) && (c <=? 13) || (c =? 32) || (c =? 160) || (c =? 5760)
   || (8192 <=? c) && (c <=? 8202) || (c =? 8232) || (c =? 8233)
   || (c =? 8239) || (c =? 8287) || (c =? 12288) || (c =? 65279))%N.

(** [s.replace(/\s+/g, ' ')]; [in_run] tells that the unit before the
    head of [s] belongs to the match being replaced. *)
Fixpoint collapse (in_run : bool) (s : str) : str :=
  match s with
  | [] => []
  | c :: s' =>
      if is_space c
      then (if in_run then collapse true s' else 32%N :: collapse true s')
      else c :: collapse false s'
  end.

Fixpoint trim_start (s : str) : str :=
  match s with
  | [] => []
  | c :: s' => if is_space c then trim_start s' else s
  end.

Fixpoint trim_end (s : str) : str :=
  match s with
  | [] => []
  | c :: s' =>
      match trim_end s' with
      | [] => if is_space c then [] else [c]
      | t => c :: t
      end
  end.

Definition trim (s : str) : str := trim_end (trim_start s).

Fixpoint starts_with (q s : str) : bool :=
  match q, s with
  | [], _ => true
  | _ :: _, [] => false
  | a :: q', b :: s' => (a =? b)%N && starts_with q' s'
  end.

(** [s.indexOf(q)]: [None] stands for -1. *)
Fixpoint indexOf (s q : str) : option nat :=
  if starts_with q s then Some 0
  else match s with
       | [] => None
       | _ :: s' => option_map S (indexOf s' q)
       end.

(** [s.substring(i, e)] for [i <= e]. *)
Definition substring (i e : nat) (s : str) : str := take (e - i) (drop i s).

(** [focusEditorAtText], [ed] being [editorRef.current]. *)
Definition focusEditorAtText (toLowerCase : str -> str) (code : str)
           (ed : option Editor) (raw : option str) : option Editor :=
  match raw with
  | None | Some [] => ed
  | Some raw =>
      let q := trim (collapse false raw) in
      match q with
      | [] => ed
      | _ =>
          let idx := indexOf code q in
          let idx := match idx with
                     | Some i => Some i
                     | None =>
                         let lowerCode := toLowerCase code in
                         indexOf lowerCode (toLowerCase q)
                     end in
          match idx, ed with
          | Some idx, Some _ =>
              let e := idx + length q in
              Some {| focused := true; selection := Some (idx, e) |}
          | _, _ => ed
          end
      end
  end.

(** The lower case of one code unit, for the units below U+0100 and for
    U+0130, the one unit whose lower case takes two units. *)
Definition lower_unit (c : N) : str :=
  if ((65 <=? c) && (c <=? 90) || (192 <=? c) && (c <=? 214)
      || (216 <=? c) && (c <=? 222))%N
  then [(c + 32)%N]
  else if (c =? 304)%N then [105%N; 775%N]
  else [c].

(** [toLowerCase] on texts made of those units. *)
Definition latin_toLowerCase (s : str) : str := flat_map lower_unit s.

End Utf16.

(* ===================================================================== *)
(** * Properties *)
(* ===================================================================== *)

(** ** The normalisation of line-break tags *)

Module SanitizeProofs.
Import JsString ExportLib.

Example sanitize_ex1 : sanitizeSvg "<text>a<br>b<BR class='x'>c<br/>d<brx></text>" = "<text>a<br/>b<br/>c<br/>d<brx></text>".
Proof. vm_compute. reflexivity. Qed.
Example sanitize_ex2 : sanitizeSvg "<br foo<br>x<br" = "<br/>x<br".
Proof. vm_compute. reflexivity. Qed.

Lemma upto_gt_pos s n : upto_gt s = Some n -> exists k, n = S k.
Proof.
  destruct s as [|c s]; simpl; [discriminate|].
  destruct (Ascii.eqb c ">"); [intros [= <-]; eauto|].
  destruct (upto_gt s); simpl; [intros [= <-]; eauto|discriminate].
Qed.

Lemma match_br_lt s : match_br s = Some 0 -> False.
Proof.
  destruct s as [|c0 [|c1 [|c2 rest]]]; simpl; try discriminate.
  destruct (_ && _); [|discriminate].
  destruct (upto_gt rest); simpl; discriminate.
Qed.

Lemma match_br_eq c0 c1 c2 rest :
  match_br (String c0 (String c1 (String c2 rest))) =
  if Ascii.eqb c0 "<" && ci_eq c1 "b" && ci_eq c2 "r" && boundary rest
  then option_map (fun n => 3 + n) (upto_gt rest) else None.
Proof. reflexivity. Qed.

Lemma match_br_head c s n : match_br (String c s) = Some n -> c = "<"%char.
Proof.
  destruct s as [|c1 [|c2 rest]]; simpl; try discriminate.
  destruct (Ascii.eqb_spec c "<"); simpl; [auto|discriminate].
Qed.

Lemma upto_gt_cons c s :
  upto_gt (String c s) <> None <-> c = ">"%char \/ upto_gt s <> None.
Proof.
  simpl. destruct (Ascii.eqb_spec c ">") as [->|Hc].
  - split; [auto|discriminate].
  - destruct (upto_gt s); simpl; split; intros H; try discriminate; auto;
      destruct H; congruence.
Qed.

Lemma match_br_gt s n : match_br s = Some n -> upto_gt s <> None.
Proof.
  destruct s as [|c0 [|c1 [|c2 rest]]]; simpl; try discriminate.
  destruct (_ && _); [|discriminate].
  intros H. change (upto_gt (String c0 (String c1 (String c2 rest))) <> None).
  rewrite !upto_gt_cons. right; right; right.
  destruct (upto_gt rest); [discriminate|discriminate].
Qed.

(** The replacement never creates a [>]. *)
Lemma replace_upto_gt s : forall skip,
  upto_gt (replace_all match_br "<br/>" skip s) <> None -> upto_gt s <> None.
Proof.
  induction s as [|c s IH]; intros skip; [simpl; auto|].
  destruct skip as [|k].
  - cbn [replace_all].
    destruct (match_br (String c s)) as [[|k]|] eqn:E.
    + exfalso; eapply match_br_lt; eauto.
    + intros _. eapply match_br_gt; eauto.
    + rewrite !upto_gt_cons. intros [?|H]; [auto|]. right. eapply IH; eauto.
  - cbn [replace_all]. rewrite upto_gt_cons. intros H. right. eapply IH; eauto.
Qed.

Lemma replace_boundary s :
  boundary (replace_all match_br "<br/>" 0 s) = true -> boundary s = true.
Proof.
  destruct s as [|c s]; [auto|]. cbn [replace_all].
  destruct (match_br (String c s)) as [[|k]|] eqn:E; auto.
  intros _. apply match_br_head in E. subst c. reflexivity.
Qed.

Lemma replace_step c s :
  match_br (String c s) = None ->
  replace_all match_br "<br/>" 0 (String c s) = String c (replace_all match_br "<br/>" 0 s).
Proof. intros E. simpl. simpl in E. rewrite E. reflexivity. Qed.


(** A character that is not matched stays unmatched in front of the
    rewritten rest. *)
Lemma unmatched_stays c s :
  match_br (String c s) = None ->
  match_br (String c (replace_all match_br "<br/>" 0 s)) = None.
Proof.
  intros E.
  destruct (match_br (String c (replace_all match_br "<br/>" 0 s))) as [n|] eqn:M; [|reflexivity].
  exfalso.
  destruct s as [|c1 s1]; [discriminate M|].
  cbn [replace_all] in M.
  destruct (match_br (String c1 s1)) as [[|k1]|] eqn:E1.
  - eapply match_br_lt; eauto.
  - simpl in M. rewrite !andb_false_r in M. discriminate.
  - destruct s1 as [|c2 s2]; [discriminate M|].
    cbn [replace_all] in M.
    destruct (match_br (String c2 s2)) as [[|k2]|] eqn:E2.
    + eapply match_br_lt; eauto.
    + simpl in M. rewrite !andb_false_r in M. simpl in M. discriminate.
    + rewrite match_br_eq in M, E.
      destruct (Ascii.eqb c "<" && ci_eq c1 "b" && ci_eq c2 "r"); [|discriminate M].
      rewrite andb_true_l in M, E.
      destruct (boundary (replace_all match_br "<br/>" 0 s2)) eqn:B; [|discriminate M].
      apply replace_boundary in B. rewrite B in E.
      assert (G : upto_gt s2 <> None).
      { apply (replace_upto_gt s2 0).
        destruct (upto_gt (replace_all match_br "<br/>" 0 s2)); discriminate. }
      destruct (upto_gt s2); [cbn in E; discriminate E|contradiction].
Qed.

Lemma match_br_other c s : c <> "<"%char -> match_br (String c s) = None.
Proof.
  intros Hc. destruct (match_br (String c s)) eqn:E; [|reflexivity].
  apply match_br_head in E. contradiction.
Qed.

Lemma closed_after_tag r :
  br_tags_closed r = true -> br_tags_closed ("<br/>" ++ r) = true.
Proof.
  intros H.
  change ("<br/>" ++ r)
    with (String "<" (String "b" (String "r" (String "/" (String ">" r))))).
  cbn [br_tags_closed].
  rewrite (match_br_other "b"), (match_br_other "r"), (match_br_other "/"),
    (match_br_other ">") by discriminate.
  replace (match_br (String "<" (String "b" (String "r" (String "/" (String ">" r))))))
    with (Some 5) by reflexivity.
  rewrite H. simpl. destruct r; reflexivity.
Qed.

Lemma replace_br_closed s : forall skip,
  br_tags_closed (replace_all match_br "<br/>" skip s) = true.
Proof.
  induction s as [|c s IH]; intros skip; [reflexivity|].
  destruct skip as [|k]; cbn [replace_all]; [|apply IH].
  destruct (match_br (String c s)) as [[|k]|] eqn:E.
  - exfalso; eapply match_br_lt; eauto.
  - apply closed_after_tag, IH.
  - cbn [br_tags_closed]. rewrite unmatched_stays by assumption.
    rewrite IH. reflexivity.
Qed.

Theorem sanitizeSvg_br_closed xml : br_tags_closed (sanitizeSvg xml) = true.
Proof. apply replace_br_closed. Qed.

Lemma prefix_br_inv s :
  String.prefix "<br/>" s = true -> exists r, s = "<br/>" ++ r.
Proof.
  intros H. apply prefix_correct in H.
  destruct s as [|c0 [|c1 [|c2 [|c3 [|c4 r]]]]]; try discriminate H.
  simpl in H. exists r. injection H as -> -> -> -> -> _. reflexivity.
Qed.

Lemma closed_tail c s : br_tags_closed (String c s) = true -> br_tags_closed s = true.
Proof. cbn [br_tags_closed]. intros H. apply andb_true_iff in H. tauto. Qed.

Lemma closed_fixed n : forall s,
  String.length s <= n -> br_tags_closed s = true ->
  replace_all match_br "<br/>" 0 s = s.
Proof.
  induction n as [|n IH]; intros [|c s] Hn Hc; try reflexivity; simpl in Hn; [lia|].
  cbn [replace_all].
  destruct (match_br (String c s)) as [[|k]|] eqn:E.
  - f_equal. apply IH; [lia|eapply closed_tail; eauto].
  - cbn [br_tags_closed] in Hc. rewrite E in Hc.
    apply andb_true_iff in Hc. destruct Hc as [Hp Hc].
    destruct (prefix_br_inv _ Hp) as [r Hr].
    change ("<br/>" ++ r)
      with (String "<" (String "b" (String "r" (String "/" (String ">" r))))) in Hr.
    injection Hr as -> ->.
    replace (match_br (String "<" (String "b" (String "r" (String "/" (String ">" r))))))
      with (Some 5) in E by reflexivity.
    injection E as <-. cbn [replace_all].
    do 4 apply closed_tail in Hc.
    rewrite IH; [reflexivity|simpl in Hn; lia|assumption].
  - f_equal. apply IH; [lia|eapply closed_tail; eauto].
Qed.

Theorem sanitizeSvg_idempotent xml : sanitizeSvg (sanitizeSvg xml) = sanitizeSvg xml.
Proof.
  unfold sanitizeSvg at 1.
  apply (closed_fixed (String.length (sanitizeSvg xml))); [lia|].
  apply sanitizeSvg_br_closed.
Qed.

End SanitizeProofs.

(** ** The renderer adapter *)

Module AdapterProofs.
Import JsString JsNumber ExportLib MermaidClient App Instances SpecWords SanitizeProofs.

Lemma closes_itself_upto prev s b : closes_itself prev s = Some b -> upto_gt s <> None.
Proof.
  revert prev. induction s as [|c s IH]; intros prev; simpl; [discriminate|].
  destruct (Ascii.eqb c ">"); [discriminate|].
  intros H. apply IH in H. destruct (upto_gt s); [discriminate|contradiction].
Qed.

(** A line-break tag written the HTML way is a match of the pattern that
    does not carry the self-closing tag. *)
Lemma html_br_is_match s :
  html_flavoured_at "br" s = true ->
  match_br s <> None /\ String.prefix "<br/>" s = false.
Proof.
  intros H. destruct s as [|c0 s1]; [discriminate H|].
  unfold html_flavoured_at in H. apply andb_true_iff in H. destruct H as [H0 H].
  destruct s1 as [|c1 s2]; [discriminate H|]. cbn [match_ci] in H.
  destruct (ci_eq c1 "b") eqn:E1; [|discriminate H].
  destruct s2 as [|c2 rest]; [discriminate H|]. cbn [match_ci] in H.
  destruct (ci_eq c2 "r") eqn:E2; [|discriminate H].
  apply andb_true_iff in H. destruct H as [Hb H].
  destruct (closes_itself "<" rest) as [[|]|] eqn:C; try discriminate H.
  rewrite match_br_eq, H0, E1, E2, Hb. cbn [andb]. split.
  - apply closes_itself_upto in C. destruct (upto_gt rest); [discriminate|contradiction].
  - destruct (String.prefix "<br/>" (String c0 (String c1 (String c2 rest)))) eqn:P;
      [|reflexivity].
    apply prefix_br_inv in P. destruct P as [r Hr].
    change ("<br/>" ++ r)
      with (String "<" (String "b" (String "r" (String "/" (String ">" r))))) in Hr.
    injection Hr as _ _ _ ->. simpl in C. discriminate C.
Qed.

Lemma closed_no_html_br s :
  br_tags_closed s = true -> has_html_flavoured "br" s = false.
Proof.
  induction s as [|c s IH]; [reflexivity|].
  intros H. cbn [has_html_flavoured].
  rewrite IH by (eapply closed_tail; eauto). rewrite orb_false_r.
  destruct (html_flavoured_at "br" (String c s)) eqn:F; [|reflexivity].
  apply html_br_is_match in F. destruct F as [F1 F2].
  cbn [br_tags_closed] in H. apply andb_true_iff in H. destruct H as [H _].
  destruct (match_br (String c s)); [congruence|contradiction].
Qed.

Lemma sanitizeSvg_no_html_br xml : has_html_flavoured "br" (sanitizeSvg xml) = false.
Proof. apply closed_no_html_br, sanitizeSvg_br_closed. Qed.

Lemma renderMermaid_rejects E rnd code cfg ad e :
  mermaid_parse E (Some (settings_of cfg)) code = Some e ->
  renderMermaid E rnd code cfg ad =
    (Rejected (ThrownError (match message_of e with
                            | Some (String c m) => String c m
                            | _ => "Mermaid parse error"
                            end)),
     {| initialized := true;
        engine_settings := Some (settings_of cfg);
        calls := calls ad ++ prelude cfg ad ++ [CallParse code] |}).
Proof.
  intros Hp. unfold renderMermaid, prelude, bind, init, bind, try_catch, await_parse,
    mermaid_initialize, bind, log, get_initialized, set_initialized, ret, throw.
  destruct ad as [[|] st cs]; cbn; rewrite Hp; cbn;
    rewrite <- ?app_assoc; reflexivity.
Qed.

Lemma renderMermaid_resolves E rnd code cfg ad m0 :
  mermaid_parse E (Some (settings_of cfg)) code = None ->
  mermaid_render E (Some (settings_of cfg)) ("merviz-" ++ rnd) code = inr m0 ->
  renderMermaid E rnd code cfg ad =
    (Resolved (sanitizeSvg m0),
     {| initialized := true;
        engine_settings := Some (settings_of cfg);
        calls := calls ad ++ prelude cfg ad
                   ++ [CallParse code; CallRender ("merviz-" ++ rnd) code] |}).
Proof.
  intros Hp Hr. unfold renderMermaid, prelude, bind, init, bind, try_catch, await_parse,
    await_render, mermaid_initialize, bind, log, get_initialized, set_initialized, ret, throw.
  destruct ad as [[|] st cs]; cbn; rewrite Hp; cbn; rewrite Hr; cbn;
    rewrite <- ?app_assoc; reflexivity.
Qed.

(** C1, as amended.  When the source passes validation and the engine
    draws markup for it, [renderMermaid] resolves with that markup
    normalised: every line-break tag in it is the self-closing [<br/>], so
    none is written the HTML way.  The vector export and the raster export
    both hand on the markup normalised by the same function, which leaves
    the markup of [renderMermaid] as it is.  Void elements other than the
    line break are not rewritten, and nothing is claimed about the
    well-formedness of what the engine draws. *)
Theorem C1_render_normalises_br
        (E : Engine) (B : Builtins) (rnd code : string) (cfg : MermaidConfig)
        (ad : Adapter) (m0 : string) (scale : option Q) :
  mermaid_parse E (Some (settings_of cfg)) code = None ->
  mermaid_render E (Some (settings_of cfg)) ("merviz-" ++ rnd) code = inr m0 ->
  exists m,
    fst (renderMermaid E rnd code cfg ad) = Resolved m /\
    m = sanitizeSvg m0 /\
    br_tags_closed m = true /\
    has_html_flavoured "br" m = false /\
    downloadSvg_content m = m /\
    png_markup (downloadPng B m scale) = m /\
    (forall svg, png_markup (downloadPng B svg scale) = downloadSvg_content svg /\
                 has_html_flavoured "br" (downloadSvg_content svg) = false).
Proof.
  intros Hp Hr. exists (sanitizeSvg m0).
  rewrite (renderMermaid_resolves _ _ _ _ _ _ Hp Hr).
  repeat split.
  - apply sanitizeSvg_br_closed.
  - apply sanitizeSvg_no_html_br.
  - apply sanitizeSvg_idempotent.
  - apply sanitizeSvg_idempotent.
  - apply sanitizeSvg_no_html_br.
Qed.

Lemma C1_render_normalises_br_witness :
  exists m,
    fst (renderMermaid (drawing_engine "<svg><text>a<br>b<BR class='x'>c</text></svg>")
           "k3x9" DEFAULT_CODE (config "default" DEFAULT_FONT) fresh_adapter)
      = Resolved m /\
    m = sanitizeSvg "<svg><text>a<br>b<BR class='x'>c</text></svg>" /\
    br_tags_closed m = true /\
    has_html_flavoured "br" m = false /\
    downloadSvg_content m = m /\
    png_markup (downloadPng decimal_builtins m None) = m /\
    (forall svg, png_markup (downloadPng decimal_builtins svg None) = downloadSvg_content svg /\
                 has_html_flavoured "br" (downloadSvg_content svg) = false).
Proof.
  apply (C1_render_normalises_br
           (drawing_engine "<svg><text>a<br>b<BR class='x'>c</text></svg>")
           decimal_builtins "k3x9" DEFAULT_CODE (config "default" DEFAULT_FONT)
           fresh_adapter "<svg><text>a<br>b<BR class='x'>c</text></svg>" None);
    reflexivity.
Defined.

(** C1 as it is worded fails: an engine that draws a void element other
    than the line break the HTML way gets it through [renderMermaid]
    unchanged, for a source that passes validation. *)
Lemma C1_counterexample :
  mermaid_parse (drawing_engine "<svg><hr></svg>")
    (Some (settings_of (config "default" DEFAULT_FONT))) DEFAULT_CODE = None /\
  fst (renderMermaid (drawing_engine "<svg><hr></svg>") "k3x9" DEFAULT_CODE
         (config "default" DEFAULT_FONT) fresh_adapter) = Resolved "<svg><hr></svg>" /\
  has_html_void_element "<svg><hr></svg>" = true.
Proof. repeat split; vm_compute; reflexivity. Qed.

(** C2.  When the engine's validation rejects the source with [e],
    [renderMermaid] rejects with an [Error] whose message is the message
    of [e] when it has a non-empty one and the fixed text otherwise; the
    calls it has made to the engine are the configuration calls and the
    validation call, and no render call. *)
Theorem C2_invalid_source_rejected
        (E : Engine) (rnd code : string) (cfg : MermaidConfig) (ad : Adapter)
        (e : js_thrown) :
  mermaid_parse E (Some (settings_of cfg)) code = Some e ->
  exists (msg : string) (added : list EngineCall),
    fst (renderMermaid E rnd code cfg ad) = Rejected (ThrownError msg) /\
    (forall m, message_of e = Some m -> m <> EmptyString -> msg = m) /\
    (message_of e = None \/ message_of e = Some EmptyString ->
     msg = "Mermaid parse error") /\
    calls (snd (renderMermaid E rnd code cfg ad)) = (calls ad ++ added)%list /\
    added = (prelude cfg ad ++ [CallParse code])%list /\
    (forall id c, ~ In (CallRender id c) added).
Proof.
  intros Hp. rewrite (renderMermaid_rejects _ _ _ _ _ _ Hp).
  eexists. exists (prelude cfg ad ++ [CallParse code])%list. cbn [fst snd calls].
  split; [reflexivity|]. split; [|split; [|split; [reflexivity|split; [reflexivity|]]]].
  - intros m Hm Hne. rewrite Hm. destruct m; [contradiction|reflexivity].
  - intros [Hm|Hm]; rewrite Hm; reflexivity.
  - intros id c Hin. unfold prelude in Hin.
    destruct (initialized ad); cbn in Hin; intuition discriminate.
Qed.

Lemma C2_invalid_source_rejected_witness :
  exists (msg : string) (added : list EngineCall),
    fst (renderMermaid (rejecting_engine (ThrownError "Parse error on line 2"))
           "k3x9" "flowchart TD; A[" (config "default" DEFAULT_FONT) fresh_adapter)
      = Rejected (ThrownError msg) /\
    (forall m, message_of (ThrownError "Parse error on line 2") = Some m ->
               m <> EmptyString -> msg = m) /\
    (message_of (ThrownError "Parse error on line 2") = None \/
     message_of (ThrownError "Parse error on line 2") = Some EmptyString ->
     msg = "Mermaid parse error") /\
    calls (snd (renderMermaid (rejecting_engine (ThrownError "Parse error on line 2"))
           "k3x9" "flowchart TD; A[" (config "default" DEFAULT_FONT) fresh_adapter))
      = (calls fresh_adapter ++ added)%list /\
    added = (prelude (config "default" DEFAULT_FONT) fresh_adapter
              ++ [CallParse "flowchart TD; A["])%list /\
    (forall id c, ~ In (CallRender id c) added).
Proof.
  apply (C2_invalid_source_rejected
           (rejecting_engine (ThrownError "Parse error on line 2"))
           "k3x9" "flowchart TD; A[" (config "default" DEFAULT_FONT) fresh_adapter
           (ThrownError "Parse error on line 2")).
  reflexivity.
Defined.

Example rejected_message :
  fst (renderMermaid (rejecting_engine (ThrownError "Parse error on line 2"))
         "k3x9" "flowchart TD; A[" (config "default" DEFAULT_FONT) fresh_adapter)
  = Rejected (ThrownError "Parse error on line 2").
Proof. vm_compute. reflexivity. Qed.

Example rejected_fallback :
  fst (renderMermaid (rejecting_engine ThrownUndefined)
         "k3x9" "flowchart TD; A[" (config "default" DEFAULT_FONT) fresh_adapter)
  = Rejected (ThrownError "Mermaid parse error").
Proof. vm_compute. reflexivity. Qed.

End AdapterProofs.

(** ** Numbers: clamping, rounding *)

Module NumberProofs.
Import JsNumber SpecWords.
Local Open Scope Q_scope.

(** Replaces every [Qmax] and [Qmin] of the goal by a variable that comes
    with its defining cases, then leaves the rest to linear arithmetic. *)
Ltac minmax_cases :=
  unfold Math_max, Math_min in *;
  repeat match goal with
    | |- context [Qmax ?a ?b] =>
        let m := fresh "m" in
        generalize (Q.max_spec a b); generalize (Qmax a b); intros m
    | |- context [Qmin ?a ?b] =>
        let m := fresh "m" in
        generalize (Q.min_spec a b); generalize (Qmin a b); intros m
    end;
  intros;
  repeat match goal with
    | H : _ \/ _ |- _ => destruct H
    | H : _ /\ _ |- _ => destruct H
    end;
  lra.

Lemma Qltb_lt x y : Qltb x y = true <-> x < y.
Proof.
  unfold Qltb. rewrite negb_true_iff. split.
  - intros H. apply Qnot_le_lt. intros L. apply Qle_bool_iff in L. congruence.
  - intros H. destruct (Qle_bool y x) eqn:E; [|reflexivity].
    apply Qle_bool_iff in E. lra.
Qed.

Lemma Qltb_ge x y : Qltb x y = false <-> y <= x.
Proof.
  unfold Qltb. rewrite negb_false_iff. apply Qle_bool_iff.
Qed.

(** [Math.max(lo, Math.min(hi, x))] is the clamp of the specification. *)
Lemma max_min_clamp lo hi x :
  lo <= hi -> Math_max lo (Math_min hi x) == clamp lo hi x.
Proof.
  intros Hlh. unfold clamp.
  destruct (Qltb x lo) eqn:E1; [apply Qltb_lt in E1|apply Qltb_ge in E1].
  - minmax_cases.
  - destruct (Qltb hi x) eqn:E2; [apply Qltb_lt in E2|apply Qltb_ge in E2];
      minmax_cases.
Qed.

Lemma clamp_bounds lo hi x : lo <= hi -> lo <= clamp lo hi x <= hi.
Proof.
  intros H. unfold clamp.
  destruct (Qltb x lo) eqn:E1; [lra|apply Qltb_ge in E1].
  destruct (Qltb hi x) eqn:E2; [lra|apply Qltb_ge in E2]. lra.
Qed.

Lemma clamp_mono lo hi x y : lo <= hi -> x <= y -> clamp lo hi x <= clamp lo hi y.
Proof.
  intros H Hxy. rewrite <- !max_min_clamp by assumption. minmax_cases.
Qed.

Global Instance clamp_proper : Proper (Qeq ==> Qeq ==> Qeq ==> Qeq) clamp.
Proof.
  intros lo lo' Hlo hi hi' Hhi x x' Hx. unfold clamp, Qltb.
  rewrite (Qleb_comp _ _ Hlo _ _ Hx), (Qleb_comp _ _ Hx _ _ Hhi).
  destruct (Qle_bool lo' x'); simpl; [|assumption].
  destruct (Qle_bool x' hi'); simpl; assumption.
Qed.

Lemma div_le_compat x y w : 0 < w -> x <= y -> x / w <= y / w.
Proof.
  intros Hw Hxy. unfold Qdiv. apply Qmult_le_compat_r; [assumption|].
  apply Qlt_le_weak, Qinv_lt_0_compat, Hw.
Qed.

Lemma div_sign_nonneg x w : 0 < w -> 0 <= x -> 0 <= x / w.
Proof.
  intros Hw Hx. unfold Qdiv. apply Qmult_le_0_compat; [assumption|].
  apply Qlt_le_weak, Qinv_lt_0_compat, Hw.
Qed.

Lemma div_sign_neg x w : 0 < w -> x < 0 -> x / w < 0.
Proof.
  intros Hw Hx. unfold Qdiv.
  assert (Hi : 0 < / w) by (apply Qinv_lt_0_compat, Hw).
  assert (H : x * / w < 0 * / w) by (apply Qmult_lt_compat_r; assumption).
  revert H. generalize (/ w). intros i H. lra.
Qed.

(** [Math.round] gives an integer nearest to its argument. *)
Lemma Math_round_nearest x :
  x - (1 # 2) < inject_Z (Math_round x) <= x + (1 # 2).
Proof.
  unfold Math_round.
  pose proof (Qfloor_le (x + (1 # 2))) as H1.
  pose proof (Qlt_floor (x + (1 # 2))) as H2.
  rewrite inject_Z_plus in H2. change (inject_Z 1) with 1 in H2. lra.
Qed.

Lemma Math_round_Z (z : Z) : Math_round (inject_Z z) = z.
Proof.
  unfold Math_round.
  pose proof (Qfloor_le (inject_Z z + (1 # 2))) as H1.
  pose proof (Qlt_floor (inject_Z z + (1 # 2))) as H2.
  set (f := Qfloor (inject_Z z + (1 # 2))) in *.
  rewrite inject_Z_plus in H2. change (inject_Z 1) with 1 in H2.
  assert (inject_Z f <= inject_Z z + (1#2)) by lra.
  assert (A : inject_Z f < inject_Z (z + 1)) by (rewrite inject_Z_plus; change (inject_Z 1) with 1; lra).
  assert (B : inject_Z z < inject_Z (f + 1)) by (rewrite inject_Z_plus; change (inject_Z 1) with 1; lra).
  rewrite <- Zlt_Qlt in A, B. lia.
Qed.

Global Instance Math_round_proper : Proper (Qeq ==> eq) Math_round.
Proof. intros x y H. unfold Math_round. apply Qfloor_comp. rewrite H. reflexivity. Qed.

Lemma Qmake_hundredth (f : Z) : f # 100 == inject_Z f * (1 # 100).
Proof. unfold Qeq, inject_Z, Qmult. simpl. lia. Qed.

Lemma hundredth_times (n : Z) : (n # 100) * 100 == inject_Z n.
Proof. unfold Qeq, inject_Z, Qmult. simpl. lia. Qed.

(** [toFixed(2)] leaves a multiple of 1/100 as it is. *)
Lemma toFixed2_hundredth (n : Z) : toFixed2 (n # 100) == n # 100.
Proof.
  unfold toFixed2.
  destruct (Qle_bool (10 ^ 21) (Qabs (n # 100))); [reflexivity|].
  destruct (Qle_bool 0 (n # 100)).
  - change (Qfloor ((n # 100) * 100 + (1 # 2))) with (Math_round ((n # 100) * 100)).
    rewrite (Math_round_proper _ _ (hundredth_times n)), Math_round_Z. reflexivity.
  - change (Qfloor (- (n # 100) * 100 + (1 # 2))) with (Math_round (- (n # 100) * 100)).
    assert (E : - (n # 100) * 100 == inject_Z (- n)).
    { rewrite inject_Z_opp, <- hundredth_times. ring. }
    rewrite (Math_round_proper _ _ E), Math_round_Z.
    unfold Qeq, Qopp. simpl. lia.
Qed.

Global Instance toFixed2_proper : Proper (Qeq ==> Qeq) toFixed2.
Proof.
  intros x y H. unfold toFixed2.
  rewrite (Qleb_comp _ _ (reflexivity (10 ^ 21)) _ _ (Qabs_wd _ _ H)).
  destruct (Qle_bool (10 ^ 21) (Qabs y)); [assumption|].
  rewrite (Qleb_comp _ _ (reflexivity 0) _ _ H).
  destruct (Qle_bool 0 y).
  - rewrite (Qfloor_comp (x * 100 + (1 # 2)) (y * 100 + (1 # 2))) by (rewrite H; reflexivity).
    reflexivity.
  - rewrite (Qfloor_comp (- x * 100 + (1 # 2)) (- y * 100 + (1 # 2))) by (rewrite H; reflexivity).
    reflexivity.
Qed.

(** [toFixed(2)] gives a number within 1/200 of its argument. *)
Lemma toFixed2_near x :
  x - (1 # 200) <= toFixed2 x <= x + (1 # 200).
Proof.
  unfold toFixed2.
  destruct (Qle_bool (10 ^ 21) (Qabs x)); [lra|].
  destruct (Qle_bool 0 x).
  - pose proof (Qfloor_le (x * 100 + (1 # 2))) as H1.
    pose proof (Qlt_floor (x * 100 + (1 # 2))) as H2.
    rewrite inject_Z_plus in H2. change (inject_Z 1) with 1 in H2.
    rewrite Qmake_hundredth.
    revert H1 H2. generalize (inject_Z (Qfloor (x * 100 + (1 # 2)))). intros f H1 H2. lra.
  - pose proof (Qfloor_le (- x * 100 + (1 # 2))) as H1.
    pose proof (Qlt_floor (- x * 100 + (1 # 2))) as H2.
    rewrite inject_Z_plus in H2. change (inject_Z 1) with 1 in H2.
    rewrite Qmake_hundredth.
    revert H1 H2. generalize (inject_Z (Qfloor (- x * 100 + (1 # 2)))). intros f H1 H2. lra.
Qed.

End NumberProofs.

(** ** The export encoder: the size of the raster *)

Module ExportProofs.
Import JsString JsNumber ExportLib App Instances SpecWords NumberProofs.
Local Open Scope Q_scope.

(** [parseSvgSize] only gives sizes with both sides positive. *)
Lemma parseSvgSize_positive B svg sz :
  parseSvgSize B svg = Some sz -> 0 < width sz /\ 0 < height sz.
Proof.
  unfold parseSvgSize.
  set (fb := match toPx B (exec_attr "width" None svg), toPx B (exec_attr "height" None svg) with
             | Some w, Some h =>
                 if Qltb 0 w && Qltb 0 h then Some {| width := w; height := h |} else None
             | _, _ => None
             end).
  assert (Hfb : fb = Some sz -> 0 < width sz /\ 0 < height sz).
  { unfold fb. destruct (toPx B _) as [w|]; [|discriminate].
    destruct (toPx B _) as [h|]; [|discriminate].
    destruct (Qltb 0 w) eqn:Ew; [|discriminate].
    destruct (Qltb 0 h) eqn:Eh; [|discriminate].
    intros [= <-]. simpl. split; apply Qltb_lt; assumption. }
  destruct (exec_viewBox svg) as [vb|]; [|exact Hfb].
  destruct (map (js_Number B) _) as [|[a|] [|[b|] [|[w|] [|[h|] [|? ?]]]]]; try exact Hfb.
  destruct (Qltb 0 w) eqn:Ew; [|exact Hfb].
  destruct (Qltb 0 h) eqn:Eh; [|exact Hfb].
  intros [= <-]. simpl. split; apply Qltb_lt; assumption.
Qed.

Example size_from_viewBox :
  parseSvgSize decimal_builtins
    ("<svg width=" ++ q ++ "100%" ++ q ++ " viewBox=" ++ q ++ "0 0 412.5 96" ++ q ++ ">")
  = Some {| width := 4125 # 10; height := 96 |}.
Proof. vm_compute. reflexivity. Qed.

Example size_from_attributes :
  parseSvgSize decimal_builtins
    ("<svg width=" ++ q ++ "120px" ++ q ++ " height=" ++ q ++ "40" ++ q ++ ">")
  = Some {| width := 120; height := 40 |}.
Proof. vm_compute. reflexivity. Qed.

Example size_missing :
  parseSvgSize decimal_builtins "<svg><text>a</text></svg>" = None.
Proof. vm_compute. reflexivity. Qed.

Example raster_default_size :
  let plan := downloadPng decimal_builtins "<svg><text>a</text></svg>" None in
  (Qred (png_scale plan), canvas_width plan, canvas_height plan) = (3, 2400%Z, 1800%Z).
Proof. vm_compute. reflexivity. Qed.

Example raster_wide :
  let plan := downloadPng decimal_builtins
                ("<svg viewBox=" ++ q ++ "0 0 4000 100" ++ q ++ ">") None in
  (Qred (png_scale plan), canvas_width plan, canvas_height plan) = (3, 12000%Z, 300%Z).
Proof. vm_compute. reflexivity. Qed.

Example raster_small :
  let plan := downloadPng decimal_builtins
                ("<svg viewBox=" ++ q ++ "0 0 100 50" ++ q ++ ">") None in
  (Qred (png_scale plan), canvas_width plan, canvas_height plan) = (8, 800%Z, 400%Z).
Proof. vm_compute. reflexivity. Qed.

End ExportProofs.

(** ** The fit engine *)

Module FitProofs.
Import JsNumber App SpecWords NumberProofs.
Local Open Scope Q_scope.

Lemma truthy_pos x : 0 < x -> truthy x = true.
Proof.
  intros H. unfold truthy. destruct (Qeq_bool x 0) eqn:E; [|reflexivity].
  apply Qeq_bool_eq in E. lra.
Qed.

(** The quotient of the available length, floored at zero, against the
    quotient of the container length less the padding. *)
Lemma avail_quotient X w :
  0 < w ->
  (0 <= X /\ Qmax 0 X / w == X / w /\ 0 <= X / w) \/
  (X < 0 /\ Qmax 0 X / w == 0 /\ X / w < 0).
Proof.
  intros Hw. destruct (Qlt_le_dec X 0) as [Hx|Hx].
  - right. split; [assumption|]. split; [|apply div_sign_neg; assumption].
    rewrite (Q.max_l 0 X) by lra. unfold Qdiv. ring.
  - left. split; [assumption|]. split; [|apply div_sign_nonneg; assumption].
    rewrite (Q.max_r 0 X) by lra. reflexivity.
Qed.

(** C6.  For content of positive size [w] by [h] the fit scale is the
    smaller of the two quotients of the container's sides, each less 16
    pixels of padding at both ends, by the content's sides, clamped to
    [0.1, 3]; and a container that shrinks on both axes never gets a
    larger fit scale. *)
Theorem C6_fit_scale (W H W' H' w h : Q) :
  0 < w -> 0 < h ->
  fit_scale W H w h
    == clamp (1 # 10) 3 (Qmin ((W - 16 - 16) / w) ((H - 16 - 16) / h)) /\
  (W' <= W -> H' <= H -> fit_scale W' H' w h <= fit_scale W H w h) /\
  (forall st,
     zoom (computeFitScale true
             {| wrapRect := Some (W, H); svgRect := Some (w, h) |} st)
     = fit_scale W H w h).
Proof.
  intros Hw Hh.
  assert (Hfit : forall A B, fit_scale A B w h =
            Math_max (1 # 10)
              (Math_min 3 (Math_min (Math_max 0 (A - 16 - 16) / w)
                                    (Math_max 0 (B - 16 - 16) / h)))).
  { intros A B. unfold fit_scale. rewrite (truthy_pos w Hw), (truthy_pos h Hh). reflexivity. }
  split; [|split].
  - rewrite Hfit, <- max_min_clamp by lra. unfold Math_max, Math_min.
    destruct (avail_quotient (W - 16 - 16) w Hw) as [(_ & Ea & Sa)|(_ & Ea & Sa)];
    destruct (avail_quotient (H - 16 - 16) h Hh) as [(_ & Eb & Sb)|(_ & Eb & Sb)];
    revert Ea Sa Eb Sb;
    generalize (Qmax 0 (W - 16 - 16) / w) ((W - 16 - 16) / w)
               (Qmax 0 (H - 16 - 16) / h) ((H - 16 - 16) / h);
    intros a' a b' b Ea Sa Eb Sb; minmax_cases.
  - intros HW HH. rewrite !Hfit. unfold Math_max, Math_min.
    assert (Ea : Qmax 0 (W' - 16 - 16) / w <= Qmax 0 (W - 16 - 16) / w).
    { apply div_le_compat; [assumption|]. apply Q.max_le_compat_l. lra. }
    assert (Eb : Qmax 0 (H' - 16 - 16) / h <= Qmax 0 (H - 16 - 16) / h).
    { apply div_le_compat; [assumption|]. apply Q.max_le_compat_l. lra. }
    revert Ea Eb.
    generalize (Qmax 0 (W' - 16 - 16) / w) (Qmax 0 (W - 16 - 16) / w)
               (Qmax 0 (H' - 16 - 16) / h) (Qmax 0 (H - 16 - 16) / h).
    intros a' a b' b Ea Eb. minmax_cases.
  - intros st. reflexivity.
Qed.

Lemma C6_fit_scale_witness :
  fit_scale 832 632 400 300
    == clamp (1 # 10) 3 (Qmin ((832 - 16 - 16) / 400) ((632 - 16 - 16) / 300)) /\
  (432 <= 832 -> 332 <= 632 -> fit_scale 432 332 400 300 <= fit_scale 832 632 400 300) /\
  (forall st,
     zoom (computeFitScale true
             {| wrapRect := Some (832, 632); svgRect := Some (400, 300) |} st)
     = fit_scale 832 632 400 300).
Proof.
  apply (C6_fit_scale 832 632 432 332 400 300); reflexivity.
Defined.

Example fit_800_600 : Qred (fit_scale 832 632 400 300) = 2.
Proof. vm_compute. reflexivity. Qed.

Example fit_narrow : Qred (fit_scale 20 632 400 300) = 1 # 10.
Proof. vm_compute. reflexivity. Qed.

End FitProofs.

(** ** The component: render results, the debounce, zoom and export *)

Module MachineProofs.
Import JsString JsNumber MermaidClient ExportLib App Machine Instances SpecWords NumberProofs.

(** *** What each piece leaves alone *)

Lemma doRender_frame env t cl w :
  app (doRender env t cl w) = app w /\
  timers (doRender env t cl w) = timers w /\
  cleanup (doRender env t cl w) = cleanup w /\
  next_timer_id (doRender env t cl w) = next_timer_id w /\
  clock (doRender env t cl w) = clock w /\
  downloads (doRender env t cl w) = downloads w /\
  render_calls (doRender env t cl w) =
    (render_calls w ++ [{| at_time := t; with_code := c_code cl; with_config := c_config cl |}])%list.
Proof.
  unfold doRender. destruct (renderMermaid _ _ _ _ _). cbn. repeat split.
Qed.

Lemma debounce_frame w :
  app (debounce_effect w) = app w /\
  clock (debounce_effect w) = clock w /\
  downloads (debounce_effect w) = downloads w /\
  render_calls (debounce_effect w) = render_calls w.
Proof.
  unfold debounce_effect. destruct (cleanup w); cbn;
    destruct (autoUpdate (app w)); cbn; repeat split.
Qed.

Lemma fire_due_frame env t ts : forall w,
  app (fire_due env t ts w) = app w /\
  cleanup (fire_due env t ts w) = cleanup w /\
  next_timer_id (fire_due env t ts w) = next_timer_id w /\
  clock (fire_due env t ts w) = clock w /\
  downloads (fire_due env t ts w) = downloads w.
Proof.
  induction ts as [|tm ts IH]; intros w; cbn [fire_due]; [repeat split|].
  destruct (due tm <=? t)%nat; [|apply IH].
  destruct (IH (doRender env (due tm) (callback tm) (clearTimeout (timer_id tm) w)))
    as (-> & -> & -> & -> & ->).
  destruct (doRender_frame env (due tm) (callback tm) (clearTimeout (timer_id tm) w))
    as (-> & _ & -> & -> & -> & -> & _).
  repeat split.
Qed.

Lemma computeFitScale_frame fit l st :
  svg (computeFitScale fit l st) = svg st /\
  error (computeFitScale fit l st) = error st /\
  code (computeFitScale fit l st) = code st /\
  autoUpdate (computeFitScale fit l st) = autoUpdate st /\
  fitToViewport (computeFitScale fit l st) = fitToViewport st.
Proof.
  unfold computeFitScale. destruct fit; cbn; [|repeat split].
  destruct (wrapRect l) as [[? ?]|]; [|repeat split].
  destruct (svgRect l) as [[? ?]|]; repeat split.
Qed.

(** *** Graphic and error *)

(** Only the settling of a render promise writes the graphic or the error. *)
Lemma step_keeps_result env ev w :
  (forall i, ev <> Settle i) ->
  svg (app (step env ev w)) = svg (app w) /\
  error (app (step env ev w)) = error (app w).
Proof.
  intros Hev. destruct ev; cbn [step].
  - destruct (String.eqb v _); [split; reflexivity|].
    destruct (debounce_frame (setItem "merViz.diagram.v1" v (with_app (set_code v) w)))
      as (-> & _). split; reflexivity.
  - destruct (String.eqb v _); [split; reflexivity|].
    destruct (debounce_frame (setItem "merViz.theme.v1" v (with_app (set_theme v) w)))
      as (-> & _). split; reflexivity.
  - destruct (String.eqb v _); [split; reflexivity|].
    destruct (debounce_frame (setItem "merViz.font.v1" v (with_app (set_font v) w)))
      as (-> & _). split; reflexivity.
  - destruct (Bool.eqb b _); [split; reflexivity|].
    destruct (debounce_frame
                (setItem "merViz.autoupdate.v1" (String_of_bool b)
                   (with_app (set_autoUpdate b) w))) as (-> & _). split; reflexivity.
  - destruct (Bool.eqb b _); [split; reflexivity|]. cbn.
    destruct b; [|split; reflexivity].
    destruct (computeFitScale_frame true l (set_fitToViewport true (app w)))
      as (-> & -> & _). split; reflexivity.
  - destruct (doRender_frame env (clock w) (current_closure (app w)) w) as (-> & _).
    split; reflexivity.
  - destruct (fitToViewport (app w)); split; reflexivity.
  - destruct (fitToViewport (app w)); split; reflexivity.
  - destruct (fitToViewport (app w)); split; reflexivity.
  - destruct (menu_PNG _ _); split; reflexivity.
  - destruct (menu_SVG _); split; reflexivity.
  - split; reflexivity.
  - cbn. destruct (fire_due_frame env t (timers w) w) as (-> & _). split; reflexivity.
  - exfalso. eapply Hev. reflexivity.
  - destruct (microtasks w); [split; reflexivity|]. cbn.
    destruct (computeFitScale_frame b l (app w)) as (-> & -> & _). split; reflexivity.
  - cbn. destruct (computeFitScale_frame (fitToViewport (app w)) l (app w)) as (-> & -> & _).
    split; reflexivity.
Qed.

Lemma settle_fulfilled env i w m fit :
  in_flight w !! i = Some (Resolved m, fit) ->
  svg (app (step env (Settle i) w)) = m /\
  error (app (step env (Settle i) w)) = None.
Proof. intros H. cbn [step]. rewrite H. split; reflexivity. Qed.

Lemma settle_rejected env i w e fit :
  in_flight w !! i = Some (Rejected e, fit) ->
  svg (app (step env (Settle i) w)) = EmptyString /\
  error (app (step env (Settle i) w)) = Some (default (String_of e) (message_of e)).
Proof. intros H. cbn [step]. rewrite H. split; reflexivity. Qed.

Lemma step_result_inv env ev w :
  result_inv (app w) -> result_inv (app (step env ev w)).
Proof.
  intros Hinv. unfold result_inv.
  destruct ev as [v|v|v|b|b l| | | | | | |chain|t|i|l|l];
    try (match goal with
         | |- context [step env ?ev w] =>
             destruct (step_keeps_result env ev w) as [-> ->]; [discriminate|exact Hinv]
         end).
  destruct (in_flight w !! i) as [[[m|e] fit]|] eqn:E.
  - left. eapply settle_fulfilled; eauto.
  - right. eapply settle_rejected; eauto.
  - cbn [step]. rewrite E. exact Hinv.
Qed.

Lemma mount_app ls t0 : app (mount ls t0) = initial_state ls.
Proof.
  unfold mount. cbn.
  match goal with |- app (debounce_effect ?w) = _ => destruct (debounce_frame w) as (-> & _) end.
  reflexivity.
Qed.

Lemma reachable_result_inv env w : reachable env w -> result_inv (app w).
Proof.
  induction 1 as [ls t0|w ev _ IH].
  - rewrite mount_app. left. reflexivity.
  - apply step_result_inv, IH.
Qed.

(** C5, as amended.  In every state the page can reach, the stored
    graphic and the stored error are not both present; a render promise
    that rejects stores its message and clears the graphic, one that
    resolves stores the graphic and clears the error, and nothing else
    writes either.  (Before the first promise settles neither is
    present.) *)
Theorem C5_never_both (env : Env) (w : World) :
  reachable env w ->
  populated (svg (app w)) && error_populated (error (app w)) = false /\
  (forall i e fit,
     in_flight w !! i = Some (Rejected e, fit) ->
     svg (app (step env (Settle i) w)) = EmptyString /\
     error (app (step env (Settle i) w)) = Some (default (String_of e) (message_of e))) /\
  (forall i m fit,
     in_flight w !! i = Some (Resolved m, fit) ->
     svg (app (step env (Settle i) w)) = m /\
     error (app (step env (Settle i) w)) = None) /\
  (forall ev,
     (forall i, ev <> Settle i) ->
     svg (app (step env ev w)) = svg (app w) /\
     error (app (step env ev w)) = error (app w)).
Proof.
  intros Hr. split; [|split; [|split]].
  - destruct (reachable_result_inv env w Hr) as [-> | ->];
      [apply andb_false_r|reflexivity].
  - intros i e fit. apply settle_rejected.
  - intros i m fit. apply settle_fulfilled.
  - intros ev. apply step_keeps_result.
Qed.

Lemma C5_never_both_witness :
  let w := run rejecting_env [ClickRender] (mount ∅ 0) in
  populated (svg (app w)) && error_populated (error (app w)) = false /\
  (forall i e fit,
     in_flight w !! i = Some (Rejected e, fit) ->
     svg (app (step rejecting_env (Settle i) w)) = EmptyString /\
     error (app (step rejecting_env (Settle i) w))
       = Some (default (String_of e) (message_of e))) /\
  (forall i m fit,
     in_flight w !! i = Some (Resolved m, fit) ->
     svg (app (step rejecting_env (Settle i) w)) = m /\
     error (app (step rejecting_env (Settle i) w)) = None) /\
  (forall ev,
     (forall i, ev <> Settle i) ->
     svg (app (step rejecting_env ev w)) = svg (app w) /\
     error (app (step rejecting_env ev w)) = error (app w)).
Proof.
  apply (C5_never_both rejecting_env (run rejecting_env [ClickRender] (mount ∅ 0))).
  apply reach_step, reach_mount.
Defined.

(** C5 as it is worded fails: in the state the page starts in, and until
    the first render promise settles, neither the graphic nor the error is
    present. *)
Lemma C5_counterexample :
  reachable drawing_env (mount ∅ 0) /\
  populated (svg (app (mount ∅ 0))) = false /\
  error_populated (error (app (mount ∅ 0))) = false.
Proof. split; [apply reach_mount|]. split; vm_compute; reflexivity. Qed.

Example failed_render_shows_error :
  let w := run rejecting_env [ClickRender; Settle 0] (mount ∅ 0) in
  (svg (app w), error (app w)) = (EmptyString, Some "Parse error on line 2").
Proof. vm_compute. reflexivity. Qed.

Example render_after_failure_clears_error :
  let w1 := run sample_env [EditCode "flowchar"; ClickRender; Settle 0] (mount ∅ 0) in
  let w2 := run sample_env [EditCode "flowchart TD; A-->B"; ClickRender; Settle 0] w1 in
  (svg (app w1), error (app w1)) = (EmptyString, Some "Parse error on line 1") /\
  (svg (app w2), error (app w2)) = ("<svg><text>a<br/>b</text></svg>", None).
Proof. vm_compute. split; reflexivity. Qed.

(** *** The debounce *)

Lemma clearTimeout_only tm w :
  timers w = [tm] -> timers (clearTimeout (timer_id tm) w) = [].
Proof.
  intros H. cbn. rewrite H. rewrite filter_cons.
  destruct (decide (timer_id tm ≠ timer_id tm)); [contradiction|reflexivity].
Qed.

Lemma debounce_timers w :
  timers_inv w ->
  timers (debounce_effect w) =
    (if autoUpdate (app w)
     then [{| timer_id := next_timer_id w; due := clock w + 250;
              callback := current_closure (app w) |}]
     else []) /\
  cleanup (debounce_effect w) =
    (if autoUpdate (app w) then Some (next_timer_id w) else None) /\
  next_timer_id (debounce_effect w) =
    (if autoUpdate (app w) then S (next_timer_id w) else next_timer_id w).
Proof.
  intros Hinv. unfold debounce_effect.
  assert (Hc : timers (match cleanup w with
                       | Some id => clearTimeout id w
                       | None => w
                       end) = []).
  { destruct Hinv as [H|(tm & H & Hc)].
    - destruct (cleanup w); cbn; rewrite H; reflexivity.
    - rewrite Hc. apply clearTimeout_only, H. }
  assert (Hf : forall w', w' = match cleanup w with
                               | Some id => clearTimeout id w
                               | None => w
                               end ->
                app w' = app w /\ clock w' = clock w /\ next_timer_id w' = next_timer_id w).
  { intros w' ->. destruct (cleanup w); repeat split. }
  destruct (Hf _ eq_refl) as (Ha & Hk & Hn).
  revert Hc Ha Hk Hn.
  generalize (match cleanup w with
              | Some id => clearTimeout id w
              | None => w
              end).
  intros w' Hc Ha Hk Hn. rewrite Ha.
  destruct (autoUpdate (app w)); cbn; rewrite ?Hc, ?Ha, ?Hk, ?Hn; repeat split.
Qed.

Lemma debounce_timers_inv w : timers_inv w -> timers_inv (debounce_effect w).
Proof.
  intros H. destruct (debounce_timers w H) as (Ht & Hc & _).
  destruct (autoUpdate (app w)); [right|left; exact Ht].
  eexists. split; [exact Ht|]. rewrite Hc. reflexivity.
Qed.

Lemma fire_due_timers env t w :
  timers_inv w ->
  timers (fire_due env t (timers w) w) = filter (fun tm => t < due tm) (timers w).
Proof.
  intros [H|(tm & H & Hc)]; rewrite H; [cbn [fire_due]; rewrite H; reflexivity|].
  cbn [fire_due]. rewrite filter_cons, filter_nil.
  destruct (Nat.leb_spec (due tm) t) as [Hd|Hd].
  - destruct (doRender_frame env (due tm) (callback tm) (clearTimeout (timer_id tm) w))
      as (_ & -> & _).
    rewrite (clearTimeout_only tm w H).
    destruct (decide (t < due tm)); [lia|reflexivity].
  - rewrite H. destruct (decide (t < due tm)); [reflexivity|lia].
Qed.

Lemma step_timers_inv env ev w : timers_inv w -> timers_inv (step env ev w).
Proof.
  intros Hinv. destruct ev as [v|v|v|b|b l| | | | | | |chain|t|i|l|l]; cbn [step].
  - destruct (String.eqb v _); [exact Hinv|]. apply debounce_timers_inv. exact Hinv.
  - destruct (String.eqb v _); [exact Hinv|]. apply debounce_timers_inv. exact Hinv.
  - destruct (String.eqb v _); [exact Hinv|]. apply debounce_timers_inv. exact Hinv.
  - destruct (Bool.eqb b _); [exact Hinv|]. apply debounce_timers_inv. exact Hinv.
  - destruct (Bool.eqb b _); exact Hinv.
  - unfold timers_inv.
    destruct (doRender_frame env (clock w) (current_closure (app w)) w)
      as (_ & -> & -> & _). exact Hinv.
  - destruct (fitToViewport (app w)); exact Hinv.
  - destruct (fitToViewport (app w)); exact Hinv.
  - destruct (fitToViewport (app w)); exact Hinv.
  - destruct (menu_PNG _ _); exact Hinv.
  - destruct (menu_SVG _); exact Hinv.
  - exact Hinv.
  - unfold timers_inv. cbn [with_clock timers cleanup].
    rewrite (fire_due_timers env t w Hinv).
    destruct (fire_due_frame env t (timers w) w) as (_ & -> & _).
    destruct Hinv as [H|(tm & H & Hc)]; rewrite H; [left; reflexivity|].
    rewrite filter_cons, filter_nil.
    destruct (decide (t < due tm)); [right; eauto|left; reflexivity].
  - destruct (in_flight w !! i) as [[[m|e] fit]|]; exact Hinv.
  - destruct (microtasks w); exact Hinv.
  - exact Hinv.
Qed.

Lemma mount_timers_inv ls t0 : timers_inv (mount ls t0).
Proof.
  unfold mount.
  match goal with
  | |- timers_inv (setItem _ _ (setItem _ _ (setItem _ _ (setItem _ _ (debounce_effect ?w))))) =>
      assert (H : timers_inv (debounce_effect w))
        by (apply debounce_timers_inv; left; reflexivity);
      exact H
  end.
Qed.

Lemma reachable_timers_inv env w : reachable env w -> timers_inv w.
Proof.
  induction 1 as [ls t0|w ev _ IH]; [apply mount_timers_inv|apply step_timers_inv, IH].
Qed.

Lemma edit_schedules env v w :
  timers_inv w -> autoUpdate (app w) = true -> v <> code (app w) ->
  timers (step env (EditCode v) w) =
    [{| timer_id := next_timer_id w; due := clock w + 250;
        callback := {| c_code := v;
                       c_config := config (theme (app w)) (font (app w));
                       c_fit := fitToViewport (app w) |} |}] /\
  app (step env (EditCode v) w) = set_code v (app w) /\
  clock (step env (EditCode v) w) = clock w /\
  render_calls (step env (EditCode v) w) = render_calls w.
Proof.
  intros Hinv Hau Hv. cbn [step].
  destruct (String.eqb_spec v (code (app w))) as [E|_]; [contradiction|].
  set (w1 := setItem "merViz.diagram.v1" v (with_app (set_code v) w)).
  destruct (debounce_timers w1 Hinv) as (Ht & _).
  destruct (debounce_frame w1) as (Ha & Hk & _ & Hr).
  rewrite Ht, Ha, Hk, Hr. cbn. rewrite Hau. repeat split.
Qed.

Lemma select_theme_schedules env v w :
  timers_inv w -> autoUpdate (app w) = true -> v <> theme (app w) ->
  timers (step env (SelectTheme v) w) =
    [{| timer_id := next_timer_id w; due := clock w + 250;
        callback := current_closure (set_theme v (app w)) |}] /\
  app (step env (SelectTheme v) w) = set_theme v (app w).
Proof.
  intros Hinv Hau Hv. cbn [step].
  destruct (String.eqb_spec v (theme (app w))) as [E|_]; [contradiction|].
  set (w1 := setItem "merViz.theme.v1" v (with_app (set_theme v) w)).
  destruct (debounce_timers w1 Hinv) as (Ht & _).
  destruct (debounce_frame w1) as (Ha & _).
  rewrite Ht, Ha. cbn. rewrite Hau. repeat split.
Qed.

Lemma select_font_schedules env v w :
  timers_inv w -> autoUpdate (app w) = true -> v <> font (app w) ->
  timers (step env (SelectFont v) w) =
    [{| timer_id := next_timer_id w; due := clock w + 250;
        callback := current_closure (set_font v (app w)) |}] /\
  app (step env (SelectFont v) w) = set_font v (app w).
Proof.
  intros Hinv Hau Hv. cbn [step].
  destruct (String.eqb_spec v (font (app w))) as [E|_]; [contradiction|].
  set (w1 := setItem "merViz.font.v1" v (with_app (set_font v) w)).
  destruct (debounce_timers w1 Hinv) as (Ht & _).
  destruct (debounce_frame w1) as (Ha & _).
  rewrite Ht, Ha. cbn. rewrite Hau. repeat split.
Qed.

(** A change of the text or of the configuration leaves exactly one
    pending timeout: the one it has just set. *)
Lemma change_schedules env ev w :
  timers_inv w -> autoUpdate (app w) = true -> is_change ev (app w) ->
  timers (step env ev w) =
    [{| timer_id := next_timer_id w; due := clock w + 250;
        callback := current_closure (app (step env ev w)) |}].
Proof.
  intros Hinv Hau Hc. destruct ev; try contradiction; cbn [is_change] in Hc.
  - destruct (edit_schedules env v w Hinv Hau Hc) as (-> & -> & _). reflexivity.
  - destruct (select_theme_schedules env v w Hinv Hau Hc) as (-> & ->). reflexivity.
  - destruct (select_font_schedules env v w Hinv Hau Hc) as (-> & ->). reflexivity.
Qed.

Lemma tick_wait env t w tm :
  timers w = [tm] -> t < due tm ->
  timers (step env (Tick t) w) = [tm] /\
  cleanup (step env (Tick t) w) = cleanup w /\
  app (step env (Tick t) w) = app w /\
  clock (step env (Tick t) w) = Nat.max (clock w) t /\
  render_calls (step env (Tick t) w) = render_calls w.
Proof.
  intros H Hd. cbn [step]. rewrite H. cbn [fire_due].
  destruct (Nat.leb_spec (due tm) t); [lia|]. cbn. rewrite H. repeat split.
Qed.

Lemma tick_fire env t w tm :
  timers w = [tm] -> due tm <= t ->
  render_calls (step env (Tick t) w) =
    (render_calls w ++
       [{| at_time := due tm; with_code := c_code (callback tm);
           with_config := c_config (callback tm) |}])%list.
Proof.
  intros H Hd. cbn [step]. rewrite H. cbn [fire_due].
  destruct (Nat.leb_spec (due tm) t); [|lia]. cbn [with_clock render_calls].
  destruct (doRender_frame env (due tm) (callback tm) (clearTimeout (timer_id tm) w))
    as (_ & _ & _ & _ & _ & _ & ->). reflexivity.
Qed.

Lemma tick_clock env t w :
  clock (step env (Tick t) w) = Nat.max (clock w) t /\
  app (step env (Tick t) w) = app w.
Proof.
  cbn. destruct (fire_due_frame env t (timers w) w) as (-> & _). split; reflexivity.
Qed.

(** C4.  With auto-update on, a change of the text or of the configuration
    leaves exactly one pending timeout, due 250 ms later and carrying the
    state after the change: whatever was pending is cancelled.  So three
    edits at [T], [T + 100] and [T + 150] cause one call of [doRender],
    at [T + 400], with the text of the last edit. *)
Theorem C4_debounce (env : Env) (w : World) :
  reachable env w ->
  autoUpdate (app w) = true ->
  (forall ev,
     is_change ev (app w) ->
     timers (step env ev w) =
       [{| timer_id := next_timer_id w; due := clock w + 250;
           callback := current_closure (app (step env ev w)) |}]) /\
  (forall T c1 c2 c3 t_end,
     clock w <= T -> c1 <> code (app w) -> c2 <> c1 -> c3 <> c2 ->
     T + 400 <= t_end ->
     let w0 := step env (Tick T) w in
     let wf := run env [EditCode c1; Tick (T + 100);
                        EditCode c2; Tick (T + 150);
                        EditCode c3; Tick t_end] w0 in
     render_calls wf =
       (render_calls w0 ++
          [{| at_time := T + 400; with_code := c3;
              with_config := config (theme (app w)) (font (app w)) |}])%list).
Proof.
  intros Hr Hau. pose proof (reachable_timers_inv env w Hr) as Hinv. split.
  - intros ev Hc. apply change_schedules; assumption.
  - intros T c1 c2 c3 t_end HT H1 H2 H3 Hend w0 wf.
    assert (Hwf : wf =
              step env (Tick t_end)
                (step env (EditCode c3)
                   (step env (Tick (T + 150))
                      (step env (EditCode c2)
                         (step env (Tick (T + 100))
                            (step env (EditCode c1) w0)))))) by reflexivity.
    rewrite Hwf. clear Hwf wf.
    (* time passes up to T *)
    assert (I0 : timers_inv w0) by (apply step_timers_inv, Hinv).
    destruct (tick_clock env T w) as (K0 & A0). fold w0 in K0, A0.
    assert (K0' : clock w0 = T) by lia.
    assert (U0 : autoUpdate (app w0) = true) by (rewrite A0; exact Hau).
    assert (C0 : c1 <> code (app w0)) by (rewrite A0; exact H1).
    assert (G0 : config (theme (app w0)) (font (app w0))
                 = config (theme (app w)) (font (app w))) by (rewrite A0; reflexivity).
    clearbody w0. clear K0 A0.
    (* first edit, then 100 ms *)
    destruct (edit_schedules env c1 w0 I0 U0 C0) as (T1 & A1 & K1 & R1).
    pose proof (step_timers_inv env (EditCode c1) w0 I0) as I1.
    revert T1 A1 K1 R1 I1. generalize (step env (EditCode c1) w0). intros w1 T1 A1 K1 R1 I1.
    destruct (tick_wait env (T + 100) w1 _ T1) as (T2 & _ & A2 & K2 & R2); [cbn; lia|].
    pose proof (step_timers_inv env (Tick (T + 100)) w1 I1) as I2.
    revert T2 A2 K2 R2 I2. generalize (step env (Tick (T + 100)) w1). intros w2 T2 A2 K2 R2 I2.
    assert (U2 : autoUpdate (app w2) = true) by (rewrite A2, A1; exact U0).
    assert (C2 : c2 <> code (app w2)) by (rewrite A2, A1; exact H2).
    (* second edit, then 50 ms *)
    destruct (edit_schedules env c2 w2 I2 U2 C2) as (T3 & A3 & K3 & R3).
    pose proof (step_timers_inv env (EditCode c2) w2 I2) as I3.
    revert T3 A3 K3 R3 I3. generalize (step env (EditCode c2) w2). intros w3 T3 A3 K3 R3 I3.
    destruct (tick_wait env (T + 150) w3 _ T3) as (T4 & _ & A4 & K4 & R4); [cbn; lia|].
    pose proof (step_timers_inv env (Tick (T + 150)) w3 I3) as I4.
    revert T4 A4 K4 R4 I4. generalize (step env (Tick (T + 150)) w3). intros w4 T4 A4 K4 R4 I4.
    assert (U4 : autoUpdate (app w4) = true) by (rewrite A4, A3; exact U2).
    assert (C4 : c3 <> code (app w4)) by (rewrite A4, A3; exact H3).
    assert (G4 : config (theme (app w4)) (font (app w4))
                 = config (theme (app w)) (font (app w))).
    { rewrite A4, A3. cbn [set_code theme font]. rewrite A2, A1. exact G0. }
    (* third edit; its timeout fires *)
    destruct (edit_schedules env c3 w4 I4 U4 C4) as (T5 & A5 & K5 & R5).
    revert T5 A5 K5 R5. generalize (step env (EditCode c3) w4). intros w5 T5 A5 K5 R5.
    rewrite (tick_fire env t_end w5 _ T5) by (cbn; lia).
    rewrite R5, R4, R3, R2, R1. cbn [due callback c_code c_config].
    rewrite G4. replace (clock w4 + 250) with (T + 400) by lia.
    reflexivity.
Qed.

Lemma C4_debounce_witness :
  let w := mount ∅ 0 in
  (forall ev,
     is_change ev (app w) ->
     timers (step sample_env ev w) =
       [{| timer_id := next_timer_id w; due := clock w + 250;
           callback := current_closure (app (step sample_env ev w)) |}]) /\
  (forall T c1 c2 c3 t_end,
     clock w <= T -> c1 <> code (app w) -> c2 <> c1 -> c3 <> c2 ->
     T + 400 <= t_end ->
     let w0 := step sample_env (Tick T) w in
     let wf := run sample_env [EditCode c1; Tick (T + 100);
                               EditCode c2; Tick (T + 150);
                               EditCode c3; Tick t_end] w0 in
     render_calls wf =
       (render_calls w0 ++
          [{| at_time := T + 400; with_code := c3;
              with_config := config (theme (app w)) (font (app w)) |}])%list).
Proof.
  apply (C4_debounce sample_env (mount ∅ 0)); [apply reach_mount|reflexivity].
Defined.

(** The page is opened at time 0, the first render fires at 250; edits at
    1000, 1100 and 1150 give one more render, at 1400, of the last text. *)
Example three_edits :
  map (fun c => (at_time c, with_code c))
      (render_calls
         (run sample_env
            [Tick 1000; EditCode "flowchart TD; A";
             Tick 1100; EditCode "flowchart TD; A-->";
             Tick 1150; EditCode "flowchart TD; A-->B";
             Tick 5000] (mount ∅ 0)))
  = [(250, DEFAULT_CODE); (1400, "flowchart TD; A-->B")].
Proof. vm_compute. reflexivity. Qed.

(** *** Manual zoom *)

Example zoom_out_from_one : Qred (zoomOut 1) = (9 # 10)%Q.
Proof. vm_compute. reflexivity. Qed.

Example zoom_in_rounds : Qred (zoomIn (1234 # 10000)) = (11 # 50)%Q.
Proof. vm_compute. reflexivity. Qed.

Example zoom_in_at_three : Qred (zoomIn 3) = 3%Q.
Proof. vm_compute. reflexivity. Qed.

(** *** Export from the menu *)

Lemma step_downloads env ev w :
  downloads (step env ev w) = downloads w \/
  (ev = ClickExportPng /\ exists d,
     menu_PNG (builtins env) (app w) = Some d /\
     downloads (step env ev w) = (downloads w ++ [d])%list) \/
  (ev = ClickExportSvg /\ exists d,
     menu_SVG (app w) = Some d /\
     downloads (step env ev w) = (downloads w ++ [d])%list).
Proof.
  destruct ev as [v|v|v|b|b l| | | | | | |chain|t|i|l|l]; cbn [step].
  - left. destruct (String.eqb v _); [reflexivity|].
    match goal with |- downloads (debounce_effect ?x) = _ =>
      destruct (debounce_frame x) as (_ & _ & -> & _) end. reflexivity.
  - left. destruct (String.eqb v _); [reflexivity|].
    match goal with |- downloads (debounce_effect ?x) = _ =>
      destruct (debounce_frame x) as (_ & _ & -> & _) end. reflexivity.
  - left. destruct (String.eqb v _); [reflexivity|].
    match goal with |- downloads (debounce_effect ?x) = _ =>
      destruct (debounce_frame x) as (_ & _ & -> & _) end. reflexivity.
  - left. destruct (Bool.eqb b _); [reflexivity|].
    match goal with |- downloads (debounce_effect ?x) = _ =>
      destruct (debounce_frame x) as (_ & _ & -> & _) end. reflexivity.
  - left. destruct (Bool.eqb b _); reflexivity.
  - left. destruct (doRender_frame env (clock w) (current_closure (app w)) w)
      as (_ & _ & _ & _ & _ & -> & _). reflexivity.
  - left. destruct (fitToViewport (app w)); reflexivity.
  - left. destruct (fitToViewport (app w)); reflexivity.
  - left. destruct (fitToViewport (app w)); reflexivity.
  - destruct (menu_PNG (builtins env) (app w)) as [d|] eqn:E; [|left; reflexivity].
    right. left. split; [reflexivity|]. exists d. split; reflexivity.
  - destruct (menu_SVG (app w)) as [d|] eqn:E; [|left; reflexivity].
    right. right. split; [reflexivity|]. exists d. split; reflexivity.
  - left. reflexivity.
  - left. cbn. destruct (fire_due_frame env t (timers w) w) as (_ & _ & _ & _ & ->).
    reflexivity.
  - left. destruct (in_flight w !! i) as [[[m|e] fit]|]; reflexivity.
  - left. destruct (microtasks w); reflexivity.
  - left. reflexivity.
Qed.

Lemma menu_PNG_inv B st d :
  menu_PNG B st = Some d ->
  populated (svg st) = true /\
  d = PngFile "diagram.png" (downloadPng B (svg st) (Some 2%Q)).
Proof.
  unfold menu_PNG, onExportPng. cbn [default].
  destruct (populated (svg st)); cbn; [|discriminate].
  intros [= <-]. split; reflexivity.
Qed.

Lemma menu_SVG_inv st d : menu_SVG st = Some d -> exists n c, d = SvgFile n c.
Proof.
  unfold menu_SVG, onExportSvg. destruct (populated (svg st)); cbn; [|discriminate].
  intros [= <-]. eauto.
Qed.

Lemma step_downloads_inv env ev w :
  downloads_inv (builtins env) (downloads w) ->
  downloads_inv (builtins env) (downloads (step env ev w)).
Proof.
  intros Hinv.
  destruct (step_downloads env ev w) as [->|[(_ & d & Hd & ->)|(_ & d & Hd & ->)]];
    [exact Hinv| |]; intros name plan Hin; apply in_app_or in Hin;
    destruct Hin as [Hin|[Hin|[]]]; try (apply Hinv; exact Hin).
  - apply menu_PNG_inv in Hd. destruct Hd as [Hp ->]. injection Hin as <- <-.
    exists (svg (app w)). repeat split. exact Hp.
  - apply menu_SVG_inv in Hd. destruct Hd as (n & c & ->). discriminate Hin.
Qed.

Lemma mount_downloads ls t0 : downloads (mount ls t0) = [].
Proof.
  unfold mount. cbn.
  match goal with |- downloads (debounce_effect ?x) = _ =>
    destruct (debounce_frame x) as (_ & _ & -> & _) end. reflexivity.
Qed.

Lemma reachable_downloads_inv env w :
  reachable env w -> downloads_inv (builtins env) (downloads w).
Proof.
  induction 1 as [ls t0|w ev _ IH].
  - rewrite mount_downloads. intros ? ? [].
  - apply step_downloads_inv, IH.
Qed.

Lemma explicit_scale_two B svg0 :
  (png_scale (downloadPng B svg0 (Some 2)) == 2)%Q.
Proof. reflexivity. Qed.

Lemma auto_scale_at_least_three B svg0 :
  (3 <= png_scale (downloadPng B svg0 None))%Q.
Proof.
  unfold downloadPng. cbn [png_scale]. unfold Math_max at 2.
  match goal with |- context [(?a / ?b)%Q] => generalize (a / b)%Q end.
  intros x. unfold Math_max, Math_min.
  minmax_cases.
Qed.

(** C9.  Every raster file that the page has offered for download from
    its export menu was made with the explicit scale 2, which the clamp
    leaves at 2; the automatic scale, which is at least 3, was not
    used. *)
Theorem C9_menu_export_scale_two (env : Env) (w : World) (name : string) (plan : PngPlan) :
  reachable env w ->
  In (PngFile name plan) (downloads w) ->
  exists svg0,
    plan = downloadPng (builtins env) svg0 (Some 2%Q) /\
    (png_scale plan == 2)%Q /\
    (3 <= png_scale (downloadPng (builtins env) svg0 None))%Q /\
    ~ (png_scale plan == png_scale (downloadPng (builtins env) svg0 None))%Q /\
    menu_PNG (builtins env) (app w) =
      onExportPng (builtins env) (app w) None /\
    onExportPng (builtins env) (app w) None =
      onExportPng (builtins env) (app w) (Some 2%Q).
Proof.
  intros Hr Hin.
  destruct (reachable_downloads_inv env w Hr name plan Hin) as (svg0 & _ & _ & ->).
  exists svg0. split; [reflexivity|].
  pose proof (explicit_scale_two (builtins env) svg0) as H2.
  pose proof (auto_scale_at_least_three (builtins env) svg0) as H3.
  split; [exact H2|]. split; [exact H3|]. split; [|split; reflexivity].
  intros E. rewrite H2 in E. rewrite <- E in H3. revert H3. clear. intros H3.
  apply (Qle_not_lt _ _ H3). reflexivity.
Qed.

Lemma reachable_run env evs : forall w, reachable env w -> reachable env (run env evs w).
Proof.
  induction evs as [|ev evs IH]; intros w Hr; [exact Hr|].
  apply IH, reach_step, Hr.
Qed.

Lemma C9_menu_export_scale_two_witness :
  let w := run sample_env [ClickRender; Settle 0; ClickExportPng] (mount ∅ 0) in
  let plan := downloadPng decimal_builtins "<svg><text>a<br/>b</text></svg>" (Some 2%Q) in
  exists svg0,
    plan = downloadPng (builtins sample_env) svg0 (Some 2%Q) /\
    (png_scale plan == 2)%Q /\
    (3 <= png_scale (downloadPng (builtins sample_env) svg0 None))%Q /\
    ~ (png_scale plan == png_scale (downloadPng (builtins sample_env) svg0 None))%Q /\
    menu_PNG (builtins sample_env) (app w) =
      onExportPng (builtins sample_env) (app w) None /\
    onExportPng (builtins sample_env) (app w) None =
      onExportPng (builtins sample_env) (app w) (Some 2%Q).
Proof.
  apply (C9_menu_export_scale_two sample_env
           (run sample_env [ClickRender; Settle 0; ClickExportPng] (mount ∅ 0))
           "diagram.png"
           (downloadPng decimal_builtins "<svg><text>a<br/>b</text></svg>" (Some 2%Q))).
  - apply reachable_run, reach_mount.
  - vm_compute. left. reflexivity.
Defined.

Example menu_png_of_default_size :
  downloads (run sample_env [ClickRender; Settle 0; ClickExportPng] (mount ∅ 0))
  = [PngFile "diagram.png"
       {| png_markup := "<svg><text>a<br/>b</text></svg>";
          png_scale := 2; canvas_width := 1600; canvas_height := 1200 |}].
Proof. vm_compute. reflexivity. Qed.

Example menu_png_without_graphic :
  downloads (run sample_env [ClickExportPng] (mount ∅ 0)) = [].
Proof. vm_compute. reflexivity. Qed.

End MachineProofs.

(** ** Double click: locating a label in the source *)

Module LocateProofs.
Import JsString App SpecWords.

(** A label of at most 120 characters that is not blank is picked at the
    clicked element itself. *)
Lemma double_click_picks_label code ed content parents :
  populated (trim content) = true ->
  String.length (trim content) <= 120 ->
  onPreviewDoubleClick code ed (content :: parents)
  = focusEditorAtText code ed (Some (trim content)).
Proof.
  intros Hp Hl. unfold onPreviewDoubleClick. cbn [pick]. rewrite Hp.
  apply Nat.leb_le in Hl. rewrite Hl. reflexivity.
Qed.

Example collapse_and_trim :
  trim (replace_all match_spaces " " 0 (String (ascii_of_N 10) "  do   THING "))
  = "do THING".
Proof. vm_compute. reflexivity. Qed.

Example locate_Start :
  onPreviewDoubleClick DEFAULT_CODE (Some {| focused := false; selection := None |})
    ["Start"; "StartCondition?Do thingSomething elseEnd"]
  = Some {| focused := true; selection := Some (17, 22) |}.
Proof. vm_compute. reflexivity. Qed.

Example locate_nothing :
  onPreviewDoubleClick DEFAULT_CODE (Some {| focused := false; selection := Some (3, 5) |})
    ["Stop"]
  = Some {| focused := false; selection := Some (3, 5) |}.
Proof. vm_compute. reflexivity. Qed.

End LocateProofs.

(** ** The theme key and the render configuration *)

Module ConfigProofs.
Import JsString MermaidClient App.

(** The theme key read at start-up is the stored string itself, whatever
    it is, unless it is missing or empty. *)
Lemma initial_theme_raw (ls : gmap string string) (k : string) :
  ls !! "merViz.theme.v1" = Some k -> k <> EmptyString ->
  theme (initial_state ls) = k.
Proof.
  intros H Hk. cbn. rewrite H. destruct k; [contradiction|reflexivity].
Qed.

(** A key that [in] does not find on [CUSTOM_THEMES] is handed to the
    engine as the base theme, with the font as the only variable. *)
Lemma config_unknown_key (k font : string) :
  in_CUSTOM_THEMES k = false ->
  config k font =
    {| MermaidClient.theme := Some k;
       themeVariables := Some {["fontFamily" := VStr font]};
       securityLevel := Some "strict";
       fontFamily := Some font |}.
Proof.
  intros H. unfold config. rewrite H. rewrite insert_empty. reflexivity.
Qed.

(** A preset key gives the base theme and the variables of the preset,
    with the font added. *)
Lemma config_preset_key (k font : string) (p : ThemePreset) :
  CUSTOM_THEMES !! k = Some p ->
  config k font =
    {| MermaidClient.theme := Some (base p);
       themeVariables := Some (<["fontFamily" := VStr font]> (variables p));
       securityLevel := Some "strict";
       fontFamily := Some font |}.
Proof.
  intros H. unfold config, in_CUSTOM_THEMES. rewrite H.
  rewrite bool_decide_eq_true_2 by eauto. reflexivity.
Qed.

(** C10 at the stored key [toString]: the key is neither a builtin theme
    nor a preset, yet [in] finds it on the prototype of [CUSTOM_THEMES];
    the configuration then has no base theme at all, where it should
    carry the stored string. *)
Theorem C10_inherited_key_loses_theme :
  let ls : gmap string string := {["merViz.theme.v1" := "toString"]} in
  let st := initial_state ls in
  theme st = "toString" /\
  ~ In "toString" BUILTIN_THEMES /\
  CUSTOM_THEMES !! "toString" = None /\
  in_CUSTOM_THEMES "toString" = true /\
  MermaidClient.theme (config (theme st) (font st)) = None /\
  MermaidClient.theme (config (theme st) (font st)) <> Some "toString" /\
  themeVariables (config (theme st) (font st))
    = Some {["fontFamily" := VStr DEFAULT_FONT]}.
Proof.
  cbv zeta.
  assert (Ht : theme (initial_state {["merViz.theme.v1" := "toString"]}) = "toString")
    by (vm_compute; reflexivity).
  assert (Hf : font (initial_state {["merViz.theme.v1" := "toString"]}) = DEFAULT_FONT)
    by (vm_compute; reflexivity).
  rewrite Ht, Hf.
  assert (Hc : CUSTOM_THEMES !! "toString" = None) by (vm_compute; reflexivity).
  assert (Hi : in_CUSTOM_THEMES "toString" = true) by (vm_compute; reflexivity).
  split; [reflexivity|]. split.
  { cbn. intuition discriminate. }
  split; [exact Hc|]. split; [exact Hi|].
  unfold config. rewrite Hi, Hc. cbn. rewrite insert_empty.
  split; [reflexivity|]. split; [discriminate|reflexivity].
Qed.

Example config_default :
  MermaidClient.theme (config "default" DEFAULT_FONT) = Some "default".
Proof. vm_compute. reflexivity. Qed.

Example config_nord :
  MermaidClient.theme (config "nord" DEFAULT_FONT) = Some "neutral" /\
  (themeVariables (config "nord" DEFAULT_FONT) ≫= (.!! "primaryColor")) = Some (VStr "#5E81AC") /\
  (themeVariables (config "nord" DEFAULT_FONT) ≫= (.!! "fontFamily")) = Some (VStr DEFAULT_FONT).
Proof. vm_compute. repeat split; reflexivity. Qed.

Example config_stored_garbage :
  let st := initial_state {["merViz.theme.v1" := "solarized"]} in
  MermaidClient.theme (config (theme st) (font st)) = Some "solarized".
Proof. vm_compute. reflexivity. Qed.

End ConfigProofs.

(* ===================================================================== *)
(** * Further properties of the code *)
(* ===================================================================== *)

(** ** The normalisation and the raster size *)

Module ExportMore.
Import JsString JsNumber ExportLib App Instances MoreInstances Predicates SpecWords SanitizeProofs NumberProofs.
Local Open Scope Q_scope.

Lemma fixed_closed xml : sanitizeSvg xml = xml -> br_tags_closed xml = true.
Proof. intros <-. apply sanitizeSvg_br_closed. Qed.

(** X1: [sanitizeSvg] is idempotent, and the markup it leaves as it is is the
    markup whose line-break tags are all the self-closing [<br/>]. *)
Theorem sanitizeSvg_fixed_points xml :
  sanitizeSvg (sanitizeSvg xml) = sanitizeSvg xml /\
  String.eqb (sanitizeSvg xml) xml = br_tags_closed xml.
Proof.
  split; [apply sanitizeSvg_idempotent|].
  destruct (String.eqb_spec (sanitizeSvg xml) xml) as [E|E].
  - symmetry. apply fixed_closed, E.
  - destruct (br_tags_closed xml) eqn:C; [|reflexivity].
    exfalso. apply E. apply (closed_fixed (String.length xml)); [lia|exact C].
Qed.

(** *** Reading the size *)

Lemma no_dquote_sdrop n : forall s,
  has_dquote s = false -> has_dquote (sdrop n s) = false.
Proof.
  induction n as [|n IH]; intros [|c s] H; try exact H; try reflexivity.
  cbn [sdrop]. apply IH. cbn in H. apply orb_false_iff in H. tauto.
Qed.

Lemma no_dquote_match_ci pat : forall s rest,
  match_ci pat s = Some rest -> has_dquote s = false -> has_dquote rest = false.
Proof.
  induction pat as [|p pat IH]; intros s rest; cbn [match_ci].
  - intros [= <-]. auto.
  - destruct s as [|c s]; [discriminate|].
    destruct (ci_eq c p); [|discriminate].
    intros H Hs. apply (IH _ _ H). cbn in Hs. apply orb_false_iff in Hs. tauto.
Qed.

Lemma no_dquote_attr_value s : has_dquote s = false -> attr_value s = None.
Proof.
  intros H. unfold attr_value, skip_spaces.
  pose proof (no_dquote_sdrop (span is_space s) s H) as H1.
  destruct (sdrop (span is_space s) s) as [|c1 s1]; [reflexivity|].
  destruct (Ascii.eqb c1 "="); [|reflexivity].
  cbn [has_dquote] in H1. apply orb_false_iff in H1. destruct H1 as [_ H1].
  pose proof (no_dquote_sdrop (span is_space s1) s1 H1) as H2.
  destruct (sdrop (span is_space s1) s1) as [|c2 s2]; [reflexivity|].
  cbn [has_dquote] in H2. apply orb_false_iff in H2. destruct H2 as [H2 _].
  rewrite H2. reflexivity.
Qed.

Lemma no_dquote_exec_viewBox s : has_dquote s = false -> exec_viewBox s = None.
Proof.
  induction s as [|c s IH]; intros H; [reflexivity|].
  cbn [exec_viewBox].
  assert (E : match_ci "viewbox" (String c s) ≫= attr_value = None).
  { destruct (match_ci "viewbox" (String c s)) as [rest|] eqn:M; [|reflexivity].
    cbn. apply no_dquote_attr_value. eapply no_dquote_match_ci; eauto. }
  rewrite E. apply IH. cbn in H. apply orb_false_iff in H. tauto.
Qed.

Lemma no_dquote_exec_attr name s : forall prev,
  has_dquote s = false -> exec_attr name prev s = None.
Proof.
  induction s as [|c s IH]; intros prev H; [reflexivity|].
  cbn [exec_attr].
  assert (E : (if boundary_before prev
               then match_ci name (String c s) ≫= attr_value else None) = None).
  { destruct (boundary_before prev); [|reflexivity].
    destruct (match_ci name (String c s)) as [rest|] eqn:M; [|reflexivity].
    cbn. apply no_dquote_attr_value. eapply no_dquote_match_ci; eauto. }
  rewrite E. apply IH. cbn in H. apply orb_false_iff in H. tauto.
Qed.

Lemma no_dquote_replace s : forall skip,
  has_dquote s = false ->
  has_dquote (replace_all match_br "<br/>" skip s) = false.
Proof.
  induction s as [|c s IH]; intros skip H; [reflexivity|].
  cbn in H. apply orb_false_iff in H. destruct H as [Hc Hs].
  destruct skip as [|k]; cbn [replace_all]; [|apply IH, Hs].
  destruct (match_br (String c s)) as [[|k]|].
  - cbn. rewrite Hc. apply IH, Hs.
  - change ("<br/>" ++ replace_all match_br "<br/>" k s)%string
      with (String "<" (String "b" (String "r" (String "/" (String ">"
              (replace_all match_br "<br/>" k s)))))).
    cbn. apply IH, Hs.
  - cbn. rewrite Hc. apply IH, Hs.
Qed.

(** X2: Attribute values are read between double quotes only: from markup
    without any double quote no size is read, whatever the built-ins do,
    and the raster export falls back to 800 by 600, that is to a canvas of
    2400 by 1800 when it chooses the scale itself. *)
Theorem size_needs_double_quotes (B : Builtins) (svg : string) :
  has_dquote svg = false ->
  parseSvgSize B svg = None /\
  canvas_width (downloadPng B svg None) = 2400%Z /\
  canvas_height (downloadPng B svg None) = 1800%Z.
Proof.
  intros H.
  assert (P : forall s, has_dquote s = false -> parseSvgSize B s = None).
  { intros s Hs. unfold parseSvgSize.
    rewrite (no_dquote_exec_viewBox s Hs), !(no_dquote_exec_attr _ s None Hs).
    reflexivity. }
  split; [apply P, H|].
  unfold downloadPng. rewrite (P (sanitizeSvg svg)) by (apply no_dquote_replace, H).
  split; reflexivity.
Qed.

Lemma size_needs_double_quotes_witness :
  parseSvgSize decimal_builtins "<svg viewBox='0 0 100 50' width='100'></svg>" = None /\
  canvas_width
    (downloadPng decimal_builtins "<svg viewBox='0 0 100 50' width='100'></svg>" None)
    = 2400%Z /\
  canvas_height
    (downloadPng decimal_builtins "<svg viewBox='0 0 100 50' width='100'></svg>" None)
    = 1800%Z.
Proof.
  apply (size_needs_double_quotes decimal_builtins
           "<svg viewBox='0 0 100 50' width='100'></svg>").
  reflexivity.
Defined.

Lemma auto_plan B svg w h :
  match parseSvgSize B (sanitizeSvg svg) with
  | Some sz => width sz = w /\ height sz = h
  | None => w = 800 /\ h = 600
  end ->
  0 < w /\ 0 < h /\
  downloadPng B svg None =
    {| png_markup := sanitizeSvg svg;
       png_scale := Qmax (1 # 2) (Qmin 8 (Qmax 3 (2000 / Qmax w h)));
       canvas_width := Math_round (w * Qmax (1 # 2) (Qmin 8 (Qmax 3 (2000 / Qmax w h))));
       canvas_height := Math_round (h * Qmax (1 # 2) (Qmin 8 (Qmax 3 (2000 / Qmax w h)))) |}.
Proof.
  intros Hsz. unfold downloadPng.
  destruct (parseSvgSize B (sanitizeSvg svg)) as [[w0 h0]|] eqn:E.
  - destruct (ExportProofs.parseSvgSize_positive B _ _ E) as [Hw Hh].
    cbn in Hsz, Hw, Hh. destruct Hsz as [<- <-]. repeat split; assumption.
  - destruct Hsz as [-> ->]. repeat split.
Qed.

(** X4: The scale the raster export chooses itself: 8 for a graphic whose
    longer side is at most 250, 3 when it is at least 2000/3, and between
    the two the scale that makes the longer side of the canvas exactly
    2000 pixels. *)
Theorem raster_auto_scale_regimes (B : Builtins) (svg : string) (w h : Q) :
  match parseSvgSize B (sanitizeSvg svg) with
  | Some sz => width sz = w /\ height sz = h
  | None => w = 800 /\ h = 600
  end ->
  let plan := downloadPng B svg None in
  (Qmax w h <= 250 -> png_scale plan == 8) /\
  (2000 / 3 <= Qmax w h -> png_scale plan == 3) /\
  (250 <= Qmax w h <= 2000 / 3 ->
   png_scale plan == 2000 / Qmax w h /\
   Z.max (canvas_width plan) (canvas_height plan) = 2000%Z).
Proof.
  intros Hsz plan. destruct (auto_plan B svg w h Hsz) as (Hw & Hh & Hp).
  unfold plan. rewrite Hp. cbn [png_scale canvas_width canvas_height]. clear Hp plan Hsz.
  assert (HL : 0 < Qmax w h) by (apply Q.max_lt_iff; left; exact Hw).
  assert (HwL : w <= Qmax w h) by apply Q.le_max_l.
  assert (HhL : h <= Qmax w h) by apply Q.le_max_r.
  assert (HLc : Qmax w h == w \/ Qmax w h == h).
  { destruct (Q.max_dec w h); [left|right]; assumption. }
  revert HL HwL HhL HLc. generalize (Qmax w h). intros L HL HwL HhL HLc.
  assert (Hup : forall c, 0 < c -> c * L <= 2000 -> c <= 2000 / L).
  { intros c _ H. apply Qle_shift_div_l; assumption. }
  assert (Hdn : forall c, 2000 <= c * L -> 2000 / L <= c).
  { intros c H. apply Qle_shift_div_r; assumption. }
  split; [|split].
  - intros H. assert (8 <= 2000 / L) by (apply Hup; lra).
    revert H0. generalize (2000 / L). intros x Hx. minmax_cases.
  - intros H. assert (2000 / L <= 3).
    { apply Hdn. assert (E : 2000 / 3 == 2000 # 3) by reflexivity.
      rewrite E in H. lra. }
    revert H0. generalize (2000 / L). intros x Hx. minmax_cases.
  - intros [H1 H2].
    assert (E3 : 2000 / 3 == 2000 # 3) by reflexivity. rewrite E3 in H2.
    assert (A1 : 3 <= 2000 / L) by (apply Hup; lra).
    assert (A2 : 2000 / L <= 8) by (apply Hdn; lra).
    assert (Es : Qmax (1 # 2) (Qmin 8 (Qmax 3 (2000 / L))) == 2000 / L).
    { revert A1 A2. generalize (2000 / L). intros x A1 A2. minmax_cases. }
    split; [exact Es|].
    assert (EL : L * (2000 / L) == 2000).
    { rewrite Qmult_div_r; [reflexivity|lra]. }
    revert A1 Es EL. generalize (2000 / L). intros d A1 Es EL.
    assert (Rw : forall a, a <= L ->
              (Math_round (a * Qmax (1 # 2) (Qmin 8 (Qmax 3 d))) <= 2000)%Z).
    { intros a Ha. change 2000%Z with (Math_round 2000).
      unfold Math_round. apply Qfloor_resp_le. rewrite Es.
      assert (a * d <= L * d) by (apply Qmult_le_compat_r; lra).
      lra. }
    assert (RL : forall a, a == L ->
              Math_round (a * Qmax (1 # 2) (Qmin 8 (Qmax 3 d))) = 2000%Z).
    { intros a Ha. change 2000%Z with (Math_round 2000).
      apply Math_round_proper. rewrite Es, Ha. exact EL. }
    destruct HLc as [E|E].
    + rewrite (RL w) by (symmetry; exact E). apply Z.max_l, Rw, HhL.
    + rewrite (RL h) by (symmetry; exact E). apply Z.max_r, Rw, HwL.
Qed.

Lemma raster_auto_scale_regimes_witness :
  let svg := "<svg viewBox=" ++ q ++ "0 0 400 300" ++ q ++ "></svg>" in
  let plan := downloadPng decimal_builtins svg None in
  (Qmax 400 300 <= 250 -> png_scale plan == 8) /\
  (2000 / 3 <= Qmax 400 300 -> png_scale plan == 3) /\
  (250 <= Qmax 400 300 <= 2000 / 3 ->
   png_scale plan == 2000 / Qmax 400 300 /\
   Z.max (canvas_width plan) (canvas_height plan) = 2000%Z).
Proof.
  apply (raster_auto_scale_regimes decimal_builtins
           ("<svg viewBox=" ++ q ++ "0 0 400 300" ++ q ++ "></svg>") 400 300).
  vm_compute. split; reflexivity.
Defined.

Example raster_400_300 :
  let plan := downloadPng decimal_builtins
                ("<svg viewBox=" ++ q ++ "0 0 400 300" ++ q ++ "></svg>") None in
  (Qred (png_scale plan), canvas_width plan, canvas_height plan) = (5, 2000%Z, 1500%Z).
Proof. vm_compute. reflexivity. Qed.

(** X5: A size read by [parseSvgSize] has two positive sides: a zero or
    negative width or height is never handed on. *)
Theorem parsed_size_positive (B : Builtins) (svg : string) (sz : Size) :
  parseSvgSize B svg = Some sz -> 0 < width sz /\ 0 < height sz.
Proof. apply ExportProofs.parseSvgSize_positive. Qed.

Lemma parsed_size_positive_witness :
  0 < width {| width := 120; height := 40 |} /\
  0 < height {| width := 120; height := 40 |}.
Proof.
  apply (parsed_size_positive decimal_builtins
           ("<svg viewBox=" ++ q ++ "0 0 0 0" ++ q ++ " width=" ++ q ++ "120px" ++ q
              ++ " height=" ++ q ++ "40" ++ q ++ ">")).
  vm_compute. reflexivity.
Defined.

Example zero_viewBox_falls_back :
  parseSvgSize decimal_builtins
    ("<svg viewBox=" ++ q ++ "0 0 0 0" ++ q ++ " width=" ++ q ++ "-5" ++ q
       ++ " height=" ++ q ++ "40" ++ q ++ ">") = None.
Proof. vm_compute. reflexivity. Qed.

End ExportMore.

(** ** The renderer adapter *)

Module AdapterMore.
Import JsString JsNumber ExportLib MermaidClient App Instances MoreInstances Predicates
       SanitizeProofs AdapterProofs.

Lemma renderMermaid_render_fails E rnd code cfg ad e :
  mermaid_parse E (Some (settings_of cfg)) code = None ->
  mermaid_render E (Some (settings_of cfg)) ("merviz-" ++ rnd) code = inl e ->
  renderMermaid E rnd code cfg ad =
    (Rejected e,
     {| initialized := true;
        engine_settings := Some (settings_of cfg);
        calls := calls ad ++ prelude cfg ad
                   ++ [CallParse code; CallRender ("merviz-" ++ rnd) code] |}).
Proof.
  intros Hp Hr. unfold renderMermaid, prelude, bind, init, bind, try_catch, await_parse,
    await_render, mermaid_initialize, bind, log, get_initialized, set_initialized, ret, throw.
  destruct ad as [[|] st cs]; cbn; rewrite Hp; cbn; rewrite Hr; cbn;
    rewrite <- ?app_assoc; reflexivity.
Qed.

(** The three ways a call of [renderMermaid] can go. *)
Lemma renderMermaid_cases E rnd code cfg ad :
  exists res tail,
    renderMermaid E rnd code cfg ad =
      (res, {| initialized := true;
               engine_settings := Some (settings_of cfg);
               calls := calls ad ++ prelude cfg ad ++ CallParse code :: tail |}) /\
    ((exists e, mermaid_parse E (Some (settings_of cfg)) code = Some e /\
                tail = [] /\
                res = Rejected (ThrownError (match message_of e with
                                             | Some (String c m) => String c m
                                             | _ => "Mermaid parse error"
                                             end))) \/
     (mermaid_parse E (Some (settings_of cfg)) code = None /\
      tail = [CallRender ("merviz-" ++ rnd) code] /\
      ((exists e, mermaid_render E (Some (settings_of cfg)) ("merviz-" ++ rnd) code = inl e /\
                  res = Rejected e) \/
       (exists m0, mermaid_render E (Some (settings_of cfg)) ("merviz-" ++ rnd) code = inr m0 /\
                   res = Resolved (sanitizeSvg m0))))).
Proof.
  destruct (mermaid_parse E (Some (settings_of cfg)) code) as [e|] eqn:Hp.
  - eexists _, []. split; [apply renderMermaid_rejects, Hp|]. left. eauto.
  - destruct (mermaid_render E (Some (settings_of cfg)) ("merviz-" ++ rnd) code)
      as [e|m0] eqn:Hr.
    + eexists _, _. split; [apply renderMermaid_render_fails; eassumption|].
      right. split; [reflexivity|]. split; [reflexivity|]. left. eauto.
    + eexists _, _. split; [apply renderMermaid_resolves; eassumption|].
      right. split; [reflexivity|]. split; [reflexivity|]. right. eauto.
Qed.

(** X6: When the source passes validation and the engine then fails to draw
    it, [renderMermaid] rejects with the very value the engine threw, not
    wrapped and without a fallback message, after one render call. *)
Theorem render_failure_surfaces
        (E : Engine) (rnd code : string) (cfg : MermaidConfig) (ad : Adapter)
        (e : js_thrown) :
  mermaid_parse E (Some (settings_of cfg)) code = None ->
  mermaid_render E (Some (settings_of cfg)) ("merviz-" ++ rnd) code = inl e ->
  fst (renderMermaid E rnd code cfg ad) = Rejected e /\
  calls (snd (renderMermaid E rnd code cfg ad)) =
    (calls ad ++ prelude cfg ad
       ++ [CallParse code; CallRender ("merviz-" ++ rnd) code])%list.
Proof.
  intros Hp Hr. rewrite (renderMermaid_render_fails _ _ _ _ _ _ Hp Hr). split; reflexivity.
Qed.

Lemma render_failure_surfaces_witness :
  fst (renderMermaid (failing_engine ThrownUndefined) "k3x9" DEFAULT_CODE
         (config "dark" DEFAULT_FONT) fresh_adapter) = Rejected ThrownUndefined /\
  calls (snd (renderMermaid (failing_engine ThrownUndefined) "k3x9" DEFAULT_CODE
                (config "dark" DEFAULT_FONT) fresh_adapter)) =
    (calls fresh_adapter ++ prelude (config "dark" DEFAULT_FONT) fresh_adapter
       ++ [CallParse DEFAULT_CODE; CallRender ("merviz-" ++ "k3x9") DEFAULT_CODE])%list.
Proof.
  apply (render_failure_surfaces (failing_engine ThrownUndefined) "k3x9" DEFAULT_CODE
           (config "dark" DEFAULT_FONT) fresh_adapter ThrownUndefined); reflexivity.
Defined.

(** X8: The calls one [renderMermaid] makes to the engine, in their order:
    the settings are applied, twice on the first call of the page and once
    on every later one; then the source is validated, once; then, only
    when validation passed, the graphic is requested, once. *)
Theorem engine_protocol
        (E : Engine) (rnd code : string) (cfg : MermaidConfig) (ad : Adapter) :
  exists tail,
    calls (snd (renderMermaid E rnd code cfg ad)) =
      (calls ad
         ++ repeat (CallInitialize (settings_of cfg)) (if initialized ad then 1 else 2)
         ++ CallParse code :: tail)%list /\
    (tail = [] \/ tail = [CallRender ("merviz-" ++ rnd) code]) /\
    (tail = [] <-> mermaid_parse E (Some (settings_of cfg)) code <> None).
Proof.
  destruct (renderMermaid_cases E rnd code cfg ad) as (res & tail & -> & H).
  exists tail. cbn [snd calls]. split.
  { unfold prelude. destruct (initialized ad); reflexivity. }
  destruct H as [(e & P & -> & _)|(P & -> & _)].
  - split; [left; reflexivity|]. rewrite P. split; [discriminate|reflexivity].
  - split; [right; reflexivity|]. rewrite P. split; [discriminate|congruence].
Qed.

Lemma resolved_closed E rnd code cfg ad m :
  fst (renderMermaid E rnd code cfg ad) = Resolved m -> br_tags_closed m = true.
Proof.
  destruct (renderMermaid_cases E rnd code cfg ad) as (res & tail & -> & H).
  cbn [fst]. intros ->.
  destruct H as [(e & _ & _ & [=])|(P & _ & [(e & _ & [=])|(m0 & _ & [= ->])])].
  apply sanitizeSvg_br_closed.
Qed.

(** X9: Markup that [renderMermaid] resolves with, for whatever engine, has
    all its line-break tags self-closing and is left as it is by the
    normalisation of the export paths. *)
Theorem resolved_markup_normalised
        (E : Engine) (rnd code : string) (cfg : MermaidConfig) (ad : Adapter)
        (m : string) :
  fst (renderMermaid E rnd code cfg ad) = Resolved m ->
  br_tags_closed m = true /\ sanitizeSvg m = m /\
  mermaid_parse E (Some (settings_of cfg)) code = None.
Proof.
  destruct (renderMermaid_cases E rnd code cfg ad) as (res & tail & -> & H).
  cbn [fst]. intros ->.
  destruct H as [(e & _ & _ & [=])|(P & _ & [(e & _ & [=])|(m0 & _ & [= ->])])].
  split; [apply sanitizeSvg_br_closed|]. split; [apply sanitizeSvg_idempotent|exact P].
Qed.

Lemma resolved_markup_normalised_witness :
  br_tags_closed "<svg><text>a<br/>b</text></svg>" = true /\
  sanitizeSvg "<svg><text>a<br/>b</text></svg>" = "<svg><text>a<br/>b</text></svg>" /\
  mermaid_parse sample_engine (Some (settings_of (config "nord" DEFAULT_FONT)))
    DEFAULT_CODE = None.
Proof.
  apply (resolved_markup_normalised sample_engine "k3x9" DEFAULT_CODE
           (config "nord" DEFAULT_FONT) fresh_adapter).
  vm_compute. reflexivity.
Defined.

End AdapterMore.

(** ** The render configuration and the stored settings *)

Module ConfigMore.
Import JsString JsNumber MermaidClient ExportLib App Machine Instances Predicates ConfigProofs.

Lemma config_variables k font :
  themeVariables (config k font) =
    Some (<["fontFamily" := VStr font]>
            (if in_CUSTOM_THEMES k
             then default ∅ (variables <$> CUSTOM_THEMES !! k) else ∅)).
Proof. reflexivity. Qed.

(** X10: Whatever the theme key, the configuration carries the selected font
    both at top level and as the theme variable [fontFamily], and the
    security level [strict]; the other variables are those of the preset
    when the key names one, and there are none otherwise. *)
Theorem font_always_injected (k font : string) :
  fontFamily (config k font) = Some font /\
  (themeVariables (config k font) ≫= (.!! "fontFamily")) = Some (VStr font) /\
  securityLevel (config k font) = Some "strict" /\
  (forall v, v <> "fontFamily" ->
     (themeVariables (config k font) ≫= (.!! v)) =
       (CUSTOM_THEMES !! k ≫= fun p => variables p !! v)).
Proof.
  split; [reflexivity|]. rewrite config_variables. cbn [mbind option_bind].
  split; [apply lookup_insert_eq|]. split; [reflexivity|].
  intros v Hv. rewrite lookup_insert_ne by congruence.
  destruct (in_CUSTOM_THEMES k) eqn:I.
  - destruct (CUSTOM_THEMES !! k) as [p|]; cbn; [reflexivity|apply lookup_empty].
  - unfold in_CUSTOM_THEMES in I. apply orb_false_iff in I. destruct I as [I _].
    apply bool_decide_eq_false in I.
    destruct (CUSTOM_THEMES !! k) as [p|]; [exfalso; apply I; eauto|].
    cbn. apply lookup_empty.
Qed.

Lemma preset_keys k p :
  CUSTOM_THEMES !! k = Some p ->
  (k, p) = ("professionalLight", professionalLight) \/
  (k, p) = ("midnightBlue", midnightBlue) \/
  (k, p) = ("emerald", emerald) \/
  (k, p) = ("nord", nord).
Proof.
  intros H. apply elem_of_list_to_map_2 in H.
  repeat (apply elem_of_cons in H; destruct H as [H|H]; [tauto|]).
  apply elem_of_nil in H. contradiction.
Qed.

(** X11: Every theme the toolbar offers, builtin or preset, reaches the engine
    as one of the five builtin theme names: a builtin name as itself with
    the font as the only variable, a preset as its base theme. *)
Theorem offered_theme_is_builtin (k font : string) :
  In k BUILTIN_THEMES \/ is_Some (CUSTOM_THEMES !! k) ->
  exists b,
    MermaidClient.theme (config k font) = Some b /\
    In b BUILTIN_THEMES /\
    (In k BUILTIN_THEMES ->
     b = k /\ themeVariables (config k font) = Some {["fontFamily" := VStr font]}).
Proof.
  intros [Hb|[p Hp]].
  - assert (Hn : in_CUSTOM_THEMES k = false).
    { cbn in Hb. destruct Hb as [<-|[<-|[<-|[<-|[<-|[]]]]]]; vm_compute; reflexivity. }
    rewrite (config_unknown_key k font Hn). exists k. cbn. tauto.
  - rewrite (config_preset_key k font p Hp). exists (base p). cbn [MermaidClient.theme].
    split; [reflexivity|].
    assert (Hbase : In (base p) BUILTIN_THEMES).
    { destruct (preset_keys k p Hp) as [E|[E|[E|E]]]; injection E as _ ->; cbn; tauto. }
    split; [exact Hbase|].
    intros Hk. exfalso.
    destruct (preset_keys k p Hp) as [E|[E|[E|E]]]; injection E as -> _;
      cbn in Hk; intuition discriminate.
Qed.

Lemma offered_theme_is_builtin_witness :
  exists b,
    MermaidClient.theme (config "midnightBlue" DEFAULT_FONT) = Some b /\
    In b BUILTIN_THEMES /\
    (In "midnightBlue" BUILTIN_THEMES ->
     b = "midnightBlue" /\
     themeVariables (config "midnightBlue" DEFAULT_FONT)
       = Some {["fontFamily" := VStr DEFAULT_FONT]}).
Proof.
  apply (offered_theme_is_builtin "midnightBlue" DEFAULT_FONT).
  right. exists midnightBlue. vm_compute. reflexivity.
Defined.

End ConfigMore.

(** ** The fit engine *)

Module FitMore.
Import JsNumber App Instances Predicates SpecWords NumberProofs FitProofs.
Local Open Scope Q_scope.

Lemma fit_scale_range W H w h : 1 # 10 <= fit_scale W H w h <= 3.
Proof.
  unfold fit_scale.
  generalize (if truthy w then Math_max 0 (W - 16 - 16) / w else 1)
             (if truthy h then Math_max 0 (H - 16 - 16) / h else 1).
  intros x y. minmax_cases.
Qed.




End FitMore.

(** ** The component: storage, timers, zoom, export *)

Module MachineMore.
Import JsString JsNumber MermaidClient ExportLib App Machine Instances MoreInstances
       Predicates SpecWords SanitizeProofs AdapterProofs NumberProofs MachineProofs.

(** *** More of what each piece leaves alone *)

Lemma doRender_frame2 env t cl w :
  localStorage (doRender env t cl w) = localStorage w /\
  editor (doRender env t cl w) = editor w /\
  microtasks (doRender env t cl w) = microtasks w /\
  in_flight (doRender env t cl w) =
    (in_flight w ++
       [(fst (renderMermaid (engine env) (random env (length (render_calls w)))
                (c_code cl) (c_config cl) (adapter w)), c_fit cl)])%list.
Proof.
  unfold doRender. destruct (renderMermaid _ _ _ _ _). cbn. repeat split.
Qed.

Lemma debounce_frame2 w :
  localStorage (debounce_effect w) = localStorage w /\
  in_flight (debounce_effect w) = in_flight w /\
  microtasks (debounce_effect w) = microtasks w /\
  editor (debounce_effect w) = editor w.
Proof.
  unfold debounce_effect. destruct (cleanup w); cbn;
    destruct (autoUpdate (app w)); cbn; repeat split.
Qed.

Lemma fire_due_frame2 env t ts : forall w,
  localStorage (fire_due env t ts w) = localStorage w /\
  exists more, in_flight (fire_due env t ts w) = (in_flight w ++ more)%list /\
               flight_closed more.
Proof.
  induction ts as [|tm ts IH]; intros w; cbn [fire_due].
  - split; [reflexivity|]. exists []. rewrite app_nil_r. split; [reflexivity|].
    intros ? ? [].
  - destruct (due tm <=? t)%nat; [|apply IH].
    destruct (IH (doRender env (due tm) (callback tm) (clearTimeout (timer_id tm) w)))
      as (-> & more & -> & Hm).
    destruct (doRender_frame2 env (due tm) (callback tm) (clearTimeout (timer_id tm) w))
      as (-> & _ & _ & ->).
    split; [reflexivity|]. cbn [clearTimeout in_flight].
    eexists. rewrite <- app_assoc. split; [reflexivity|].
    intros m fit [Hin|Hin]%in_app_or; [|eapply Hm; eauto].
    destruct Hin as [Hin|[]]. injection Hin as Hres _.
    eapply AdapterMore.resolved_closed; eauto.
Qed.

Lemma computeFitScale_zoom_only fit l st :
  computeFitScale fit l st = st \/
  exists W H w h, computeFitScale fit l st = set_zoom (fit_scale W H w h) st.
Proof.
  unfold computeFitScale. destruct fit; cbn; [|left; reflexivity].
  destruct (wrapRect l) as [[W H]|]; [|left; reflexivity].
  destruct (svgRect l) as [[w h]|]; [|left; reflexivity].
  right. eauto.
Qed.

Lemma stored_computeFitScale ls fit l st :
  stored ls st -> stored ls (computeFitScale fit l st).
Proof.
  destruct (computeFitScale_zoom_only fit l st) as [->|(W & H & w & h & ->)]; auto.
Qed.

(** *** Settings and the store *)

Lemma step_stored env ev w :
  stored (localStorage w) (app w) ->
  stored (localStorage (step env ev w)) (app (step env ev w)).
Proof.
  intros Hs. pose proof Hs as (H1 & H2 & H3 & H4).
  destruct ev as [v|v|v|b|b l| | | | | | |chain|t|i|l|l]; cbn [step].
  - destruct (String.eqb v _); [exact Hs|].
    match goal with |- context [debounce_effect ?x] =>
      destruct (debounce_frame x) as (-> & _); destruct (debounce_frame2 x) as (-> & _) end.
    unfold stored; cbn. simplify_map_eq. tauto.
  - destruct (String.eqb v _); [exact Hs|].
    match goal with |- context [debounce_effect ?x] =>
      destruct (debounce_frame x) as (-> & _); destruct (debounce_frame2 x) as (-> & _) end.
    unfold stored; cbn. simplify_map_eq. tauto.
  - destruct (String.eqb v _); [exact Hs|].
    match goal with |- context [debounce_effect ?x] =>
      destruct (debounce_frame x) as (-> & _); destruct (debounce_frame2 x) as (-> & _) end.
    unfold stored; cbn. simplify_map_eq. tauto.
  - destruct (Bool.eqb b _); [exact Hs|].
    match goal with |- context [debounce_effect ?x] =>
      destruct (debounce_frame x) as (-> & _); destruct (debounce_frame2 x) as (-> & _) end.
    unfold stored; cbn. simplify_map_eq. tauto.
  - destruct (Bool.eqb b _); [exact Hs|]. cbn.
    destruct b; [apply stored_computeFitScale|]; exact Hs.
  - destruct (doRender_frame env (clock w) (current_closure (app w)) w) as (-> & _).
    destruct (doRender_frame2 env (clock w) (current_closure (app w)) w) as (-> & _).
    exact Hs.
  - destruct (fitToViewport (app w)); exact Hs.
  - destruct (fitToViewport (app w)); exact Hs.
  - destruct (fitToViewport (app w)); exact Hs.
  - destruct (menu_PNG _ _); exact Hs.
  - destruct (menu_SVG _); exact Hs.
  - exact Hs.
  - cbn. destruct (fire_due_frame env t (timers w) w) as (-> & _).
    destruct (fire_due_frame2 env t (timers w) w) as (-> & _). exact Hs.
  - destruct (in_flight w !! i) as [[[m|e] fit]|]; exact Hs.
  - destruct (microtasks w); [exact Hs|]. cbn. apply stored_computeFitScale, Hs.
  - cbn. apply stored_computeFitScale, Hs.
Qed.

Lemma mount_stored ls t0 : stored (localStorage (mount ls t0)) (app (mount ls t0)).
Proof.
  rewrite mount_app. unfold mount. cbn.
  match goal with |- context [debounce_effect ?x] =>
    destruct (debounce_frame2 x) as (-> & _) end.
  unfold stored. cbn. simplify_map_eq. tauto.
Qed.

Lemma reachable_stored env w : reachable env w -> stored (localStorage w) (app w).
Proof.
  induction 1 as [ls t0|w ev _ IH]; [apply mount_stored|apply step_stored, IH].
Qed.

(** X13: The settings survive a reload: in every state the page can reach, the
    store holds the current text, theme key, auto-update flag and font, so
    a page opened on that store starts with the same text and flag, and
    with the same theme key and font unless they are empty, in which case
    it starts with the defaults. *)
Theorem settings_survive_reload (env : Env) (w : World) :
  reachable env w ->
  let st' := initial_state (localStorage w) in
  stored (localStorage w) (app w) /\
  code st' = code (app w) /\
  autoUpdate st' = autoUpdate (app w) /\
  theme st' = or_else (Some (theme (app w))) "default" /\
  font st' = or_else (Some (font (app w))) DEFAULT_FONT /\
  (theme (app w) <> EmptyString -> theme st' = theme (app w)) /\
  (font (app w) <> EmptyString -> font st' = font (app w)).
Proof.
  intros Hr st'. pose proof (reachable_stored env w Hr) as Hs.
  pose proof Hs as (H1 & H2 & H3 & H4).
  split; [exact Hs|]. unfold st', initial_state. cbn. rewrite H1, H2, H3, H4. cbn.
  split; [reflexivity|]. split.
  { destruct (autoUpdate (app w)); reflexivity. }
  split; [reflexivity|]. split; [reflexivity|].
  split; intros Hne.
  - destruct (theme (app w)); [contradiction|reflexivity].
  - destruct (font (app w)); [contradiction|reflexivity].
Qed.

Lemma settings_survive_reload_witness :
  let w := run sample_env
             [EditCode "flowchart LR; A-->B"; SelectTheme "nord";
              SetAutoUpdate false; SelectFont "Georgia, Times, serif"; Tick 900]
             (mount ∅ 0) in
  let st' := initial_state (localStorage w) in
  stored (localStorage w) (app w) /\
  code st' = code (app w) /\
  autoUpdate st' = autoUpdate (app w) /\
  theme st' = or_else (Some (theme (app w))) "default" /\
  font st' = or_else (Some (font (app w))) DEFAULT_FONT /\
  (theme (app w) <> EmptyString -> theme st' = theme (app w)) /\
  (font (app w) <> EmptyString -> font st' = font (app w)).
Proof.
  apply (settings_survive_reload sample_env).
  apply reachable_run, reach_mount.
Defined.

Example reload_after_changes :
  let w := run sample_env
             [EditCode "flowchart LR; A-->B"; SelectTheme "nord";
              SetAutoUpdate false; SelectFont "Georgia, Times, serif"; Tick 900]
             (mount ∅ 0) in
  let st' := initial_state (localStorage w) in
  (code st', theme st', autoUpdate st', font st')
  = ("flowchart LR; A-->B", "nord", false, "Georgia, Times, serif").
Proof. vm_compute. reflexivity. Qed.

(** *** The pending render *)

Lemma same_settings_refl st : same_settings st st.
Proof. repeat split. Qed.

Lemma same_settings_fit fit l st : same_settings st (computeFitScale fit l st).
Proof.
  destruct (computeFitScale_zoom_only fit l st) as [->|(W & H & w & h & ->)];
    repeat split.
Qed.

Lemma pending_transport w w' :
  (forall tm, In tm (timers w') -> In tm (timers w)) ->
  clock w <= clock w' ->
  next_timer_id w <= next_timer_id w' ->
  same_settings (app w) (app w') ->
  pending_inv w -> pending_inv w'.
Proof.
  intros Ht Hc Hn (S1 & S2 & S3 & S4) Hp tm Hin.
  destruct (Hp tm (Ht tm Hin)) as (P1 & P2 & P3 & P4 & P5).
  unfold pending_ok. rewrite S1, S2, S3, S4. repeat split; try assumption; lia.
Qed.

Lemma debounce_pending w : timers_inv w -> pending_inv (debounce_effect w).
Proof.
  intros Hinv tm Hin.
  destruct (debounce_timers w Hinv) as (Ht & _ & Hn).
  destruct (debounce_frame w) as (Ha & Hk & _).
  rewrite Ht in Hin. unfold pending_ok. rewrite Ha, Hk, Hn.
  destruct (autoUpdate (app w)) eqn:Hau; [|destruct Hin].
  destruct Hin as [<-|[]]. cbn. repeat split; lia.
Qed.

Lemma step_pending env ev w :
  timers_inv w -> pending_inv w -> pending_inv (step env ev w).
Proof.
  intros Hinv Hp.
  destruct ev as [v|v|v|b|b l| | | | | | |chain|t|i|l|l]; cbn [step].
  - destruct (String.eqb v _); [exact Hp|]. apply debounce_pending, Hinv.
  - destruct (String.eqb v _); [exact Hp|]. apply debounce_pending, Hinv.
  - destruct (String.eqb v _); [exact Hp|]. apply debounce_pending, Hinv.
  - destruct (Bool.eqb b _); [exact Hp|]. apply debounce_pending, Hinv.
  - destruct (Bool.eqb b _); [exact Hp|].
    apply (pending_transport w); cbn; auto.
    destruct b; [|repeat split].
    destruct (same_settings_fit true l (set_fitToViewport true (app w))) as (?&?&?&?).
    repeat split; assumption.
  - destruct (doRender_frame env (clock w) (current_closure (app w)) w)
      as (Ha & Ht & _ & Hn & Hk & _).
    apply (pending_transport w); rewrite ?Ha, ?Ht, ?Hn, ?Hk; auto.
    apply same_settings_refl.
  - destruct (fitToViewport (app w)); [exact Hp|].
    apply (pending_transport w); cbn; auto. repeat split.
  - destruct (fitToViewport (app w)); [exact Hp|].
    apply (pending_transport w); cbn; auto. repeat split.
  - destruct (fitToViewport (app w)); [exact Hp|].
    apply (pending_transport w); cbn; auto. repeat split.
  - destruct (menu_PNG _ _); [|exact Hp]. apply (pending_transport w); cbn; auto.
    repeat split.
  - destruct (menu_SVG _); [|exact Hp]. apply (pending_transport w); cbn; auto.
    repeat split.
  - apply (pending_transport w); cbn; auto. repeat split.
  - destruct (fire_due_frame env t (timers w) w) as (Ha & _ & Hn & Hk & _).
    apply (pending_transport w); cbn [with_clock timers clock next_timer_id app].
    + intros tm. rewrite (fire_due_timers env t w Hinv).
      rewrite <- !list_elem_of_In. intros Hin. apply list_elem_of_filter in Hin. tauto.
    + lia.
    + rewrite Hn. lia.
    + rewrite Ha. apply same_settings_refl.
    + exact Hp.
  - destruct (in_flight w !! i) as [[[m|e] fit]|]; [| |exact Hp];
      apply (pending_transport w); cbn; auto; repeat split.
  - destruct (microtasks w); [exact Hp|].
    apply (pending_transport w); cbn; auto. apply same_settings_fit.
  - apply (pending_transport w); cbn; auto. apply same_settings_fit.
Qed.

Lemma mount_pending ls t0 : pending_inv (mount ls t0).
Proof.
  unfold mount.
  match goal with
  | |- pending_inv (setItem _ _ (setItem _ _ (setItem _ _ (setItem _ _ (debounce_effect ?w))))) =>
      assert (H : pending_inv (debounce_effect w))
        by (apply debounce_pending; left; reflexivity);
      exact H
  end.
Qed.

Lemma reachable_pending env w : reachable env w -> pending_inv w.
Proof.
  induction 1 as [ls t0|w ev Hr IH]; [apply mount_pending|].
  apply step_pending; [exact (reachable_timers_inv env w Hr)|exact IH].
Qed.

(** X14: In every state the page can reach at most one debounced render is
    pending; when one is, auto-update is on, the timeout is due within 250
    ms, and the render will use the text and the configuration shown
    now. *)
Theorem pending_render_is_current (env : Env) (w : World) :
  reachable env w ->
  length (timers w) <= 1 /\
  (forall tm, In tm (timers w) ->
     autoUpdate (app w) = true /\
     due tm <= clock w + 250 /\
     c_code (callback tm) = code (app w) /\
     c_config (callback tm) = config (theme (app w)) (font (app w))).
Proof.
  intros Hr. split.
  - destruct (reachable_timers_inv env w Hr) as [->|(tm & -> & _)]; cbn; lia.
  - intros tm Hin. destruct (reachable_pending env w Hr tm Hin) as (?&?&?&?&?).
    repeat split; assumption.
Qed.

Lemma pending_render_is_current_witness :
  let w := run sample_env
             [Tick 1000; EditCode "flowchart TD; A"; SelectTheme "dark"; Tick 1100]
             (mount ∅ 0) in
  length (timers w) <= 1 /\
  (forall tm, In tm (timers w) ->
     autoUpdate (app w) = true /\
     due tm <= clock w + 250 /\
     c_code (callback tm) = code (app w) /\
     c_config (callback tm) = config (theme (app w)) (font (app w))).
Proof.
  apply (pending_render_is_current sample_env).
  apply reachable_run, reach_mount.
Defined.

(** *** Auto-update off, and the manual render *)

Lemma step_render_calls_idle env ev w :
  timers w = [] -> ev <> ClickRender ->
  render_calls (step env ev w) = render_calls w.
Proof.
  intros Ht Hev.
  destruct ev as [v|v|v|b|b l| | | | | | |chain|t|i|l|l]; cbn [step];
    try reflexivity.
  - destruct (String.eqb v _); [reflexivity|].
    match goal with |- context [debounce_effect ?x] =>
      destruct (debounce_frame x) as (_ & _ & _ & ->) end. reflexivity.
  - destruct (String.eqb v _); [reflexivity|].
    match goal with |- context [debounce_effect ?x] =>
      destruct (debounce_frame x) as (_ & _ & _ & ->) end. reflexivity.
  - destruct (String.eqb v _); [reflexivity|].
    match goal with |- context [debounce_effect ?x] =>
      destruct (debounce_frame x) as (_ & _ & _ & ->) end. reflexivity.
  - destruct (Bool.eqb b _); [reflexivity|].
    match goal with |- context [debounce_effect ?x] =>
      destruct (debounce_frame x) as (_ & _ & _ & ->) end. reflexivity.
  - destruct (Bool.eqb b _); reflexivity.
  - contradiction.
  - destruct (fitToViewport (app w)); reflexivity.
  - destruct (fitToViewport (app w)); reflexivity.
  - destruct (fitToViewport (app w)); reflexivity.
  - destruct (menu_PNG _ _); reflexivity.
  - destruct (menu_SVG _); reflexivity.
  - rewrite Ht. reflexivity.
  - destruct (in_flight w !! i) as [[[m|e] fit]|]; reflexivity.
  - destruct (microtasks w); reflexivity.
Qed.

(** X15: With auto-update off nothing is pending, and nothing but the Render
    button starts a render: no edit, no change of theme or font and no
    passing of time does. *)
Theorem auto_update_off_is_manual (env : Env) (w : World) :
  reachable env w ->
  autoUpdate (app w) = false ->
  timers w = [] /\
  (forall ev, ev <> ClickRender ->
     render_calls (step env ev w) = render_calls w) /\
  render_calls (step env ClickRender w) =
    (render_calls w ++
       [{| at_time := clock w; with_code := code (app w);
           with_config := config (theme (app w)) (font (app w)) |}])%list.
Proof.
  intros Hr Hoff.
  assert (Ht : timers w = []).
  { destruct (timers w) as [|tm ts] eqn:E; [reflexivity|].
    destruct (reachable_pending env w Hr tm) as (Hau & _); [rewrite E; left; reflexivity|].
    congruence. }
  split; [exact Ht|]. split.
  - intros ev Hev. apply step_render_calls_idle; assumption.
  - cbn [step].
    destruct (doRender_frame env (clock w) (current_closure (app w)) w)
      as (_ & _ & _ & _ & _ & _ & ->). reflexivity.
Qed.

Lemma auto_update_off_is_manual_witness :
  let w := run sample_env [EditCode "flowchart TD; A"; SetAutoUpdate false] (mount ∅ 0) in
  timers w = [] /\
  (forall ev, ev <> ClickRender ->
     render_calls (step sample_env ev w) = render_calls w) /\
  render_calls (step sample_env ClickRender w) =
    (render_calls w ++
       [{| at_time := clock w; with_code := code (app w);
           with_config := config (theme (app w)) (font (app w)) |}])%list.
Proof.
  apply (auto_update_off_is_manual sample_env
           (run sample_env [EditCode "flowchart TD; A"; SetAutoUpdate false] (mount ∅ 0))).
  - apply reachable_run, reach_mount.
  - reflexivity.
Defined.

(** X16: The Render button renders at once and leaves the debounced render
    pending: an edit followed by a click gives two renders of the new
    text, one at the click and one when the timeout fires. *)
Theorem manual_render_keeps_timeout (env : Env) (w : World) (v : string) (t : nat) :
  reachable env w ->
  autoUpdate (app w) = true ->
  v <> code (app w) ->
  clock w + 250 <= t ->
  render_calls (run env [EditCode v; ClickRender; Tick t] w) =
    (render_calls w ++
       [{| at_time := clock w; with_code := v;
           with_config := config (theme (app w)) (font (app w)) |};
        {| at_time := clock w + 250; with_code := v;
           with_config := config (theme (app w)) (font (app w)) |}])%list.
Proof.
  intros Hr Hau Hv Ht.
  change (run env [EditCode v; ClickRender; Tick t] w)
    with (step env (Tick t) (step env ClickRender (step env (EditCode v) w))).
  destruct (edit_schedules env v w (reachable_timers_inv env w Hr) Hau Hv)
    as (T1 & A1 & K1 & R1).
  revert T1 A1 K1 R1. generalize (step env (EditCode v) w). intros w1 T1 A1 K1 R1.
  change (step env ClickRender w1)
    with (doRender env (clock w1) (current_closure (app w1)) w1).
  destruct (doRender_frame env (clock w1) (current_closure (app w1)) w1)
    as (_ & T2 & _ & _ & _ & _ & R2).
  revert T2 R2. generalize (doRender env (clock w1) (current_closure (app w1)) w1).
  intros w2 T2 R2. rewrite T1 in T2.
  rewrite (tick_fire env t w2 _ T2) by (cbn; lia).
  rewrite R2, R1, <- app_assoc. cbn. rewrite A1, K1. reflexivity.
Qed.

Lemma manual_render_keeps_timeout_witness :
  render_calls (run sample_env [EditCode "flowchart TD; A"; ClickRender; Tick 400]
                  (mount ∅ 0)) =
    (render_calls (mount ∅ 0) ++
       [{| at_time := clock (mount ∅ 0); with_code := "flowchart TD; A";
           with_config := config (theme (app (mount ∅ 0))) (font (app (mount ∅ 0))) |};
        {| at_time := clock (mount ∅ 0) + 250; with_code := "flowchart TD; A";
           with_config := config (theme (app (mount ∅ 0))) (font (app (mount ∅ 0))) |}])%list.
Proof.
  apply (manual_render_keeps_timeout sample_env (mount ∅ 0) "flowchart TD; A" 400).
  - apply reach_mount.
  - reflexivity.
  - vm_compute. discriminate.
  - vm_compute. lia.
Defined.

(** *** The zoom factor *)

Lemma zoom_inv_fit fit l st : zoom_inv st -> zoom_inv (computeFitScale fit l st).
Proof.
  intros Hz.
  destruct (computeFitScale_zoom_only fit l st) as [->|(W & H & w & h & ->)]; [exact Hz|].
  unfold zoom_inv. cbn. destruct (FitMore.fit_scale_range W H w h). split; assumption.
Qed.

Lemma zoom_inv_in z : (1 # 10 <= z)%Q -> (z <= 3)%Q ->
  (1 # 10 <= zoomIn z)%Q /\ (zoomIn z <= 3)%Q.
Proof.
  intros H1 H2. unfold zoomIn. pose proof (toFixed2_near (z + (1 # 10))) as [N1 N2].
  revert N1 N2. generalize (toFixed2 (z + (1 # 10))). intros r N1 N2.
  split; minmax_cases.
Qed.

Lemma zoom_inv_out z : (1 # 10 <= z)%Q -> (z <= 3)%Q ->
  (2 # 10 <= zoomOut z)%Q /\ (zoomOut z <= 3)%Q.
Proof.
  intros H1 H2. unfold zoomOut. pose proof (toFixed2_near (z - (1 # 10))) as [N1 N2].
  revert N1 N2. generalize (toFixed2 (z - (1 # 10))). intros r N1 N2.
  split; minmax_cases.
Qed.

Lemma step_zoom_inv env ev w : zoom_inv (app w) -> zoom_inv (app (step env ev w)).
Proof.
  intros Hz. pose proof Hz as [Z1 Z2].
  destruct ev as [v|v|v|b|b l| | | | | | |chain|t|i|l|l]; cbn [step].
  - destruct (String.eqb v _); [exact Hz|].
    match goal with |- context [debounce_effect ?x] =>
      destruct (debounce_frame x) as (-> & _) end. exact Hz.
  - destruct (String.eqb v _); [exact Hz|].
    match goal with |- context [debounce_effect ?x] =>
      destruct (debounce_frame x) as (-> & _) end. exact Hz.
  - destruct (String.eqb v _); [exact Hz|].
    match goal with |- context [debounce_effect ?x] =>
      destruct (debounce_frame x) as (-> & _) end. exact Hz.
  - destruct (Bool.eqb b _); [exact Hz|].
    match goal with |- context [debounce_effect ?x] =>
      destruct (debounce_frame x) as (-> & _) end. exact Hz.
  - destruct (Bool.eqb b _); [exact Hz|]. cbn.
    destruct b; [apply zoom_inv_fit|]; exact Hz.
  - destruct (doRender_frame env (clock w) (current_closure (app w)) w) as (-> & _).
    exact Hz.
  - destruct (fitToViewport (app w)); [exact Hz|]. cbn.
    destruct (zoom_inv_in _ Z1 Z2). split; assumption.
  - destruct (fitToViewport (app w)); [exact Hz|]. cbn.
    destruct (zoom_inv_out _ Z1 Z2). split; [|assumption].
    unfold zoom_inv. cbn. lra.
  - destruct (fitToViewport (app w)); [exact Hz|]. split; cbn; unfold resetZoom; lra.
  - destruct (menu_PNG _ _); exact Hz.
  - destruct (menu_SVG _); exact Hz.
  - exact Hz.
  - cbn. destruct (fire_due_frame env t (timers w) w) as (-> & _). exact Hz.
  - destruct (in_flight w !! i) as [[[m|e] fit]|]; exact Hz.
  - destruct (microtasks w); [exact Hz|]. cbn. apply zoom_inv_fit, Hz.
  - cbn. apply zoom_inv_fit, Hz.
Qed.

(** X17: In every state the page can reach the zoom factor lies between 0.1 and
    3, whatever mix of fitting and manual steps led there; and a zoom-out
    step taken from such a state never goes below 0.2. *)
Theorem zoom_stays_in_range (env : Env) (w : World) :
  reachable env w ->
  (1 # 10 <= zoom (app w) <= 3)%Q /\
  (fitToViewport (app w) = false ->
   (2 # 10 <= zoom (app (step env ClickZoomOut w)))%Q).
Proof.
  intros Hr.
  assert (Hz : zoom_inv (app w)).
  { induction Hr as [ls t0|w ev _ IH].
    - rewrite mount_app. split; cbn; lra.
    - apply step_zoom_inv, IH. }
  split; [exact Hz|]. intros Hf. cbn [step]. rewrite Hf. cbn.
  destruct Hz as [Z1 Z2]. apply (zoom_inv_out _ Z1 Z2).
Qed.

Lemma zoom_stays_in_range_witness :
  let w := run sample_env
             (ClickRender :: Settle 0 :: RunMicrotask tall_layout
                :: SetFit false tall_layout :: repeat ClickZoomIn 30) (mount ∅ 0) in
  (1 # 10 <= zoom (app w) <= 3)%Q /\
  (fitToViewport (app w) = false ->
   (2 # 10 <= zoom (app (step sample_env ClickZoomOut w)))%Q).
Proof.
  apply (zoom_stays_in_range sample_env).
  apply reachable_run, reach_mount.
Defined.

(** *** The markup shown and exported *)

Lemma flight_closed_app l1 l2 :
  flight_closed l1 -> flight_closed l2 -> flight_closed (l1 ++ l2).
Proof.
  intros H1 H2 m fit [Hin|Hin]%in_app_or; [eapply H1|eapply H2]; eauto.
Qed.

Lemma flight_closed_remove i l : flight_closed l -> flight_closed (remove_nth i l).
Proof.
  intros H m fit Hin. apply (H m fit). unfold remove_nth in Hin.
  apply in_app_or in Hin. rewrite <- !list_elem_of_In in *.
  destruct Hin as [Hin|Hin].
  - apply elem_of_take in Hin. destruct Hin as (j & Hj & _).
    eapply list_elem_of_lookup_2; eauto.
  - apply list_elem_of_lookup_1 in Hin. destruct Hin as (j & Hj).
    rewrite lookup_drop in Hj. eapply list_elem_of_lookup_2; eauto.
Qed.

Lemma svg_downloads_ok_snoc ds d :
  svg_downloads_ok ds ->
  (forall name content, d = SvgFile name content ->
     name = "diagram.svg" /\ br_tags_closed content = true /\ populated content = true) ->
  svg_downloads_ok (ds ++ [d]).
Proof.
  intros H Hd name content [Hin|[Hin|[]]]%in_app_or; [eapply H; eauto|].
  apply Hd. exact Hin.
Qed.

Lemma closed_sanitize_id m : br_tags_closed m = true -> sanitizeSvg m = m.
Proof. intros H. apply (closed_fixed (String.length m)); [lia|exact H]. Qed.

Lemma step_normal_inv env ev w : normal_inv w -> normal_inv (step env ev w).
Proof.
  intros Hn. pose proof Hn as (N1 & N2 & N3).
  destruct ev as [v|v|v|b|b l| | | | | | |chain|t|i|l|l]; cbn [step].
  - destruct (String.eqb v _); [exact Hn|]. unfold normal_inv.
    match goal with |- context [debounce_effect ?x] =>
      destruct (debounce_frame x) as (-> & _ & -> & _);
      destruct (debounce_frame2 x) as (_ & -> & _) end. exact Hn.
  - destruct (String.eqb v _); [exact Hn|]. unfold normal_inv.
    match goal with |- context [debounce_effect ?x] =>
      destruct (debounce_frame x) as (-> & _ & -> & _);
      destruct (debounce_frame2 x) as (_ & -> & _) end. exact Hn.
  - destruct (String.eqb v _); [exact Hn|]. unfold normal_inv.
    match goal with |- context [debounce_effect ?x] =>
      destruct (debounce_frame x) as (-> & _ & -> & _);
      destruct (debounce_frame2 x) as (_ & -> & _) end. exact Hn.
  - destruct (Bool.eqb b _); [exact Hn|]. unfold normal_inv.
    match goal with |- context [debounce_effect ?x] =>
      destruct (debounce_frame x) as (-> & _ & -> & _);
      destruct (debounce_frame2 x) as (_ & -> & _) end. exact Hn.
  - destruct (Bool.eqb b _); [exact Hn|]. unfold normal_inv. cbn.
    destruct b; [|exact Hn].
    destruct (computeFitScale_frame true l (set_fitToViewport true (app w))) as (-> & _).
    exact Hn.
  - unfold normal_inv.
    destruct (doRender_frame env (clock w) (current_closure (app w)) w)
      as (-> & _ & _ & _ & _ & -> & _).
    destruct (doRender_frame2 env (clock w) (current_closure (app w)) w)
      as (_ & _ & _ & ->).
    split; [exact N1|]. split; [|exact N3].
    apply flight_closed_app; [exact N2|].
    intros m fit [Hin|[]]. injection Hin as Hres _.
    eapply AdapterMore.resolved_closed; eauto.
  - destruct (fitToViewport (app w)); exact Hn.
  - destruct (fitToViewport (app w)); exact Hn.
  - destruct (fitToViewport (app w)); exact Hn.
  - destruct (menu_PNG _ _) as [d|] eqn:E; [|exact Hn].
    split; [exact N1|]. split; [exact N2|]. cbn.
    apply svg_downloads_ok_snoc; [exact N3|].
    intros name content ->. apply menu_PNG_inv in E. destruct E as [_ E]. discriminate E.
  - destruct (menu_SVG _) as [d|] eqn:E; [|exact Hn].
    split; [exact N1|]. split; [exact N2|]. cbn.
    apply svg_downloads_ok_snoc; [exact N3|].
    intros name content ->. unfold menu_SVG, onExportSvg in E.
    destruct (populated (svg (app w))) eqn:P; cbn in E; [|discriminate E].
    injection E as <- <-. unfold downloadSvg_content.
    rewrite (closed_sanitize_id _ N1). repeat split; assumption.
  - exact Hn.
  - unfold normal_inv. cbn [with_clock app in_flight downloads].
    destruct (fire_due_frame env t (timers w) w) as (-> & _ & _ & _ & ->).
    destruct (fire_due_frame2 env t (timers w) w) as (_ & more & -> & Hm).
    split; [exact N1|]. split; [|exact N3]. apply flight_closed_app; assumption.
  - destruct (in_flight w !! i) as [[[m|e] fit]|] eqn:E; [| |exact Hn].
    + split; [|split; [|exact N3]]; cbn.
      * apply (N2 m fit). apply list_elem_of_In. eapply list_elem_of_lookup_2; eauto.
      * apply flight_closed_remove, N2.
    + split; [|split; [|exact N3]]; cbn; [reflexivity|].
      apply flight_closed_remove, N2.
  - destruct (microtasks w); [exact Hn|]. unfold normal_inv. cbn.
    destruct (computeFitScale_frame b l (app w)) as (-> & _). exact Hn.
  - unfold normal_inv. cbn.
    destruct (computeFitScale_frame (fitToViewport (app w)) l (app w)) as (-> & _).
    exact Hn.
Qed.

Lemma mount_normal_inv ls t0 : normal_inv (mount ls t0).
Proof.
  unfold normal_inv. rewrite mount_app, mount_downloads.
  split; [reflexivity|]. split; [|intros ? ? []].
  unfold mount. cbn.
  match goal with |- context [debounce_effect ?x] =>
    destruct (debounce_frame2 x) as (_ & -> & _) end.
  intros ? ? [].
Qed.

Lemma reachable_normal_inv env w : reachable env w -> normal_inv w.
Proof.
  induction 1 as [ls t0|w ev _ IH]; [apply mount_normal_inv|apply step_normal_inv, IH].
Qed.

(** X18: In every state the page can reach the stored graphic is normalised
    markup, so both export paths hand on exactly what is displayed; and
    every vector file the page has offered is named [diagram.svg] and
    holds non-empty, normalised markup. *)
Theorem export_is_what_is_shown (env : Env) (w : World) :
  reachable env w ->
  br_tags_closed (svg (app w)) = true /\
  downloadSvg_content (svg (app w)) = svg (app w) /\
  (forall scale, png_markup (downloadPng (builtins env) (svg (app w)) scale) = svg (app w)) /\
  (forall name content,
     In (SvgFile name content) (downloads w) ->
     name = "diagram.svg" /\ br_tags_closed content = true /\ populated content = true).
Proof.
  intros Hr. destruct (reachable_normal_inv env w Hr) as (N1 & _ & N3).
  split; [exact N1|]. split; [apply closed_sanitize_id, N1|].
  split; [intros scale; apply closed_sanitize_id, N1|exact N3].
Qed.

Lemma export_is_what_is_shown_witness :
  let w := run sample_env [ClickRender; Settle 0; ClickExportSvg] (mount ∅ 0) in
  br_tags_closed (svg (app w)) = true /\
  downloadSvg_content (svg (app w)) = svg (app w) /\
  (forall scale,
     png_markup (downloadPng (builtins sample_env) (svg (app w)) scale) = svg (app w)) /\
  (forall name content,
     In (SvgFile name content) (downloads w) ->
     name = "diagram.svg" /\ br_tags_closed content = true /\ populated content = true).
Proof.
  apply (export_is_what_is_shown sample_env).
  apply reachable_run, reach_mount.
Defined.

Example svg_export_of_sample :
  downloads (run sample_env [ClickRender; Settle 0; ClickExportSvg] (mount ∅ 0))
  = [SvgFile "diagram.svg" "<svg><text>a<br/>b</text></svg>"].
Proof. vm_compute. reflexivity. Qed.

(** X19: While an error is stored, which is what the preview then shows, no
    file can be exported: both export handlers return without a download. *)
Theorem no_export_while_error (env : Env) (w : World) :
  reachable env w ->
  error_populated (error (app w)) = true ->
  svg (app w) = EmptyString /\
  downloads (step env ClickExportPng w) = downloads w /\
  downloads (step env ClickExportSvg w) = downloads w.
Proof.
  intros Hr He.
  assert (Hs : svg (app w) = EmptyString).
  { destruct (reachable_result_inv env w Hr) as [H|H]; [|exact H].
    rewrite H in He. discriminate He. }
  split; [exact Hs|]. cbn [step]. unfold menu_PNG, menu_SVG, onExportPng, onExportSvg.
  rewrite Hs. split; reflexivity.
Qed.

Lemma no_export_while_error_witness :
  let w := run sample_env [EditCode "flowchar"; ClickRender; Settle 0] (mount ∅ 0) in
  svg (app w) = EmptyString /\
  downloads (step sample_env ClickExportPng w) = downloads w /\
  downloads (step sample_env ClickExportSvg w) = downloads w.
Proof.
  apply (no_export_while_error sample_env).
  - apply reachable_run, reach_mount.
  - vm_compute. reflexivity.
Defined.

(** *** Renders in flight *)

(** X20: A render in flight is never cancelled: only the settling of its
    promise takes it off the list, and every other event leaves the list
    as it is or adds to its end. *)
Theorem in_flight_not_cancelled (env : Env) (ev : event) (w : World) :
  (forall i, ev <> Settle i) ->
  exists more, in_flight (step env ev w) = (in_flight w ++ more)%list.
Proof.
  intros Hev.
  destruct ev as [v|v|v|b|b l| | | | | | |chain|t|i|l|l]; cbn [step];
    try (exists []; rewrite app_nil_r; reflexivity).
  - destruct (String.eqb v _); [exists []; rewrite app_nil_r; reflexivity|].
    match goal with |- context [debounce_effect ?x] =>
      destruct (debounce_frame2 x) as (_ & -> & _) end.
    exists []. rewrite app_nil_r. reflexivity.
  - destruct (String.eqb v _); [exists []; rewrite app_nil_r; reflexivity|].
    match goal with |- context [debounce_effect ?x] =>
      destruct (debounce_frame2 x) as (_ & -> & _) end.
    exists []. rewrite app_nil_r. reflexivity.
  - destruct (String.eqb v _); [exists []; rewrite app_nil_r; reflexivity|].
    match goal with |- context [debounce_effect ?x] =>
      destruct (debounce_frame2 x) as (_ & -> & _) end.
    exists []. rewrite app_nil_r. reflexivity.
  - destruct (Bool.eqb b _); [exists []; rewrite app_nil_r; reflexivity|].
    match goal with |- context [debounce_effect ?x] =>
      destruct (debounce_frame2 x) as (_ & -> & _) end.
    exists []. rewrite app_nil_r. reflexivity.
  - destruct (Bool.eqb b _); exists []; rewrite app_nil_r; reflexivity.
  - destruct (doRender_frame2 env (clock w) (current_closure (app w)) w)
      as (_ & _ & _ & ->). eauto.
  - destruct (fitToViewport (app w)); exists []; rewrite app_nil_r; reflexivity.
  - destruct (fitToViewport (app w)); exists []; rewrite app_nil_r; reflexivity.
  - destruct (fitToViewport (app w)); exists []; rewrite app_nil_r; reflexivity.
  - destruct (menu_PNG _ _); exists []; rewrite app_nil_r; reflexivity.
  - destruct (menu_SVG _); exists []; rewrite app_nil_r; reflexivity.
  - cbn. destruct (fire_due_frame2 env t (timers w) w) as (_ & more & -> & _). eauto.
  - exfalso. apply (Hev i). reflexivity.
  - destruct (microtasks w); exists []; rewrite app_nil_r; reflexivity.
Qed.

Lemma in_flight_not_cancelled_witness :
  exists more,
    in_flight (step sample_env (EditCode "flowchart TD; B")
                 (run sample_env [ClickRender] (mount ∅ 0)))
    = (in_flight (run sample_env [ClickRender] (mount ∅ 0)) ++ more)%list.
Proof.
  apply (in_flight_not_cancelled sample_env (EditCode "flowchart TD; B")).
  intros i. discriminate.
Defined.

End MachineMore.

(** ** Double click: the selection and the walk *)

Module LocateMore.
Import JsString App Instances Predicates SpecWords LocateProofs.

Lemma pick_take n : forall chain, pick n chain = pick n (take n chain).
Proof.
  induction n as [|n IH]; intros [|c chain]; try reflexivity.
  cbn [pick take]. destruct (_ && _); [reflexivity|apply IH].
Qed.

Lemma pick_shape n : forall chain c,
  pick n chain = Some c ->
  In c chain /\ populated (trim c) = true /\
  (String.length (trim c) <= 120 \/ count_lines (trim c) <= 3).
Proof.
  induction n as [|n IH]; intros [|c0 chain] c; try discriminate.
  cbn [pick]. destruct (populated (trim c0)) eqn:P; cbn [andb].
  - destruct (String.length (trim c0) <=? 120)%nat eqn:L; cbn [orb].
    + intros [= <-]. apply Nat.leb_le in L. split; [left; reflexivity|]. tauto.
    + destruct (count_lines (trim c0) <=? 3)%nat eqn:C.
      * intros [= <-]. apply Nat.leb_le in C. split; [left; reflexivity|]. tauto.
      * intros H. destruct (IH _ _ H) as (? & ? & ?). split; [right; assumption|]. tauto.
  - intros H. destruct (IH _ _ H) as (? & ? & ?). split; [right; assumption|]. tauto.
Qed.

(** X22: The walk from the clicked element looks at six elements at most: what
    lies further up never matters.  The element it picks is one of those,
    its text is not blank and has at most 120 characters or at most three
    lines; when none of the six qualifies, the editor is left as it is. *)
Theorem walk_is_bounded (code : string) (ed : option Editor) (chain : list string) :
  onPreviewDoubleClick code ed chain = onPreviewDoubleClick code ed (take 6 chain) /\
  (forall c, pick 6 chain = Some c ->
     In c (take 6 chain) /\ populated (trim c) = true /\
     (String.length (trim c) <= 120 \/ count_lines (trim c) <= 3)) /\
  (pick 6 chain = None -> onPreviewDoubleClick code ed chain = ed).
Proof.
  split; [|split].
  - destruct chain as [|c chain]; [reflexivity|].
    unfold onPreviewDoubleClick. cbn [take].
    change (c :: take 5 chain) with (take 6 (c :: chain)).
    rewrite <- pick_take. reflexivity.
  - intros c H. rewrite pick_take in H. apply (pick_shape 6). exact H.
  - intros H. unfold onPreviewDoubleClick. destruct chain; [reflexivity|].
    rewrite H. reflexivity.
Qed.

Example walk_stops_after_six :
  onPreviewDoubleClick DEFAULT_CODE (Some {| focused := false; selection := None |})
    [EmptyString; " "; EmptyString; EmptyString; EmptyString; EmptyString; "Start"]
  = Some {| focused := false; selection := None |}.
Proof. vm_compute. reflexivity. Qed.

Lemma collapse_single s :
  spaces_single false (replace_all match_spaces " " 0 s) = true /\
  spaces_single true (replace_all match_spaces " " (span is_space s) s) = true.
Proof.
  induction s as [|c s [IH1 IH2]]; [split; reflexivity|].
  cbn [span replace_all]. unfold match_spaces. cbn [span].
  destruct (is_space c) eqn:E.
  - split; [|exact IH2].
    change (spaces_single false (String " " (replace_all match_spaces " " (span is_space s) s))
            = true).
    cbn. exact IH2.
  - cbn [spaces_single]. rewrite E. auto.
Qed.

Lemma spaces_single_weaken b s : spaces_single b s = true -> spaces_single false s = true.
Proof.
  destruct s as [|c s]; [reflexivity|]. cbn. destruct (is_space c); [|auto].
  destruct b; [|auto]. rewrite andb_false_r. discriminate.
Qed.

Lemma spaces_single_sdrop n : forall s b,
  spaces_single b s = true -> spaces_single false (sdrop n s) = true.
Proof.
  induction n as [|n IH]; intros s b H.
  - exact (spaces_single_weaken b s H).
  - destruct s as [|c s]; [reflexivity|]. cbn [sdrop]. cbn [spaces_single] in H.
    destruct (is_space c).
    + apply andb_prop in H. destruct H as [_ H]. exact (IH s true H).
    + exact (IH s false H).
Qed.

Lemma skip_spaces_head s : span is_space (skip_spaces s) = 0.
Proof.
  unfold skip_spaces. induction s as [|c s IH]; [reflexivity|].
  cbn [span]. destruct (is_space c) eqn:E.
  - cbn [sdrop]. exact IH.
  - cbn [sdrop span]. rewrite E. reflexivity.
Qed.

Lemma head_single s :
  span is_space s = 0 -> spaces_single false s = true -> spaces_single true s = true.
Proof.
  destruct s as [|c s]; [reflexivity|]. cbn. destruct (is_space c); [discriminate|auto].
Qed.

Lemma trim_end_single s : forall b,
  spaces_single b s = true -> spaces_single b (trim_end s) = true.
Proof.
  induction s as [|c s IH]; intros b H; [reflexivity|].
  cbn [trim_end]. cbn [spaces_single] in H.
  destruct (trim_end s) as [|a t] eqn:T.
  - destruct (is_space c) eqn:E; [reflexivity|]. cbn. rewrite E. reflexivity.
  - cbn [spaces_single]. destruct (is_space c).
    + apply andb_prop in H. destruct H as [H1 H2]. rewrite H1. exact (IH true H2).
    + exact (IH false H).
Qed.

Lemma trim_end_ends s : ends_space (trim_end s) = false.
Proof.
  induction s as [|c s IH]; [reflexivity|].
  cbn [trim_end]. destruct (trim_end s) as [|a t] eqn:T.
  - destruct (is_space c) eqn:E; [reflexivity|]. cbn. exact E.
  - exact IH.
Qed.

Lemma walk_is_bounded_witness :
  In "Do thing" (take 6 ["  "; "Do thing"]) /\
  populated (trim "Do thing") = true /\
  (String.length (trim "Do thing") <= 120 \/ count_lines (trim "Do thing") <= 3).
Proof.
  apply (proj1 (proj2 (walk_is_bounded DEFAULT_CODE None ["  "; "Do thing"]))).
  reflexivity.
Defined.

(** X23: the text [focusEditorAtText] searches the code for has its white
    space normalised: whatever the label is, the query holds no white
    space other than single spaces between other characters, none at its
    head and none at its end. *)
Theorem query_is_single_spaced (raw : string) :
  let q := trim (replace_all match_spaces " " 0 raw) in
  spaces_single true q = true /\ ends_space q = false.
Proof.
  cbv zeta. unfold trim. split; [|apply trim_end_ends].
  apply trim_end_single. apply head_single; [apply skip_spaces_head|].
  unfold skip_spaces. apply (spaces_single_sdrop _ _ false).
  apply collapse_single.
Qed.

End LocateMore.

(* ===================================================================== *)
(** ** The split between editor and preview *)
(* ===================================================================== *)

Module SplitterMore.
Import JsString JsNumber App Splitter Instances NumberProofs.

Lemma move_pct_range d x : (20 <= move_pct d x <= 80)%Q.
Proof.
  unfold move_pct. cbv zeta.
  generalize ((x - rect_left d) / rect_width d * 100)%Q. intros m.
  minmax_cases.
Qed.

Lemma initial_leftPct_range B ls : (20 <= initial_leftPct B ls <= 80)%Q.
Proof.
  unfold initial_leftPct.
  destruct (js_Number B _) as [v|]; [|lra].
  minmax_cases.
Qed.

Lemma String_of_round_proper x y : (x == y)%Q -> String_of_round x = String_of_round y.
Proof. intros H. unfold String_of_round. rewrite (Math_round_proper _ _ H). reflexivity. Qed.

Lemma setLeftPct_spec pct p :
  pane_store p !! split_key = Some (String_of_round (leftPct p)) ->
  (leftPct (setLeftPct pct p) == pct)%Q /\
  pane_store (setLeftPct pct p) !! split_key
    = Some (String_of_round (leftPct (setLeftPct pct p))) /\
  dragging (setLeftPct pct p) = dragging p /\
  listeners (setLeftPct pct p) = listeners p.
Proof.
  intros Hs. unfold setLeftPct.
  destruct (Qeq_bool pct (leftPct p)) eqn:E.
  - apply Qeq_bool_iff in E.
    split; [symmetry; exact E|]. split; [exact Hs|]. split; reflexivity.
  - cbn. split; [reflexivity|]. split; [|split; reflexivity].
    unfold split_key. simplify_map_eq. reflexivity.
Qed.

Lemma onMove_spec x l d p :
  pane_store p !! split_key = Some (String_of_round (leftPct p)) ->
  (leftPct (onMove x l d p) == move_pct d x)%Q /\
  pane_store (onMove x l d p) !! split_key
    = Some (String_of_round (leftPct (onMove x l d p))) /\
  dragging (onMove x l d p) = dragging p.
Proof.
  intros Hs. destruct (setLeftPct_spec (move_pct d x) p Hs) as (A & B & C & _).
  unfold onMove. cbn. auto.
Qed.

Lemma last_None_nil {A} (l : list A) : last l = None -> l = [].
Proof.
  destruct l as [|a l]; [reflexivity|]. intros H. exfalso.
  revert a H. induction l as [|b l IH]; intros a H; [discriminate|].
  exact (IH b H).
Qed.

Lemma fold_onMove x l ds : forall p,
  pane_store p !! split_key = Some (String_of_round (leftPct p)) ->
  let p' := fold_left (fun p d => onMove x l d p) ds p in
  pane_store p' !! split_key = Some (String_of_round (leftPct p')) /\
  dragging p' = dragging p /\
  match last ds with
  | Some d => (leftPct p' == move_pct d x)%Q
  | None => leftPct p' = leftPct p
  end.
Proof.
  induction ds as [|d ds IH]; intros p Hs; cbn zeta.
  - cbn. auto.
  - cbn [fold_left].
    destruct (onMove_spec x l d p Hs) as (A & B & C).
    destruct (IH (onMove x l d p) B) as (A' & B' & C'). cbv zeta in *.
    split; [exact A'|]. split; [congruence|].
    destruct ds as [|d' ds'].
    + cbn [fold_left last]. exact A.
    + change (last (d :: d' :: ds')) with (last (d' :: ds')).
      destruct (last (d' :: ds')) eqn:E; [exact C'|].
      apply last_None_nil in E. discriminate.
Qed.

Lemma fold_onUp ds : forall p,
  let p' := fold_left (fun p d => onUp d p) ds p in
  leftPct p' = leftPct p /\
  pane_store p' !! split_key
    = match last ds with
      | Some d => Some (String_of_round (latest d))
      | None => pane_store p !! split_key
      end.
Proof.
  induction ds as [|d ds IH]; intros p; cbn zeta.
  - cbn. auto.
  - cbn [fold_left]. destruct (IH (onUp d p)) as (A & B). cbv zeta in *.
    split; [rewrite A; reflexivity|].
    rewrite B. destruct ds as [|d' ds'].
    + cbn. unfold split_key. simplify_map_eq. reflexivity.
    + change (last (d :: d' :: ds')) with (last (d' :: ds')).
      destruct (last (d' :: ds')) eqn:E; [reflexivity|].
      apply last_None_nil in E. discriminate.
Qed.

Lemma last_map_latest x ds :
  last (map (fun d => {| rect_left := rect_left d; rect_width := rect_width d;
                         latest := move_pct d x; drag_fit := drag_fit d |}) ds)
  = (fun d => {| rect_left := rect_left d; rect_width := rect_width d;
                 latest := move_pct d x; drag_fit := drag_fit d |}) <$> last ds.
Proof.
  induction ds as [|d ds IH]; [reflexivity|].
  destruct ds as [|d' ds']; [reflexivity|].
  change (last (d :: d' :: ds')) with (last (d' :: ds')).
  rewrite <- IH. reflexivity.
Qed.

Lemma mount_pane_inv B ls : pane_inv (pane_mount B ls).
Proof.
  unfold pane_inv, pane_mount. cbn. split; [apply initial_leftPct_range|].
  split; [|exact I]. unfold split_key. simplify_map_eq. reflexivity.
Qed.

Lemma step_pane_inv ev p : pane_inv p -> pane_inv (pane_step ev p).
Proof.
  intros (R & S & L). destruct ev as [[[rl rw]|]|x l|]; unfold pane_inv.
  - cbn. split; [exact R|]. split; [exact S|].
    rewrite last_snoc. cbn. split; reflexivity.
  - cbn. split; [exact R|]. split; [exact S|].
    destruct (last (listeners p)); [|exact I]. split; [apply L|reflexivity].
  - cbn [pane_step leftPct pane_store listeners dragging].
    destruct (fold_onMove x l (listeners p) p S) as (A & D & C). cbv zeta in *.
    rewrite last_map_latest.
    destruct (last (listeners p)) as [d|] eqn:E; cbn.
    + split; [rewrite C; apply move_pct_range|].
      split; [exact A|]. split; [symmetry; exact C|].
      rewrite D. apply L.
    + rewrite C. split; [exact R|]. split; [|exact I]. rewrite A, C. reflexivity.
  - cbn [pane_step leftPct pane_store listeners].
    destruct (fold_onUp (listeners p) p) as (A & B). cbv zeta in *.
    rewrite A, B. split; [exact R|]. split; [|exact I].
    destruct (last (listeners p)) as [d|]; [|exact S].
    f_equal. apply String_of_round_proper. apply L.
Qed.

Lemma reachable_pane_inv B p : pane_reachable B p -> pane_inv p.
Proof.
  induction 1 as [ls|p ev _ IH _].
  - apply mount_pane_inv.
  - apply step_pane_inv, IH.
Qed.

Lemma Math_round_mono x y : (x <= y)%Q -> (Math_round x <= Math_round y)%Z.
Proof. intros H. unfold Math_round. apply Qfloor_resp_le. lra. Qed.

(** X24: however the splitter is dragged, and whatever [localStorage] held
    at the start, the editor takes between 20 and 80 percent of the width;
    [localStorage] holds the rounding of the current percentage, an
    integer from 20 to 80; and the pane is marked as dragging as long as
    listeners of a drag are on the window. *)
Theorem split_stays_in_range B p :
  pane_reachable B p ->
  (20 <= leftPct p <= 80)%Q /\
  pane_store p !! "merViz.split.pct" = Some (pretty (Math_round (leftPct p))) /\
  (20 <= Math_round (leftPct p) <= 80)%Z /\
  (listeners p <> [] -> dragging p = true).
Proof.
  intros Hr. destruct (reachable_pane_inv B p Hr) as (R & S & L).
  split; [exact R|]. split; [exact S|]. split.
  - split.
    + change 20%Z with (Math_round (inject_Z 20)). apply Math_round_mono. apply R.
    + change 80%Z with (Math_round (inject_Z 80)). apply Math_round_mono. apply R.
  - intros Hn. destruct (last (listeners p)) eqn:E; [apply L|].
    elim Hn. apply last_None_nil, E.
Qed.

Lemma split_stays_in_range_witness :
  let p := pane_step (PointerMove 100 sample_layout)
             (pane_step (PointerDown (Some (0, 1000)%Q))
                (pane_mount decimal_builtins (<["merViz.split.pct" := "95"]> ∅))) in
  (20 <= leftPct p <= 80)%Q /\
  pane_store p !! "merViz.split.pct" = Some (pretty (Math_round (leftPct p))) /\
  (20 <= Math_round (leftPct p) <= 80)%Z /\
  (listeners p <> [] -> dragging p = true).
Proof.
  apply (split_stays_in_range decimal_builtins).
  apply pane_reach_step; [|exact I].
  apply pane_reach_step; [|reflexivity].
  apply pane_reach_mount.
Defined.

(** X25: the split survives a reload up to rounding: when [Number] reads
    the digits of the stored integer back, a fresh page starts from the
    rounding of the percentage the pane had, which is within one half of
    it. *)
Theorem split_survives_reload B p :
  pane_reachable B p ->
  js_Number B (pretty (Math_round (leftPct p))) = Some (inject_Z (Math_round (leftPct p))) ->
  (initial_leftPct B (pane_store p) == inject_Z (Math_round (leftPct p)))%Q /\
  (leftPct p - (1 # 2) < initial_leftPct B (pane_store p) <= leftPct p + (1 # 2))%Q.
Proof.
  intros Hr HB. destruct (reachable_pane_inv B p Hr) as (R & S & _).
  assert (E : (initial_leftPct B (pane_store p) == inject_Z (Math_round (leftPct p)))%Q).
  { unfold initial_leftPct. unfold split_key in S. rewrite S. unfold default, String_of_round, id.
    rewrite HB.
    assert (Z1 : (20 <= Math_round (leftPct p))%Z).
    { change 20%Z with (Math_round (inject_Z 20)). apply Math_round_mono. apply R. }
    assert (Z2 : (Math_round (leftPct p) <= 80)%Z).
    { change 80%Z with (Math_round (inject_Z 80)). apply Math_round_mono. apply R. }
    assert (Q1 : (inject_Z 20 <= inject_Z (Math_round (leftPct p)))%Q)
      by (rewrite <- Zle_Qle; exact Z1).
    assert (Q2 : (inject_Z (Math_round (leftPct p)) <= inject_Z 80)%Q)
      by (rewrite <- Zle_Qle; exact Z2).
    change (inject_Z 20) with 20%Q in Q1. change (inject_Z 80) with 80%Q in Q2.
    revert Q1 Q2. generalize (inject_Z (Math_round (leftPct p))). intros m Q1 Q2.
    minmax_cases. }
  split; [exact E|]. rewrite E. apply Math_round_nearest.
Qed.

Lemma split_survives_reload_witness :
  let p := pane_step PointerUp
             (pane_step (PointerMove 333 sample_layout)
                (pane_step (PointerDown (Some (0, 1000)%Q))
                   (pane_mount decimal_builtins ∅))) in
  (initial_leftPct decimal_builtins (pane_store p) == inject_Z (Math_round (leftPct p)))%Q /\
  (leftPct p - (1 # 2) < initial_leftPct decimal_builtins (pane_store p)
     <= leftPct p + (1 # 2))%Q.
Proof.
  apply (split_survives_reload decimal_builtins).
  - apply pane_reach_step; [|exact I].
    apply pane_reach_step; [|exact I].
    apply pane_reach_step; [|reflexivity].
    apply pane_reach_mount.
  - vm_compute. reflexivity.
Defined.

(** A drag to a third of a container of 1000 pixels stores 33. *)
Example drag_to_a_third :
  let p := pane_step PointerUp
             (pane_step (PointerMove 333 sample_layout)
                (pane_step (PointerDown (Some (0, 1000)%Q))
                   (pane_mount decimal_builtins ∅))) in
  pane_store p !! "merViz.split.pct" = Some "33" /\ Qred (leftPct p) = (333 # 10)%Q.
Proof. vm_compute. split; reflexivity. Qed.

End SplitterMore.

(* ===================================================================== *)
(** ** The raster export and the zoom steps in binary64 arithmetic *)
(* ===================================================================== *)

Module Binary64Proofs.
Import JsString JsNumber ExportLib Instances SpecWords NumberProofs ExportProofs Binary64.
Local Open Scope Q_scope.

Lemma b64_finite_proper x y : x == y -> b64_finite x = b64_finite y.
Proof. intros H. unfold b64_finite. rewrite (Qred_complete x y H). reflexivity. Qed.

Lemma Qle_bool_proper a x y : x == y -> Qle_bool a x = Qle_bool a y.
Proof.
  intros H. destruct (Qle_bool a x) eqn:E1, (Qle_bool a y) eqn:E2; try reflexivity.
  - apply Qle_bool_iff in E1. rewrite H in E1. apply Qle_bool_iff in E1. congruence.
  - apply Qle_bool_iff in E2. rewrite <- H in E2. apply Qle_bool_iff in E2. congruence.
Qed.

Lemma b64_proper x y : x == y -> b64 x = b64 y.
Proof.
  intros H. unfold b64.
  rewrite (Qle_bool_proper overflow_threshold (Qabs x) (Qabs y)) by (rewrite H; reflexivity).
  rewrite (Qle_bool_proper 0 x y H), (b64_finite_proper x y H). reflexivity.
Qed.

Lemma rne_nonneg x : 0 <= x -> (0 <= rne x)%Z.
Proof.
  intros H. unfold rne.
  assert (F : (0 <= Qfloor x)%Z) by (apply (Qfloor_resp_le 0 x H)).
  destruct (Qcompare _ _); [destruct (Z.even _)| |]; lia.
Qed.

Lemma pow2_pos e : 0 < pow2 e.
Proof. unfold pow2. apply Qpower.Qpower_0_lt. reflexivity. Qed.

(** [rne] moves its argument by one half at most. *)
Lemma rne_near y : Qabs (inject_Z (rne y) - y) <= 1 # 2.
Proof.
  unfold rne. pose proof (Qfloor_le y) as L. pose proof (Qlt_floor y) as U.
  rewrite inject_Z_plus in U. change (inject_Z 1) with 1 in U.
  apply Qabs_Qle_condition.
  destruct (Qcompare (y - inject_Z (Qfloor y)) (1 # 2)) eqn:E.
  - apply Qeq_alt in E. destruct (Z.even (Qfloor y));
      [|rewrite inject_Z_plus; change (inject_Z 1) with 1]; split; lra.
  - apply Qlt_alt in E. split; lra.
  - apply Qgt_alt in E. rewrite inject_Z_plus. change (inject_Z 1) with 1. split; lra.
Qed.

Lemma pow2_nonneg_Z n : (0 <= n)%Z -> pow2 n == inject_Z (2 ^ n).
Proof. intros H. unfold pow2. rewrite Qpower.Zpower_Qpower by exact H. reflexivity. Qed.

Lemma pow2_minus n m : pow2 (n - m) == pow2 n / pow2 m.
Proof. unfold pow2. apply Qpower.Qpower_minus. discriminate. Qed.

Lemma pow2_succ n : pow2 (n + 1) == 2 * pow2 n.
Proof.
  unfold pow2. rewrite Qpower.Qpower_plus by discriminate. change (2 ^ 1) with 2. ring.
Qed.

(** [ilog2] gives the binade of a positive rational. *)
Lemma ilog2_spec x : 0 < x -> pow2 (ilog2 x) <= x < pow2 (ilog2 x + 1).
Proof.
  intros Hx. destruct x as [a b].
  assert (Ha : (0 < a)%Z).
  { unfold Qlt in Hx. cbn in Hx. lia. }
  unfold ilog2. cbn [Qnum Qden].
  set (la := Z.log2 a). set (lb := Z.log2 (Z.pos b)).
  assert (Hla : (0 <= la)%Z) by apply Z.log2_nonneg.
  assert (Hlb : (0 <= lb)%Z) by apply Z.log2_nonneg.
  destruct (Z.log2_spec a Ha) as [A1 A2]. fold la in A1, A2.
  destruct (Z.log2_spec (Z.pos b) (Pos2Z.is_pos b)) as [B1 B2]. fold lb in B1, B2.
  assert (Pa : (0 < 2 ^ la)%Z) by (apply Z.pow_pos_nonneg; lia).
  assert (Pb : (0 < 2 ^ lb)%Z) by (apply Z.pow_pos_nonneg; lia).
  assert (Lo : pow2 (la - lb - 1) <= a # b).
  { replace (la - lb - 1)%Z with (la - Z.succ lb)%Z by lia.
    rewrite pow2_minus, (pow2_nonneg_Z la), (pow2_nonneg_Z (Z.succ lb)) by lia.
    apply Qle_shift_div_r.
    - change 0 with (inject_Z 0). rewrite <- Zlt_Qlt. lia.
    - unfold Qle, Qmult, inject_Z. cbn [Qnum Qden].
      assert (T1 : (2 ^ la * Z.pos b <= a * Z.pos b)%Z) by nia.
      assert (T2 : (a * Z.pos b <= a * 2 ^ Z.succ lb)%Z) by nia.
      rewrite Pos.mul_1_r. lia. }
  assert (Hi : (a # b) < pow2 (la - lb + 1)).
  { replace (la - lb + 1)%Z with (Z.succ la - lb)%Z by lia.
    rewrite pow2_minus, (pow2_nonneg_Z (Z.succ la)), (pow2_nonneg_Z lb) by lia.
    apply Qlt_shift_div_l.
    - change 0 with (inject_Z 0). rewrite <- Zlt_Qlt. lia.
    - unfold Qlt, Qmult, inject_Z. cbn [Qnum Qden].
      assert (T1 : (a * 2 ^ lb < 2 ^ Z.succ la * 2 ^ lb)%Z) by nia.
      assert (T2 : (2 ^ Z.succ la * 2 ^ lb <= 2 ^ Z.succ la * Z.pos b)%Z) by nia.
      rewrite Pos.mul_1_r. lia. }
  destruct (Qle_bool (pow2 (la - lb)) (a # b)) eqn:E.
  - apply Qle_bool_iff in E. split; assumption.
  - split; [exact Lo|].
    replace (la - lb - 1 + 1)%Z with (la - lb)%Z by lia.
    apply Qnot_le_lt. intros C. apply Qle_bool_iff in C. congruence.
Qed.

Lemma pow2_le n m : (n <= m)%Z -> pow2 n <= pow2 m.
Proof. intros H. unfold pow2. apply Qpower.Qpower_le_compat_l; [exact H|discriminate]. Qed.

Lemma div_mul_pow2 x e : x / pow2 e * pow2 e == x.
Proof. field. intros C. pose proof (pow2_pos e). lra. Qed.

(** What [b64_finite] gives is a binary64 value, a significand of at most
    53 bits times a power of two not below 2^-1074, and it lies within
    half a unit in the last place of [x], the unit being that of the
    binade of [x] or, below the normal numbers, 2^-1074. *)
Lemma b64_finite_nearest x :
  exists m e : Z,
    b64_finite x == inject_Z m * pow2 e /\
    (-1074 <= e)%Z /\ (Z.abs m <= 2 ^ 53)%Z /\
    (x == 0 \/ e = (-1074)%Z \/ pow2 (e + 52) <= Qabs x) /\
    Qabs (b64_finite x - x) <= pow2 e * (1 # 2).
Proof.
  unfold b64_finite. cbv zeta.
  pose proof (Qred_correct x) as Ex. revert Ex. generalize (Qred x). intros x' Ex.
  destruct (Qeq_bool x' 0) eqn:E0.
  - apply Qeq_bool_iff in E0. exists 0%Z, (-1074)%Z.
    split; [ring|]. split; [lia|]. split; [cbn; lia|].
    split; [left; rewrite <- Ex; exact E0|].
    rewrite <- Ex, E0. pose proof (pow2_pos (-1074)).
    apply Qabs_Qle_condition. split; lra.
  - apply Qeq_bool_neq in E0.
    assert (Hp : 0 < Qabs x').
    { pose proof (Qabs_nonneg x') as N. apply Qle_lteq in N. destruct N as [N|N]; [exact N|].
      exfalso. apply E0. symmetry in N.
      destruct (Qabs_Qle_condition x' 0) as [F _].
      destruct F as [F1 F2]; [rewrite N; apply Qle_refl|]. lra. }
    destruct (ilog2_spec (Qabs x') Hp) as [L1 L2].
    set (l := ilog2 (Qabs x')) in *.
    set (e := Z.max (-1074) (l - 52)).
    set (y := x' / pow2 e).
    pose proof (pow2_pos e) as Pe.
    pose proof (div_mul_pow2 x' e) as Ey. fold y in Ey. clearbody y.
    pose proof (rne_near y) as Hn. apply Qabs_Qle_condition in Hn.
    exists (rne y), e.
    split; [apply Qred_correct|]. split; [lia|]. split.
    + assert (Hy : Qabs y < pow2 53).
      { assert (A : Qabs y * pow2 e == Qabs x').
        { rewrite <- Ey. rewrite Qabs_Qmult. rewrite (Qabs_pos (pow2 e)) by lra.
          reflexivity. }
        assert (B : pow2 (l + 1) <= pow2 53 * pow2 e).
        { assert (C : pow2 53 * pow2 e == pow2 (53 + e)).
          { unfold pow2. rewrite Qpower.Qpower_plus by discriminate. reflexivity. }
          rewrite C. apply pow2_le. lia. }
        apply Qnot_le_lt. intros C.
        assert (D : pow2 53 * pow2 e <= Qabs y * pow2 e).
        { apply Qmult_le_compat_r; [exact C|lra]. }
        lra. }
      apply Qabs_Qlt_condition in Hy.
      change (pow2 53) with (inject_Z (2 ^ 53)) in Hy.
      assert (U : inject_Z (rne y) < inject_Z (2 ^ 53 + 1)).
      { rewrite inject_Z_plus. change (inject_Z 1) with 1. lra. }
      assert (V : inject_Z (- (2 ^ 53 + 1)) < inject_Z (rne y)).
      { rewrite inject_Z_opp, inject_Z_plus. change (inject_Z 1) with 1. lra. }
      rewrite <- Zlt_Qlt in U, V. lia.
    + split.
      * right. destruct (Z.max_spec (-1074) (l - 52)) as [[_ M]|[_ M]]; fold e in M.
        -- right. rewrite M. replace (l - 52 + 52)%Z with l by lia.
           rewrite <- Ex. exact L1.
        -- left. exact M.
      * rewrite Qred_correct, <- Ex. rewrite <- Ey.
        apply Qabs_Qle_condition.
        set (d := inject_Z (rne y) - y) in *.
        assert (F : inject_Z (rne y) * pow2 e - y * pow2 e == d * pow2 e) by (unfold d; ring).
        rewrite F. split; nra.
Qed.

Lemma b64_finite_nonneg x : 0 <= x -> 0 <= b64_finite x.
Proof.
  intros H. unfold b64_finite. cbv zeta.
  destruct (Qeq_bool (Qred x) 0); [apply Qle_refl|].
  rewrite Qred_correct.
  set (e := Z.max (-1074) (ilog2 (Qabs (Qred x)) - 52)).
  apply Qmult_le_0_compat; [|apply Qlt_le_weak, pow2_pos].
  change 0 with (inject_Z 0). rewrite <- Zle_Qle. apply rne_nonneg.
  unfold Qdiv. apply Qmult_le_0_compat; [rewrite Qred_correct; exact H|].
  apply Qinv_le_0_compat, Qlt_le_weak, pow2_pos.
Qed.

Lemma b64_not_negative x : 0 <= x -> not_negative (b64 x).
Proof.
  intros H. unfold b64. destruct (Qle_bool overflow_threshold (Qabs x)).
  - apply Qle_bool_iff in H. rewrite H. exact I.
  - apply b64_finite_nonneg, H.
Qed.

Lemma Math_round_not_negative n : not_negative n -> not_negative (Math_round n).
Proof.
  destruct n as [| |x|]; cbn [not_negative Math_round]; try tauto.
  intros H. change 0 with (inject_Z 0). rewrite <- Zle_Qle.
  unfold JsNumber.Math_round. apply (Qfloor_resp_le 0). lra.
Qed.

(** The clamp of [downloadPng] on a number that is not [NaN]. *)
Lemma clamp_finite n :
  n <> NaN ->
  exists s, Math_max (1 # 2) (Math_min 8 n) = Finite s /\ 1 # 2 <= s <= 8 /\
            match n with
            | Finite x => s == clamp (1 # 2) 8 x
            | Infinity => s == 8
            | _ => s == 1 # 2
            end.
Proof.
  intros Hn. destruct n as [| |x|]; [contradiction| | |]; cbn.
  - exists (1 # 2). repeat split; try reflexivity; lra.
  - exists (Qmax (1 # 2) (Qmin 8 x)). split; [reflexivity|].
    split; [|apply (max_min_clamp (1 # 2) 8 x); lra].
    minmax_cases.
  - exists (Qmax (1 # 2) 8). split; [reflexivity|]. split; [|reflexivity].
    split; discriminate.
Qed.

Lemma auto_scale_not_NaN x : 0 < x -> Math_max 3 (fdiv 2000 x) <> NaN.
Proof.
  intros H. unfold fdiv.
  destruct (Qeq_bool x 0) eqn:E; [apply Qeq_bool_iff in E; lra|].
  unfold b64. destruct (Qle_bool _ _); [destruct (Qle_bool _ _)|]; discriminate.
Qed.

Lemma fdiv_b64 x y : 0 < y -> fdiv x y = b64 (x / y).
Proof.
  intros H. unfold fdiv.
  destruct (Qeq_bool y 0) eqn:E; [apply Qeq_bool_iff in E; lra|reflexivity].
Qed.

Lemma fmul_not_negative x n : 0 <= x -> (exists s, n = Finite s /\ 0 <= s) ->
  not_negative (fmul x n).
Proof.
  intros Hx (s & -> & Hs). cbn. apply b64_not_negative. nra.
Qed.

Lemma size_or_default B svg :
  let sz := match parseSvgSize B svg with
            | Some sz => sz
            | None => {| width := 800; height := 600 |}
            end in
  0 < width sz /\ 0 < height sz.
Proof.
  destruct (parseSvgSize B svg) as [sz|] eqn:E.
  - exact (parseSvgSize_positive B svg sz E).
  - cbn. split; reflexivity.
Qed.

Lemma plan_of_size B svg w h :
  match parseSvgSize B (sanitizeSvg svg) with
  | Some sz => width sz = w /\ height sz = h
  | None => w = 800 /\ h = 600
  end ->
  0 < w /\ 0 < h /\
  forall scale,
    downloadPng B svg scale =
      let cs := Math_max (1 # 2)
                  (Math_min 8 (match scale with
                               | Some s => s
                               | None => Math_max 3 (fdiv 2000 (Qmax w h))
                               end)) in
      {| plan_markup := sanitizeSvg svg; plan_scale := cs;
         plan_width := Math_round (fmul w cs);
         plan_height := Math_round (fmul h cs) |}.
Proof.
  intros Hsz. pose proof (size_or_default B (sanitizeSvg svg)) as Hp. cbv zeta in Hp.
  unfold downloadPng.
  destruct (parseSvgSize B (sanitizeSvg svg)) as [[w0 h0]|]; cbn in Hsz, Hp;
    destruct Hsz as [E1 E2]; subst w h;
    (split; [apply Hp|]); (split; [apply Hp|]); reflexivity.
Qed.

(** C3, as amended.  Without a scale from the caller the raster export
    draws at the scale [clamp(max(3, 2000 / max(w, h)), 0.5, 8)], the
    quotient being rounded to a binary64 value (and the scale 8 when the
    quotient overflows), on a canvas of [round(w * s)] by [round(h * s)]
    pixels, each product being rounded to a binary64 value before
    [Math.round]; [w] by [h] is the size [parseSvgSize] reads from the
    normalised markup, or 800 by 600 when it reads none.  For 800 by 600
    the scale is 3 and the canvas 2400 by 1800. *)
Theorem C3_raster_auto_scale (B : Builtins) (svg : string) (w h : Q) :
  match parseSvgSize B (sanitizeSvg svg) with
  | Some sz => width sz = w /\ height sz = h
  | None => w = 800 /\ h = 600
  end ->
  let plan := downloadPng B svg None in
  exists s,
    plan_scale plan = Finite s /\
    s == match b64 (2000 / Qmax w h) with
         | Finite d => clamp (1 # 2) 8 (Qmax 3 d)
         | _ => 8
         end /\
    plan_width plan = Math_round (b64 (w * s)) /\
    plan_height plan = Math_round (b64 (h * s)) /\
    (w == 800 -> h == 600 ->
     s == 3 /\ plan_width plan = Finite 2400 /\ plan_height plan = Finite 1800).
Proof.
  intros Hsz plan. destruct (plan_of_size B svg w h Hsz) as (Hw & Hh & Hplan).
  unfold plan. rewrite (Hplan None). cbv zeta. cbn [plan_scale plan_width plan_height].
  assert (HL : 0 < Qmax w h).
  { apply Qlt_le_trans with w; [exact Hw|apply Q.le_max_l]. }
  rewrite (fdiv_b64 2000 (Qmax w h) HL).
  assert (Hq : exists s, Math_max (1 # 2) (Math_min 8 (Math_max 3 (b64 (2000 / Qmax w h))))
                         = Finite s /\
                 s == match b64 (2000 / Qmax w h) with
                      | Finite d => clamp (1 # 2) 8 (Qmax 3 d)
                      | _ => 8
                      end).
  { unfold b64. destruct (Qle_bool overflow_threshold _).
    - assert (P : Qle_bool 0 (2000 / Qmax w h) = true).
      { apply Qle_bool_iff. apply Qle_shift_div_l; [exact HL|lra]. }
      rewrite P. cbn. eexists. split; reflexivity.
    - cbn. eexists. split; [reflexivity|].
      apply (max_min_clamp (1 # 2) 8); lra. }
  destruct Hq as (s & Es & Hs). rewrite Es. exists s.
  split; [reflexivity|]. split; [exact Hs|].
  cbn [fmul]. split; [reflexivity|]. split; [reflexivity|].
  intros Ew Eh.
  assert (E3 : s == 3).
  { rewrite Hs. rewrite (b64_proper (2000 / Qmax w h) (2000 / Qmax 800 600))
      by (rewrite Ew, Eh; reflexivity).
    reflexivity. }
  split; [exact E3|].
  rewrite (b64_proper (w * s) (800 * 3)) by (rewrite Ew, E3; reflexivity).
  rewrite (b64_proper (h * s) (600 * 3)) by (rewrite Eh, E3; reflexivity).
  split; vm_compute; reflexivity.
Qed.

Lemma C3_raster_auto_scale_witness :
  let svg := "<svg viewBox=" ++ q ++ "0 0 400 262.9" ++ q ++ "></svg>" in
  let w := 400 in
  let h := literal (2629 # 10) in
  let plan := downloadPng double_builtins svg None in
  exists s,
    plan_scale plan = Finite s /\
    s == match b64 (2000 / Qmax w h) with
         | Finite d => clamp (1 # 2) 8 (Qmax 3 d)
         | _ => 8
         end /\
    plan_width plan = Math_round (b64 (w * s)) /\
    plan_height plan = Math_round (b64 (h * s)) /\
    (w == 800 -> h == 600 ->
     s == 3 /\ plan_width plan = Finite 2400 /\ plan_height plan = Finite 1800).
Proof.
  apply (C3_raster_auto_scale double_builtins
           ("<svg viewBox=" ++ q ++ "0 0 400 262.9" ++ q ++ "></svg>")
           400 (literal (2629 # 10))).
  vm_compute. split; reflexivity.
Defined.

(** C3 as it is worded fails by one pixel, whether [w] and [h] are read
    as the numerals of the markup or as the binary64 values [Number] makes
    of them.  For a view box of 256 by 64.32 the scale is 7.8125 and the
    canvas 502 pixels high, where [round(64.32 * 7.8125)] is 503.  For a
    view box of 400 by 262.9 the scale is 5 and the canvas 1315 pixels
    high, where [round(h * 5)] for the binary64 value [h] next to 262.9,
    which lies below it, is 1314. *)
Lemma C3_counterexample :
  let plan1 := downloadPng double_builtins
                 ("<svg viewBox=" ++ q ++ "0 0 256 64.32" ++ q ++ "></svg>") None in
  let plan2 := downloadPng double_builtins
                 ("<svg viewBox=" ++ q ++ "0 0 400 262.9" ++ q ++ "></svg>") None in
  (parseSvgSize double_builtins
     ("<svg viewBox=" ++ q ++ "0 0 256 64.32" ++ q ++ "></svg>")
     = Some {| width := 256; height := literal (6432 # 100) |} /\
   plan_scale plan1 = Finite (125 # 16) /\
   plan_width plan1 = Finite 2000 /\
   plan_height plan1 = Finite 502 /\
   clamp (1 # 2) 8 (Qmax 3 (2000 / Qmax 256 (6432 # 100))) == 125 # 16 /\
   JsNumber.Math_round ((6432 # 100) * (125 # 16)) = 503%Z) /\
  (parseSvgSize double_builtins
     ("<svg viewBox=" ++ q ++ "0 0 400 262.9" ++ q ++ "></svg>")
     = Some {| width := 400; height := literal (2629 # 10) |} /\
   plan_scale plan2 = Finite 5 /\
   plan_width plan2 = Finite 2000 /\
   plan_height plan2 = Finite 1315 /\
   clamp (1 # 2) 8 (Qmax 3 (2000 / Qmax 400 (literal (2629 # 10)))) == 5 /\
   literal (2629 # 10) < 2629 # 10 /\
   JsNumber.Math_round (literal (2629 # 10) * 5) = 1314%Z).
Proof.
  vm_compute. repeat split; reflexivity.
Qed.

(** X3: whatever number the caller passes as scale other than [NaN], the
    infinities included, and without a scale, the raster is drawn at a
    finite scale between 0.5 and 8: a finite scale is clamped to that
    interval, the infinities give its ends; and no side of the canvas is
    negative.  With [NaN] as scale, the scale drawn at and both sides of
    the canvas are [NaN]. *)
Theorem raster_scale_clamped (B : Builtins) (svg : string) (scale : option number) :
  let plan := downloadPng B svg scale in
  (scale <> Some NaN ->
   exists s,
     plan_scale plan = Finite s /\ 1 # 2 <= s <= 8 /\
     (forall x, scale = Some (Finite x) -> s == clamp (1 # 2) 8 x) /\
     (scale = Some Infinity -> s == 8) /\
     (scale = Some NegInfinity -> s == 1 # 2) /\
     not_negative (plan_width plan) /\ not_negative (plan_height plan)) /\
  (scale = Some NaN ->
   plan_scale plan = NaN /\ plan_width plan = NaN /\ plan_height plan = NaN).
Proof.
  cbv zeta.
  destruct (parseSvgSize B (sanitizeSvg svg)) as [sz|] eqn:E.
  - destruct (plan_of_size B svg (width sz) (height sz)) as (Hw & Hh & Hplan).
    { rewrite E. split; reflexivity. }
    rewrite (Hplan scale). cbv zeta. cbn [plan_scale plan_width plan_height]. split.
    + intros Hn.
      set (cs := match scale with
                 | Some s => s
                 | None => Math_max 3 (fdiv 2000 (Qmax (width sz) (height sz)))
                 end).
      assert (Hcs : cs <> NaN).
      { unfold cs. destruct scale as [s|]; [congruence|].
        apply auto_scale_not_NaN. apply Qlt_le_trans with (width sz); [exact Hw|apply Q.le_max_l]. }
      destruct (clamp_finite cs Hcs) as (s & Es & Hr & Hc). rewrite Es. exists s.
      split; [reflexivity|]. split; [exact Hr|].
      split; [intros x ->; exact Hc|]. split; [intros ->; exact Hc|].
      split; [intros ->; exact Hc|].
      split; apply Math_round_not_negative, fmul_not_negative; try lra;
        exists s; (split; [reflexivity|lra]).
    + intros ->. cbn. auto.
  - destruct (plan_of_size B svg 800 600) as (Hw & Hh & Hplan).
    { rewrite E. split; reflexivity. }
    rewrite (Hplan scale). cbv zeta. cbn [plan_scale plan_width plan_height]. split.
    + intros Hn.
      set (cs := match scale with
                 | Some s => s
                 | None => Math_max 3 (fdiv 2000 (Qmax 800 600))
                 end).
      assert (Hcs : cs <> NaN).
      { unfold cs. destruct scale as [s|]; [congruence|]. apply auto_scale_not_NaN. reflexivity. }
      destruct (clamp_finite cs Hcs) as (s & Es & Hr & Hc). rewrite Es. exists s.
      split; [reflexivity|]. split; [exact Hr|].
      split; [intros x ->; exact Hc|]. split; [intros ->; exact Hc|].
      split; [intros ->; exact Hc|].
      split; apply Math_round_not_negative, fmul_not_negative; try lra;
        exists s; (split; [reflexivity|lra]).
    + intros ->. cbn. auto.
Qed.

Lemma raster_scale_clamped_witness :
  let svg := "<svg viewBox=" ++ q ++ "0 0 400 300" ++ q ++ "></svg>" in
  let plan := downloadPng double_builtins svg (Some (Finite 20)) in
  exists s,
    plan_scale plan = Finite s /\ 1 # 2 <= s <= 8 /\
    (forall x, Some (Finite 20) = Some (Finite x) -> s == clamp (1 # 2) 8 x) /\
    (Some (Finite 20) = Some Infinity -> s == 8) /\
    (Some (Finite 20) = Some NegInfinity -> s == 1 # 2) /\
    not_negative (plan_width plan) /\ not_negative (plan_height plan).
Proof.
  apply (proj1 (raster_scale_clamped double_builtins
                  ("<svg viewBox=" ++ q ++ "0 0 400 300" ++ q ++ "></svg>")
                  (Some (Finite 20)))).
  discriminate.
Defined.

(** A scale of 20 is drawn at 8, one of 0.1 at 0.5, and [NaN] stays
    [NaN]. *)
Example raster_scales :
  let svg := "<svg viewBox=" ++ q ++ "0 0 400 300" ++ q ++ "></svg>" in
  plan_scale (downloadPng double_builtins svg (Some (Finite 20))) = Finite 8 /\
  plan_width (downloadPng double_builtins svg (Some (Finite 20))) = Finite 3200 /\
  plan_scale (downloadPng double_builtins svg (Some (Finite (literal (1 # 10)))))
    = Finite (1 # 2) /\
  plan_scale (downloadPng double_builtins svg (Some Infinity)) = Finite 8 /\
  plan_width (downloadPng double_builtins svg (Some NaN)) = NaN.
Proof. vm_compute. repeat split; reflexivity. Qed.

(** *** The zoom steps *)

Lemma same_fraction_eq x y : same_fraction x y = true -> x = y.
Proof.
  unfold same_fraction. intros H. apply andb_prop in H. destruct H as [H1 H2].
  apply Z.eqb_eq in H1. apply Pos.eqb_eq in H2.
  destruct x, y. cbn in *. congruence.
Qed.

Lemma same_number_eq m n : same_number m n = true -> m = n.
Proof.
  destruct m, n; cbn; try discriminate; try reflexivity.
  intros H. f_equal. apply same_fraction_eq, H.
Qed.

Lemma steps_agree_all :
  forallb (fun i => steps_agree (Z.of_nat i)) (seq 10 291) = true.
Proof. vm_compute. reflexivity. Qed.

Lemma steps_agree_range k : (10 <= k <= 300)%Z -> steps_agree k = true.
Proof.
  intros H. pose proof steps_agree_all as A. rewrite forallb_forall in A.
  rewrite <- (Z2Nat.id k) by lia. apply A. apply in_seq. lia.
Qed.

(** C8, as amended.  A zoom-in step yields [min(3, r(z + 0.1))] and a
    zoom-out step [max(0.2, r(z - 0.1))], where sum and difference are
    rounded to binary64 values and [r] takes the multiple of 0.01 nearest
    to its argument, which is at most 0.005 away, and reads it back as a
    binary64 value.  For [z] the binary64 value next to a multiple [k/100]
    of 0.01 from 0.1 to 3, the steps yield the binary64 values next to
    [min(3, (k + 10)/100)] and [max(0.2, (k - 10)/100)]. *)
Theorem C8_zoom_steps (z y_in y_out : Q) :
  b64 (z + literal (1 # 10)) = Finite y_in ->
  b64 (z - literal (1 # 10)) = Finite y_out ->
  zoomIn (Finite z) = Math_min 3 (b64 (JsNumber.toFixed2 y_in)) /\
  zoomOut (Finite z) = Math_max (literal (2 # 10)) (b64 (JsNumber.toFixed2 y_out)) /\
  y_in - (1 # 200) <= JsNumber.toFixed2 y_in <= y_in + (1 # 200) /\
  y_out - (1 # 200) <= JsNumber.toFixed2 y_out <= y_out + (1 # 200) /\
  (forall k : Z, (10 <= k <= 300)%Z -> z = literal (k # 100) ->
     zoomIn (Finite z) = Finite (literal (Z.min 300 (k + 10) # 100)) /\
     zoomOut (Finite z) = Finite (literal (Z.max 20 (k - 10) # 100))).
Proof.
  intros Hin Hout.
  split; [unfold zoomIn; cbn [fadd]; rewrite Hin; reflexivity|].
  split; [unfold zoomOut; cbn [fsub]; rewrite Hout; reflexivity|].
  split; [apply toFixed2_near|]. split; [apply toFixed2_near|].
  intros k Hk ->. pose proof (steps_agree_range k Hk) as A.
  unfold steps_agree in A. apply andb_prop in A. destruct A as [A1 A2].
  split; apply same_number_eq; assumption.
Qed.

Lemma C8_zoom_steps_witness :
  let z := literal (105 # 100) in
  let y_in := b64_finite (z + literal (1 # 10)) in
  let y_out := b64_finite (z - literal (1 # 10)) in
  zoomIn (Finite z) = Math_min 3 (b64 (JsNumber.toFixed2 y_in)) /\
  zoomOut (Finite z) = Math_max (literal (2 # 10)) (b64 (JsNumber.toFixed2 y_out)) /\
  y_in - (1 # 200) <= JsNumber.toFixed2 y_in <= y_in + (1 # 200) /\
  y_out - (1 # 200) <= JsNumber.toFixed2 y_out <= y_out + (1 # 200) /\
  (forall k : Z, (10 <= k <= 300)%Z -> z = literal (k # 100) ->
     zoomIn (Finite z) = Finite (literal (Z.min 300 (k + 10) # 100)) /\
     zoomOut (Finite z) = Finite (literal (Z.max 20 (k - 10) # 100))).
Proof.
  apply (C8_zoom_steps (literal (105 # 100))
           (b64_finite (literal (105 # 100) + literal (1 # 10)))
           (b64_finite (literal (105 # 100) - literal (1 # 10))));
    vm_compute; reflexivity.
Defined.

(** C8 as it is worded fails twice.  Eight zoom-out steps from the initial
    zoom of 1 end at 0.2, where one more step leaves the zoom at 0.2 and
    not at [max(0.1, 0.2 - 0.1)], with the difference exact or rounded.
    And from the fit value 6/7 a zoom-in step gives 0.96 and not
    [min(3, 6/7 + 0.1)], with the sum exact or rounded. *)
Lemma C8_counterexample :
  let z := literal (2 # 10) in
  let z' := literal (6 / 7) in
  (Nat.iter 8 zoomOut (Finite 1) = Finite z /\
   zoomOut (Finite z) = Finite z /\
   zoomOut (Finite z) <> Finite (Qmax (1 # 10) (z - (1 # 10))) /\
   zoomOut (Finite z) <> Math_max (literal (1 # 10)) (fsub (Finite z) (literal (1 # 10)))) /\
  (zoomIn (Finite z') = Finite (literal (96 # 100)) /\
   zoomIn (Finite z') <> Finite (Qmin 3 (z' + (1 # 10))) /\
   zoomIn (Finite z') <> Math_min 3 (fadd (Finite z') (literal (1 # 10)))).
Proof.
  vm_compute. repeat split; discriminate.
Qed.

(** The fit value 804/800 is the binary64 value just below 1.005: a
    zoom-in step from it gives 1.1, where the sum of the exact 1.005 and
    0.1 would give 1.11.  From the fit value 21/200 it gives 0.21. *)
Example zoom_in_from_fit :
  literal (804 / 800) < 1005 # 1000 /\
  zoomIn (b64 (804 / 800)) = Finite (literal (110 # 100)) /\
  JsNumber.toFixed2 ((804 / 800) + (1 # 10)) == 111 # 100 /\
  zoomIn (b64 (21 / 200)) = Finite (literal (21 # 100)).
Proof. vm_compute. repeat split; reflexivity. Qed.

(** The literal [0.1] is 3602879701896397 / 2^55. *)
Example literal_tenth : literal (1 # 10) = 3602879701896397 # 36028797018963968.
Proof. vm_compute. reflexivity. Qed.

(** Rounding at the edges of the format: a tie goes to the even
    significand, half the smallest subnormal goes to zero, and the largest
    value plus half a unit in its last place overflows. *)
Example rounding_edges :
  b64 9007199254740993 = Finite 9007199254740992 /\
  b64 9007199254740995 = Finite 9007199254740996 /\
  b64 (pow2 (-1075)) = Finite 0 /\
  Finite (pow2 (-1074)) = b64 (pow2 (-1074)) /\
  b64 (pow2 1024 - pow2 970) = Infinity /\
  b64 (pow2 1024 - pow2 971) = Finite (pow2 1024 - pow2 971).
Proof. vm_compute. repeat split; reflexivity. Qed.

End Binary64Proofs.

(* ===================================================================== *)
(** ** Locating a label, on strings of 16-bit code units *)
(* ===================================================================== *)

Module Utf16Proofs.
Import App Utf16.

Lemma starts_with_take q : forall s,
  starts_with q s = true -> take (length q) s = q /\ length q <= length s.
Proof.
  induction q as [|a q IH]; intros s H.
  - split; [reflexivity|cbn; lia].
  - destruct s as [|b s]; [discriminate|]. cbn in H.
    apply andb_prop in H. destruct H as [E H]. apply N.eqb_eq in E. subst b.
    destruct (IH s H) as [T L]. cbn. rewrite T. split; [reflexivity|lia].
Qed.

Lemma take_starts_with q : forall s,
  take (length q) s = q -> starts_with q s = true.
Proof.
  induction q as [|a q IH]; intros s H; [reflexivity|].
  destruct s as [|b s]; [discriminate|]. cbn in H. injection H as -> H.
  cbn. rewrite N.eqb_refl. exact (IH s H).
Qed.

(** What [indexOf] finds is an occurrence, and the first one. *)
Lemma indexOf_Some s : forall q i,
  indexOf s q = Some i ->
  starts_with q (drop i s) = true /\
  forall j, j < i -> starts_with q (drop j s) = false.
Proof.
  induction s as [|c s IH]; intros q i H.
  - cbn in H. destruct (starts_with q []) eqn:E; [|discriminate].
    injection H as <-. split; [exact E|]. intros j Hj. lia.
  - cbn [indexOf] in H. destruct (starts_with q (c :: s)) eqn:E.
    + injection H as <-. split; [exact E|]. intros j Hj. lia.
    + destruct (indexOf s q) as [k|] eqn:Ek; [|discriminate]. cbn in H.
      injection H as <-. destruct (IH q k Ek) as [A B].
      split; [exact A|]. intros [|j] Hj; [exact E|]. apply B. lia.
Qed.

(** When [indexOf] finds nothing there is no occurrence. *)
Lemma indexOf_None s : forall q j,
  indexOf s q = None -> starts_with q (drop j s) = false.
Proof.
  induction s as [|c s IH]; intros q j H.
  - cbn in H. destruct (starts_with q []) eqn:E; [discriminate|].
    destruct j; exact E.
  - cbn [indexOf] in H. destruct (starts_with q (c :: s)) eqn:E; [discriminate|].
    destruct (indexOf s q) as [k|] eqn:Ek; [discriminate|].
    destruct j as [|j]; [exact E|]. exact (IH q j Ek).
Qed.

Lemma occurrence_fits q s i :
  starts_with q (drop i s) = true -> i + length q <= length s \/ q = [].
Proof.
  intros H. destruct q as [|a q]; [right; reflexivity|]. left.
  destruct (starts_with_take _ _ H) as [_ L]. rewrite length_drop in L.
  cbn in *. lia.
Qed.

Lemma substring_occurrence q s i :
  starts_with q (drop i s) = true -> substring i (i + length q) s = q.
Proof.
  intros H. unfold substring. replace (i + length q - i) with (length q) by lia.
  apply (starts_with_take _ _ H).
Qed.

(** [focusEditorAtText] on a label that is not blank. *)
Lemma focus_unfold lower code ed raw :
  trim (collapse false raw) <> [] ->
  focusEditorAtText lower code (Some ed) (Some raw) =
    let q := trim (collapse false raw) in
    match match indexOf code q with
          | Some i => Some i
          | None => indexOf (lower code) (lower q)
          end with
    | Some idx => Some {| focused := true; selection := Some (idx, idx + length q) |}
    | None => Some ed
    end.
Proof.
  intros Hq. unfold focusEditorAtText. destruct raw as [|c raw]; [contradiction Hq; reflexivity|].
  cbv zeta. destruct (trim (collapse false (c :: raw))) as [|a q]; [contradiction|].
  destruct (indexOf code (a :: q)); [reflexivity|].
  destruct (indexOf (lower code) (lower (a :: q))); reflexivity.
Qed.

Lemma focus_blank lower code ed raw :
  trim (collapse false raw) = [] ->
  focusEditorAtText lower code ed (Some raw) = ed.
Proof.
  intros Hq. unfold focusEditorAtText. destruct raw as [|c raw]; [reflexivity|].
  cbv zeta. rewrite Hq. reflexivity.
Qed.

(** C7: the failing input.  In the text [graph TD; A[İstanbul] --> B[Start]]
    the label [start] is not found as it is written; ignoring case it
    occurs once, as [Start] in the units 28 to 33.  [focusEditorAtText]
    finds it in the lower-cased text, where the two units of the lower
    case of U+0130 have moved it to 29, and selects the units 29 to 34 of
    the text, which read [tart]]. *)
Theorem C7_lowercase_index_shift (ed : Editor) :
  let code := (units "graph TD; A[" ++ [304%N] ++ units "stanbul] --> B[Start]")%list in
  let label := units "start" in
  indexOf code label = None /\
  substring 28 33 code = units "Start" /\
  latin_toLowerCase (substring 28 33 code) = label /\
  indexOf (latin_toLowerCase code) (latin_toLowerCase label) = Some 29 /\
  focusEditorAtText latin_toLowerCase code (Some ed) (Some label)
    = Some {| focused := true; selection := Some (29, 34) |} /\
  substring 29 34 code = units "tart]".
Proof. vm_compute. repeat split; reflexivity. Qed.

(** X21: [focusEditorAtText] either leaves the editor as it was or focuses
    it with a non-empty selection.  The selection lies inside the text
    when the label is found as it is written, and also when it is found
    ignoring case and the lower-cased text is not longer than the text and
    the lower-cased label not shorter than the label.  Without an editor
    nothing is created. *)
Theorem selection_within_text (lower : str -> str) (code : str) (ed : Editor)
        (raw : option str) :
  (focusEditorAtText lower code (Some ed) raw = Some ed \/
   exists r i e,
     raw = Some r /\
     focusEditorAtText lower code (Some ed) raw
       = Some {| focused := true; selection := Some (i, e) |} /\
     i < e /\
     (indexOf code (trim (collapse false r)) <> None \/
      length (lower code) <= length code /\
      length (trim (collapse false r)) <= length (lower (trim (collapse false r))) ->
      e <= length code)) /\
  focusEditorAtText lower code None raw = None.
Proof.
  split.
  - destruct raw as [r|]; [|left; reflexivity].
    destruct (trim (collapse false r)) as [|a q0] eqn:Eq.
    { left. apply focus_blank, Eq. }
    assert (Hq : trim (collapse false r) <> []) by (rewrite Eq; discriminate).
    rewrite (focus_unfold lower code ed r Hq). cbv zeta. rewrite Eq.
    assert (Hn : 0 < length (a :: q0)) by (cbn; lia).
    assert (Hne : a :: q0 <> []) by discriminate.
    clear Hq. revert Hn Hne Eq. generalize (a :: q0). intros q Hn Hne Eq.
    destruct (indexOf code q) as [i|] eqn:E1.
    + right. exists r, i, (i + length q). split; [reflexivity|]. split; [reflexivity|].
      split; [lia|]. intros _.
      destruct (indexOf_Some code q i E1) as [A _].
      destruct (occurrence_fits q _ _ A) as [L|L]; [exact L|contradiction].
    + destruct (indexOf (lower code) (lower q)) as [i|] eqn:E2; [|left; reflexivity].
      right. exists r, i, (i + length q). split; [reflexivity|]. split; [reflexivity|].
      split; [lia|]. rewrite Eq. intros [H|[H1 H2]]; [congruence|].
      destruct (indexOf_Some _ _ i E2) as [A _].
      destruct (occurrence_fits _ _ _ A) as [L|L]; [lia|].
      rewrite L in H2. cbn in H2. lia.
  - unfold focusEditorAtText. destruct raw as [[|c r]|]; try reflexivity.
    cbv zeta. destruct (trim _); [reflexivity|].
    destruct (indexOf code _); [reflexivity|]. destruct (indexOf _ _); reflexivity.
Qed.

Lemma selection_within_text_witness :
  let code := units "flowchart TD; A[Start] --> B[Do thing]" in
  exists i e,
    focusEditorAtText latin_toLowerCase code
      (Some {| focused := false; selection := None |}) (Some (units " do   THING "))
      = Some {| focused := true; selection := Some (i, e) |} /\
    i < e /\ e <= length code.
Proof.
  destruct (selection_within_text latin_toLowerCase
              (units "flowchart TD; A[Start] --> B[Do thing]")
              {| focused := false; selection := None |}
              (Some (units " do   THING "))) as [[H|(r & i & e & Hr & H & Hie & Hin)] _].
  - vm_compute in H. discriminate.
  - exists i, e. split; [exact H|]. split; [exact Hie|].
    apply Hin. right. injection Hr as <-. vm_compute. split; lia.
Defined.

(** With U+0130 in the text the selection can reach beyond its end: in
    the seven units of [İ START] the label [start] is selected as 3 to
    8. *)
Example selection_beyond_text :
  let code := 304%N :: units " START" in
  length code = 7 /\
  focusEditorAtText latin_toLowerCase code
    (Some {| focused := false; selection := None |}) (Some (units "start"))
  = Some {| focused := true; selection := Some (3, 8) |}.
Proof. vm_compute. split; reflexivity. Qed.

(** X26: the search for the label as it is written, whatever
    [toLowerCase] does.  Let [q] be the label with its white space
    collapsed and trimmed, not empty.  When [q] occurs in the text, the
    editor is focused and exactly the first occurrence of [q] is selected;
    when neither [q] occurs in the text nor its lower case in the
    lower-cased text, the editor is left as it is. *)
Theorem locate_as_written (lower : str -> str) (code raw : str) (ed : Editor) :
  trim (collapse false raw) <> [] ->
  let q := trim (collapse false raw) in
  (forall i, indexOf code q = Some i ->
     focusEditorAtText lower code (Some ed) (Some raw)
       = Some {| focused := true; selection := Some (i, i + length q) |} /\
     substring i (i + length q) code = q /\
     i + length q <= length code /\
     forall j, j < i -> substring j (j + length q) code <> q) /\
  (indexOf code q = None -> indexOf (lower code) (lower q) = None ->
     focusEditorAtText lower code (Some ed) (Some raw) = Some ed /\
     forall j, substring j (j + length q) code <> q).
Proof.
  intros Hq q. rewrite (focus_unfold lower code ed raw Hq). cbv zeta. fold q. split.
  - intros i E. rewrite E. split; [reflexivity|].
    destruct (indexOf_Some code q i E) as [A B].
    split; [apply substring_occurrence, A|].
    split; [destruct (occurrence_fits q _ _ A) as [L|L]; [exact L|contradiction]|].
    intros j Hj Hs. specialize (B j Hj).
    unfold substring in Hs. replace (j + length q - j) with (length q) in Hs by lia.
    rewrite (take_starts_with q _ Hs) in B. discriminate.
  - intros E1 E2. rewrite E1, E2. split; [reflexivity|].
    intros j Hs. pose proof (indexOf_None code q j E1) as B.
    unfold substring in Hs. replace (j + length q - j) with (length q) in Hs by lia.
    rewrite (take_starts_with q _ Hs) in B. discriminate.
Qed.

Lemma locate_as_written_witness :
  let code := (units "flowchart TD; A[" ++ [304%N] ++ units "stanbul] --> B[Do thing]")%list in
  let q := trim (collapse false (10%N :: units "  Do   thing ")) in
  (forall i, indexOf code q = Some i ->
     focusEditorAtText latin_toLowerCase code
       (Some {| focused := false; selection := None |})
       (Some (10%N :: units "  Do   thing "))
       = Some {| focused := true; selection := Some (i, i + length q) |} /\
     substring i (i + length q) code = q /\
     i + length q <= length code /\
     forall j, j < i -> substring j (j + length q) code <> q) /\
  (indexOf code q = None -> indexOf (latin_toLowerCase code) (latin_toLowerCase q) = None ->
     focusEditorAtText latin_toLowerCase code
       (Some {| focused := false; selection := None |})
       (Some (10%N :: units "  Do   thing ")) = Some {| focused := false; selection := None |} /\
     forall j, substring j (j + length q) code <> q).
Proof.
  apply (locate_as_written latin_toLowerCase
           ((units "flowchart TD; A[" ++ [304%N] ++ units "stanbul] --> B[Do thing]")%list)
           (10%N :: units "  Do   thing ")
           {| focused := false; selection := None |}).
  vm_compute. discriminate.
Defined.

(** The label [Do thing] of the text above is selected as 32 to 40. *)
Example locate_do_thing :
  let code := (units "flowchart TD; A[" ++ [304%N] ++ units "stanbul] --> B[Do thing]")%list in
  focusEditorAtText latin_toLowerCase code
    (Some {| focused := false; selection := None |})
    (Some (10%N :: units "  Do   thing "))
  = Some {| focused := true; selection := Some (32, 40) |} /\
  substring 32 40 code = units "Do thing".
Proof. vm_compute. split; reflexivity. Qed.

End Utf16Proofs.
